(** * kopikopi-be: order creation, one-time codes and tracking (app.py)

    A shallow embedding of the order-creation core of [app.py]: the helper
    functions ([normalize_email], [normalize_tracking_status],
    [build_order_items], ...), and the three request handlers
    [request_order_code], [verify_and_create_order] and [get_order_tracking]
    over an explicit model of the MySQL connection (one transaction per
    request, commit and rollback, statement errors).

    Conventions.
    - Python [str] values are [string]s of 8-bit characters read as ASCII:
      [strip], [lower], [title], [isdigit] and [int] act on the ASCII range
      and leave every other character alone.
    - Python [int] is [Z].  [Decimal] is a coefficient and an exponent, with
      the rounding of the default context (28 significant digits, half-even)
      written out.  [float] is a binary64 value: a rational, an infinity or
      NaN.
    - SQL [NULL] is [None]; a comparison with [NULL] is not true. *)

From Stdlib Require Import ZArith QArith Qpower Bool List Lia.
From Stdlib Require Import Ascii String.
Import ListNotations.

Local Open Scope string_scope.
Local Open Scope Z_scope.

Set Implicit Arguments.
Set Warnings "-register-all".

(* ================================================================== *)
(** * Python strings *)

Module PyStr.

Definition code (c : ascii) : Z := Z.of_N (N_of_ascii c).

(** [str.isspace] on the ASCII range: TAB..CR, FS..US and the blank. *)
Definition is_space (c : ascii) : bool :=
  let n := code c in
  ((9 <=? n) && (n <=? 13)) || ((28 <=? n) && (n <=? 32)).

Definition is_upper (c : ascii) : bool :=
  let n := code c in (65 <=? n) && (n <=? 90).

Definition is_lower (c : ascii) : bool :=
  let n := code c in (97 <=? n) && (n <=? 122).

Definition is_digit (c : ascii) : bool :=
  let n := code c in (48 <=? n) && (n <=? 57).

Definition of_code (n : Z) : ascii := ascii_of_N (Z.to_N n).

Definition lower_char (c : ascii) : ascii :=
  if is_upper c then of_code (code c + 32) else c.

Definition upper_char (c : ascii) : ascii :=
  if is_lower c then of_code (code c - 32) else c.

Fixpoint lstrip (s : string) : string :=
  match s with
  | String c s' => if is_space c then lstrip s' else s
  | EmptyString => EmptyString
  end.

Fixpoint rstrip (s : string) : string :=
  match s with
  | String c s' =>
      match rstrip s' with
      | EmptyString => if is_space c then EmptyString else String c EmptyString
      | r => String c r
      end
  | EmptyString => EmptyString
  end.

(** [s.strip()] *)
Definition strip (s : string) : string := rstrip (lstrip s).

Fixpoint map (f : ascii -> ascii) (s : string) : string :=
  match s with
  | String c s' => String (f c) (map f s')
  | EmptyString => EmptyString
  end.

(** [s.lower()] *)
Definition lower (s : string) : string := map lower_char s.

(** [s.replace(a, b)] for one-character [a] and [b]. *)
Definition replace (a b : ascii) (s : string) : string :=
  map (fun c => if Ascii.eqb c a then b else c) s.

(** [s] without one final [a], if it ends with one. *)
Fixpoint rstrip_one (a : ascii) (s : string) : string :=
  match s with
  | String c EmptyString => if Ascii.eqb c a then EmptyString else s
  | String c s' => String c (rstrip_one a s')
  | EmptyString => EmptyString
  end.

(** [s.split(a)[0]]: the part before the first [a]. *)
Fixpoint before (a : ascii) (s : string) : string :=
  match s with
  | String c s' => if Ascii.eqb c a then EmptyString else String c (before a s')
  | EmptyString => EmptyString
  end.

(** [s.title()]: a letter that follows a letter is lowered, any other
    letter is raised. *)
Fixpoint title_from (prev_cased : bool) (s : string) : string :=
  match s with
  | String c s' =>
      let cased := is_upper c || is_lower c in
      String (if prev_cased then lower_char c else upper_char c)
             (title_from cased s')
  | EmptyString => EmptyString
  end.

Definition title (s : string) : string := title_from false s.

(** [s[:n]] *)
Definition take (n : nat) (s : string) : string := String.substring 0 n s.

Fixpoint all (p : ascii -> bool) (s : string) : bool :=
  match s with
  | String c s' => p c && all p s'
  | EmptyString => true
  end.

Definition is_empty (s : string) : bool :=
  match s with EmptyString => true | _ => false end.

(** [s.isdigit()]: false on the empty string. *)
Definition isdigit (s : string) : bool := negb (is_empty s) && all is_digit s.

Definition len (s : string) : Z := Z.of_nat (String.length s).

(** [s1 or s2] on strings. *)
Definition or_else (s d : string) : string := if is_empty s then d else s.

End PyStr.

(* ================================================================== *)
(** * Small helpers of app.py *)

(** [normalize_email]: [email.strip().lower()]. *)
Definition normalize_email (email : string) : string :=
  PyStr.lower (PyStr.strip email).

(** [EMAIL_REGEX = ^[^@\s]+@[^@\s]+\.[^@\s]+$], matched from the start of
    the string.  The three classes exclude [@] and white space, so a match is:
    a non-empty part without white space, one [@], and a part without [@] or
    white space that has a dot which is neither its first nor its last
    character.  [$] also matches just before a final newline. *)
Definition email_char (c : ascii) : bool :=
  negb (Ascii.eqb c "@"%char) && negb (PyStr.is_space c).

Fixpoint email_domain_tail (seen_dot : bool) (s : string) : bool :=
  match s with
  | EmptyString => false
  | String c EmptyString => email_char c && seen_dot
  | String c s' =>
      email_char c && email_domain_tail (seen_dot || Ascii.eqb c "."%char) s'
  end.

Definition email_domain (s : string) : bool :=
  match s with
  | EmptyString => false
  | String c s' => email_char c && email_domain_tail false s'
  end.

Fixpoint email_local (nonempty : bool) (s : string) : bool :=
  match s with
  | EmptyString => false
  | String c s' =>
      if Ascii.eqb c "@"%char then nonempty && email_domain s'
      else negb (PyStr.is_space c) && email_local true s'
  end.

Definition chomp_newline (s : string) : string :=
  PyStr.rstrip_one "010"%char s.

(** [is_valid_email]: [bool(EMAIL_REGEX.match(email))]. *)
Definition is_valid_email (email : string) : bool :=
  email_local false email || email_local false (chomp_newline email).

(** The set literal of [normalize_tracking_status]. *)
Definition ready_synonyms : list string :=
  ["completed"; "complete"; "ready_for_pickup"; "ready"; "delivery"; "delivered"].

Definition str_in (s : string) (l : list string) : bool :=
  existsb (String.eqb s) l.

(** [db_status or the empty string], then [.strip().lower().replace(" ", "_")] *)
Definition tracking_key (db_status : option string) : string :=
  let s := match db_status with Some s => s | None => EmptyString end in
  PyStr.replace " "%char "_"%char (PyStr.lower (PyStr.strip s)).

(** [normalize_tracking_status], returning the key string as the code does. *)
Definition normalize_tracking_status (db_status : option string) : string :=
  let status := tracking_key db_status in
  if String.eqb status "cancelled" then "cancelled"
  else if str_in status ready_synonyms then "ready_for_pickup"
  else "pending".

(** [generate_otp_code]: [f"{r:04d}"] for the draw [r] of
    [random.randint(0, 9999)]; [generate_ref_num]: [KK], the UTC date as
    [%y%m%d] and [f"{r:06d}"] for the draw [r] of
    [random.randint(0, 999999)]. *)
Definition digit_char (n : Z) : ascii := PyStr.of_code (48 + n mod 10).

Fixpoint digits_rev (fuel : nat) (n : Z) : string :=
  match fuel with
  | O => EmptyString
  | S fuel' =>
      if n <? 10 then String (digit_char n) EmptyString
      else String (digit_char n) (digits_rev fuel' (n / 10))
  end.

Fixpoint rev_onto (s acc : string) : string :=
  match s with
  | String c s' => rev_onto s' (String c acc)
  | EmptyString => acc
  end.

(** [str(n)] for [n >= 0]. *)
Definition str_nat (n : Z) : string :=
  rev_onto (digits_rev (S (Z.to_nat (Z.log2 n))) n) EmptyString.

Fixpoint zeros (n : nat) : string :=
  match n with O => EmptyString | S n' => String "0"%char (zeros n') end.

(** [f"{n:0{w}d}"] for [n >= 0]. *)
Definition zero_pad (w : nat) (n : Z) : string :=
  let s := str_nat n in zeros (w - String.length s) ++ s.

Definition generate_otp_code (r : Z) : string := zero_pad 4 r.

Record utc_date := { year : Z; month : Z; day : Z }.

Definition strftime_ymd (d : utc_date) : string :=
  zero_pad 2 (year d mod 100) ++ zero_pad 2 (month d) ++ zero_pad 2 (day d).

Definition generate_ref_num (today : utc_date) (r : Z) : string :=
  "KK" ++ strftime_ymd today ++ zero_pad 6 r.

(* ================================================================== *)
(** * Decimal and float *)

Module Dec.

(** A finite [Decimal]: the value is [coeff * 10 ^ expo]. *)
Record decimal := { coeff : Z; expo : Z }.

(** The default context: [prec=28, rounding=ROUND_HALF_EVEN,
    Emin=-999999, Emax=999999], and [Overflow] is trapped. *)
Definition prec : Z := 28.
Definition Emax : Z := 999999.
Definition Emin : Z := -999999.
Definition Etiny : Z := Emin - prec + 1.
Definition Etop : Z := Emax - prec + 1.

Fixpoint ndigits_aux (fuel : nat) (n : Z) : Z :=
  match fuel with
  | O => 1
  | S fuel' => if n <? 10 then 1 else 1 + ndigits_aux fuel' (n / 10)
  end.

(** The number of digits of the coefficient ([len(self._int)]). *)
Definition ndigits (n : Z) : Z :=
  ndigits_aux (Z.to_nat (Z.log2 (Z.abs n))) (Z.abs n).

(** [n / d] to the nearest integer, ties to the even one
    ([n >= 0], [d > 0]). *)
Definition div_half_even (n d : Z) : Z :=
  let q := n / d in
  let r := n mod d in
  if 2 * r <? d then q
  else if d <? 2 * r then q + 1
  else if Z.even q then q else q + 1.

(** [Decimal._fix]: the result of an operation is brought into the
    context.  A zero only has its exponent clamped; a coefficient of more
    than [prec] digits (or an exponent below [Etiny]) is rounded; a result
    too large for [Emax] raises [Overflow] ([None]). *)
Definition fix_ (d : decimal) : option decimal :=
  if coeff d =? 0 then
    Some {| coeff := 0; expo := Z.min (Z.max (expo d) Etiny) Emax |}
  else
    let a := Z.abs (coeff d) in
    let exp_min := ndigits a + expo d - prec in
    if Etop <? exp_min then None
    else
      let exp_min := Z.max exp_min Etiny in
      if expo d <? exp_min then
        let m := div_half_even a (10 ^ (exp_min - expo d)) in
        if ndigits m <=? prec then
          Some {| coeff := Z.sgn (coeff d) * m; expo := exp_min |}
        else if Etop <? exp_min + 1 then None
        else Some {| coeff := Z.sgn (coeff d) * (m / 10); expo := exp_min + 1 |}
      else Some d.

(** The exact product with an [int] and the exact sum. *)
Definition mul_int_exact (d : decimal) (n : Z) : decimal :=
  {| coeff := coeff d * n; expo := expo d |}.

Definition add_exact (a b : decimal) : decimal :=
  let e := Z.min (expo a) (expo b) in
  {| coeff := coeff a * 10 ^ (expo a - e) + coeff b * 10 ^ (expo b - e);
     expo := e |}.

(** [d * n] and [a + b] as the context computes them. *)
Definition mul_int (d : decimal) (n : Z) : option decimal :=
  fix_ (mul_int_exact d n).

Definition add (a b : decimal) : option decimal :=
  fix_ (add_exact a b).

Definition eqb (a b : decimal) : bool :=
  (coeff a =? coeff b) && (expo a =? expo b).

(** The context returns [d] as it is: nothing is rounded away. *)
Definition exact (d : decimal) : bool :=
  match fix_ d with
  | Some d' => eqb d' d
  | None => false
  end.

(** The number a decimal stands for. *)
Definition value (d : decimal) : Q := inject_Z (coeff d) * 10 ^ expo d.

(** [Decimal("0.00")] *)
Definition zero_00 : decimal := {| coeff := 0; expo := -2 |}.

End Dec.

Module Float.

(** A binary64 value. *)
Inductive pyfloat :=
| FNan
| FInf (negative : bool)
| FFin (q : Q).

(** [(n / d) / 2 ^ e] as a fraction. *)
Definition scale2 (n d e : Z) : Z * Z :=
  if 0 <=? e then (n, d * 2 ^ e) else (n * 2 ^ (- e), d).

Definition le_frac (a b : Z * Z) : bool :=
  (fst a * snd b <=? fst b * snd a).

(** The binary64 nearest to a rational, ties to even; beyond the largest
    finite value the result is an infinity (no exception), as in
    [float(str)]. *)
Definition of_Q (x : Q) : pyfloat :=
  let n := Z.abs (Qnum x) in
  let d := Zpos (Qden x) in
  if n =? 0 then FFin 0
  else
    let k0 := Z.log2 n - Z.log2 d in
    let k := if le_frac (1, 1) (scale2 n d k0) then k0 else k0 - 1 in
    let e := Z.max (k - 52) (-1074) in
    let (n', d') := scale2 n d e in
    let m := Dec.div_half_even n' d' in
    if (971 <? e) || ((e =? 971) && (2 ^ 53 <=? m)) then FInf (Qnum x <? 0)
    else FFin (Qred (inject_Z (Z.sgn (Qnum x) * m) * 2 ^ e)).

(** [float(d)] for a [Decimal] and [float(n)] for an [int] (which raises
    [OverflowError] where the decimal conversion gives an infinity). *)
Definition of_decimal (d : Dec.decimal) : pyfloat := of_Q (Dec.value d).

Definition of_int (n : Z) : option pyfloat :=
  match of_Q (inject_Z n) with
  | FInf _ => None
  | f => Some f
  end.

Definition zero : pyfloat := FFin 0.

Definition is_zero (f : pyfloat) : bool :=
  match f with
  | FFin q => Qnum q =? 0
  | _ => false
  end.

End Float.

(* ================================================================== *)
(** * JSON values and [int()] *)

(** What [request.get_json] and [json.loads] produce.  A JSON object is kept
    as its list of members; [dict.get] finds the last member of that name,
    as the later of two equal keys wins when the object is built. *)
Inductive json :=
| JNull
| JBool (b : bool)
| JInt (n : Z)
| JFloat (f : Float.pyfloat)
| JStr (s : string)
| JList (l : list json)
| JDict (members : list (string * json)).

Definition pydict := list (string * json).

Fixpoint dict_find (k : string) (d : pydict) : option json :=
  match d with
  | [] => None
  | (k', v) :: d' =>
      match dict_find k d' with
      | Some v' => Some v'
      | None => if String.eqb k k' then Some v else None
      end
  end.

(** [d.get(k, default)] *)
Definition dict_get (k : string) (default : json) (d : pydict) : json :=
  match dict_find k d with
  | Some v => v
  | None => default
  end.

(** The outcome of [int(v)]. *)
Inductive int_result :=
| IntOk (n : Z)
| IntTypeError
| IntValueError
| IntOverflowError.

(** Digits with single underscores between them. *)
Fixpoint parse_digits (acc : Z) (after_digit : bool) (s : string) : option Z :=
  match s with
  | EmptyString => if after_digit then Some acc else None
  | String c s' =>
      if PyStr.is_digit c then
        parse_digits (10 * acc + (PyStr.code c - 48)) true s'
      else if Ascii.eqb c "_"%char then
        if after_digit then parse_digits acc false s' else None
      else None
  end.

(** [int(s)] for a string: white space around, an optional sign, digits.
    (The limit on the number of digits of Python 3.11 is left out.) *)
Definition int_of_str (s : string) : option Z :=
  match PyStr.strip s with
  | String "-"%char s' => option_map Z.opp (parse_digits 0 false s')
  | String "+"%char s' => parse_digits 0 false s'
  | s' => parse_digits 0 false s'
  end.

(** [int(v)]: a float is truncated, NaN is a [ValueError] and an infinity
    an [OverflowError]; [None], lists and objects are a [TypeError]. *)
Definition py_int (v : json) : int_result :=
  match v with
  | JNull => IntTypeError
  | JBool b => IntOk (if b then 1 else 0)
  | JInt n => IntOk n
  | JFloat Float.FNan => IntValueError
  | JFloat (Float.FInf _) => IntOverflowError
  | JFloat (Float.FFin q) => IntOk (Z.quot (Qnum q) (Zpos (Qden q)))
  | JStr s => match int_of_str s with Some n => IntOk n | None => IntValueError end
  | JList _ => IntTypeError
  | JDict _ => IntTypeError
  end.

(* ================================================================== *)
(** * Exceptions and the pricing resolver *)

(** The exceptions the handlers can meet.  [IntegrityError] and
    [DatabaseError] stand for [mysql.connector] errors with their [errno];
    [DecimalOverflow] is [decimal.Overflow]. *)
Inductive exn :=
| ValueError (msg : string)
| TypeError
| OverflowError (msg : string)
| DecimalOverflow (msg : string)
| AttributeError (msg : string)
| RuntimeError (msg : string)
| IntegrityError (errno : Z) (msg : string)
| DatabaseError (errno : Z) (msg : string)
| SMTPException (msg : string).

(** [str(exc)] *)
Definition exn_str (e : exn) : string :=
  match e with
  | ValueError m => m
  | TypeError => "int() argument must be a string, a bytes-like object or a real number"
  | OverflowError m => m
  | DecimalOverflow m => m
  | AttributeError m => m
  | RuntimeError m => m
  | IntegrityError _ m => m
  | DatabaseError _ m => m
  | SMTPException m => m
  end.

Definition is_ValueError (e : exn) : bool :=
  match e with ValueError _ => true | _ => false end.

(** A row of the [SELECT id, name, price, image_url FROM menu] result;
    [price] is [Decimal(str(menu_row["price"]))]. *)
Record menu_row := {
  menu_id : Z;
  menu_name : string;
  menu_price : Dec.decimal;
  menu_image_url : option string;
}.

(** [menu_map], a [dict[int, dict]]. *)
Definition menu_map := list (Z * menu_row).

Fixpoint map_find (k : Z) (m : menu_map) : option menu_row :=
  match m with
  | [] => None
  | (k', v) :: m' =>
      match map_find k m' with
      | Some v' => Some v'
      | None => if k =? k' then Some v else None
      end
  end.

(** One element of [order_items]. *)
Record order_item := {
  item_id : Z;
  item_name : string;
  item_qty : Z;
  item_price : Float.pyfloat;
  item_line_total : Float.pyfloat;
  item_image_url : option string;
}.

(** [raw_item.get("id", raw_item.get("menu_id"))] and
    [raw_item.get("qty", 1)] *)
Definition raw_menu_id (raw_item : pydict) : json :=
  dict_get "id" (dict_get "menu_id" JNull raw_item) raw_item.

Definition raw_qty (raw_item : pydict) : json :=
  dict_get "qty" (JInt 1) raw_item.

Definition overflow_msg : string := "cannot convert float infinity to integer".
Definition decimal_overflow_msg : string := "[<class 'decimal.Overflow'>]".

(** [raw_item.get]: only an object has the method. *)
Definition as_dict (raw_item : json) : pydict + exn :=
  match raw_item with
  | JDict d => inl d
  | _ => inr (AttributeError "object has no attribute 'get'")
  end.

Definition str_int (n : Z) : string :=
  (if n <? 0 then "-" else EmptyString) ++ str_nat (Z.abs n).

(** The body of the [for raw_item in raw_items] loop of [build_order_items]:
    the new line and the new running total, or the exception raised. *)
Definition build_order_line (menu : menu_map) (raw_item : json)
    (total : Dec.decimal) : order_item * Dec.decimal + exn :=
  match as_dict raw_item with
  | inr e => inr e
  | inl raw_item =>
  match py_int (raw_menu_id raw_item) with
  | IntTypeError | IntValueError => inr (ValueError "Invalid menu item payload.")
  | IntOverflowError => inr (OverflowError overflow_msg)
  | IntOk menu_id =>
      match py_int (raw_qty raw_item) with
      | IntTypeError | IntValueError => inr (ValueError "Invalid menu item payload.")
      | IntOverflowError => inr (OverflowError overflow_msg)
      | IntOk qty =>
          if qty <? 1 then inr (ValueError "Quantity must be at least 1.")
          else
            match map_find menu_id menu with
            | None =>
                inr (ValueError ("Menu item " ++ str_int menu_id ++ " is unavailable."))
            | Some row =>
                let price := menu_price row in
                match Dec.mul_int price qty with
                | None => inr (DecimalOverflow decimal_overflow_msg)
                | Some line_total =>
                    match Dec.add total line_total with
                    | None => inr (DecimalOverflow decimal_overflow_msg)
                    | Some total' =>
                        inl ({| item_id := menu_id;
                                item_name := menu_name row;
                                item_qty := qty;
                                item_price := Float.of_decimal price;
                                item_line_total := Float.of_decimal line_total;
                                item_image_url := menu_image_url row |},
                             total')
                    end
                end
            end
      end
  end
  end.

Fixpoint build_order_items_from (menu : menu_map) (raw_items : list json)
    (order_items : list order_item) (total : Dec.decimal)
    : list order_item * Dec.decimal + exn :=
  match raw_items with
  | [] => inl (order_items, total)
  | raw_item :: rest =>
      match build_order_line menu raw_item total with
      | inr e => inr e
      | inl (item, total') =>
          build_order_items_from menu rest (order_items ++ [item])%list total'
      end
  end.

(** [build_order_items(menu_map, raw_items)] *)
Definition build_order_items (menu : menu_map) (raw_items : list json)
    : list order_item * Dec.decimal + exn :=
  build_order_items_from menu raw_items [] Dec.zero_00.

(* ================================================================== *)
(** * The store *)

(** The tables the handlers touch.  Their declarations are not part of
    app.py; the columns are those the statements name.  [id] is an
    auto-increment key and [created_at] / [date_created] default to the
    current time. *)
Record code_verify_row := {
  cv_id : Z;
  cv_identifier : string;
  cv_code : string;
  cv_status : Z;                (* 0 pending, 1 consumed, 2 superseded *)
  cv_created_at : Z;
  cv_expires_at : option Z;
  cv_used_at : option Z;
}.

Record customer_row := {
  cust_id : Z;
  cust_business_name : string;
  cust_dealer_name : string;
  cust_email : string;
  cust_phone_number : string;
  cust_address : string;
}.

Record order_row := {
  ord_id : Z;
  ord_ref_num : string;
  ord_customer_name : string;
  ord_customer_id : option Z;
  ord_amount : option Dec.decimal;
  ord_items : option string;
  ord_status : option string;
  ord_invoice_sent : option string;
  ord_paid : option string;
  ord_date_created : option Z;
}.

Record menu_table_row := {
  m_row : menu_row;
  m_is_available : Z;
}.

Record db := {
  code_verify : list code_verify_row;
  customer : list customer_row;
  orders : list order_row;
  menu : list menu_table_row;
}.

Definition set_code_verify (t : list code_verify_row) (d : db) : db :=
  {| code_verify := t; customer := customer d; orders := orders d; menu := menu d |}.

Definition set_customer (t : list customer_row) (d : db) : db :=
  {| code_verify := code_verify d; customer := t; orders := orders d; menu := menu d |}.

Definition set_orders (t : list order_row) (d : db) : db :=
  {| code_verify := code_verify d; customer := customer d; orders := t; menu := menu d |}.

Definition set_cv_status (st : Z) (used_at : option Z) (r : code_verify_row)
    : code_verify_row :=
  {| cv_id := cv_id r; cv_identifier := cv_identifier r; cv_code := cv_code r;
     cv_status := st; cv_created_at := cv_created_at r;
     cv_expires_at := cv_expires_at r; cv_used_at := used_at |}.

(** The next auto-increment value of a table with the given ids. *)
Definition next_id (ids : list Z) : Z := 1 + fold_right Z.max 0 ids.

(** SQL comparisons with a nullable column: not true on [NULL]. *)
Definition sql_le (a : option Z) (b : Z) : bool :=
  match a with Some a => a <=? b | None => false end.

Definition sql_gt (a : option Z) (b : Z) : bool :=
  match a with Some a => b <? a | None => false end.

(** [UPDATE code_verify SET status = 2 WHERE identifier = %s AND status = 0] *)
Definition is_pending_for (email : string) (r : code_verify_row) : bool :=
  String.eqb (cv_identifier r) email && (cv_status r =? 0).

Definition sql_supersede_pending (email : string) (d : db) : db :=
  set_code_verify
    (map (fun r => if is_pending_for email r then set_cv_status 2 (cv_used_at r) r else r)
         (code_verify d)) d.

(** [INSERT INTO code_verify (identifier, code, status, expires_at)
     VALUES (%s, %s, 0, NULL)] *)
Definition sql_insert_code (now : Z) (email code : string) (d : db) : db :=
  set_code_verify
    (code_verify d ++
       [{| cv_id := next_id (map cv_id (code_verify d));
           cv_identifier := email; cv_code := code; cv_status := 0;
           cv_created_at := now; cv_expires_at := None; cv_used_at := None |}]) d.

(** [UPDATE code_verify SET status = 2 WHERE identifier = %s AND status = 0
     AND expires_at <= NOW()] *)
Definition sql_supersede_expired (now : Z) (email : string) (d : db) : db :=
  set_code_verify
    (map (fun r => if is_pending_for email r && sql_le (cv_expires_at r) now
                   then set_cv_status 2 (cv_used_at r) r else r)
         (code_verify d)) d.

(** [SELECT id FROM code_verify WHERE identifier = %s AND code = %s
     AND status = 0 AND expires_at > NOW() ORDER BY created_at DESC LIMIT 1]:
    of the rows newest by [created_at], the first in table order. *)
Definition code_matches (now : Z) (email code : string) (r : code_verify_row) : bool :=
  is_pending_for email r && String.eqb (cv_code r) code
  && sql_gt (cv_expires_at r) now.

Fixpoint newest (best : option code_verify_row) (rows : list code_verify_row)
    : option code_verify_row :=
  match rows with
  | [] => best
  | r :: rows' =>
      match best with
      | Some b => if cv_created_at b <? cv_created_at r then newest (Some r) rows'
                  else newest best rows'
      | None => newest (Some r) rows'
      end
  end.

Definition sql_select_code (now : Z) (email code : string) (d : db) : option Z :=
  option_map cv_id (newest None (filter (code_matches now email code) (code_verify d))).

(** [SELECT id, name, price, image_url FROM menu WHERE id IN (...)
     AND is_available = 1] *)
Definition sql_select_menu (ids : list Z) (d : db) : list menu_row :=
  map m_row
    (filter (fun r => existsb (Z.eqb (menu_id (m_row r))) ids && (m_is_available r =? 1))
            (menu d)).

(** [SELECT id FROM customer WHERE email = %s ORDER BY id DESC LIMIT 1] *)
Fixpoint max_id (best : option Z) (ids : list Z) : option Z :=
  match ids with
  | [] => best
  | i :: ids' =>
      match best with
      | Some b => if b <? i then max_id (Some i) ids' else max_id best ids'
      | None => max_id (Some i) ids'
      end
  end.

Definition sql_select_customer (email : string) (d : db) : option Z :=
  max_id None (map cust_id (filter (fun c => String.eqb (cust_email c) email) (customer d))).

(** [INSERT INTO customer (business_name, dealer_name, email, phone_number,
     address) VALUES (...)], with [cursor.lastrowid]. *)
Definition sql_insert_customer (business dealer email phone address : string) (d : db)
    : Z * db :=
  let id := next_id (map cust_id (customer d)) in
  (id,
   set_customer
     (customer d ++
        [{| cust_id := id; cust_business_name := business; cust_dealer_name := dealer;
            cust_email := email; cust_phone_number := phone; cust_address := address |}]) d).

(** [UPDATE code_verify SET status = 1, used_at = NOW() WHERE id = %s] *)
Definition sql_consume_code (now : Z) (id : Z) (d : db) : db :=
  set_code_verify
    (map (fun r => if cv_id r =? id then set_cv_status 1 (Some now) r else r)
         (code_verify d)) d.

(** [INSERT INTO orders (ref_num, customer_name, customer_id, amount, items,
     status, invoice_sent, paid) VALUES (%s, %s, %s, %s, %s, 'Pending',
     'False', 'False')], with [cursor.lastrowid]. *)
Definition sql_insert_order (now : Z) (ref_num customer_name : string)
    (customer_id : Z) (amount : Dec.decimal) (items : string) (d : db) : Z * db :=
  let id := next_id (map ord_id (orders d)) in
  (id,
   set_orders
     (orders d ++
        [{| ord_id := id; ord_ref_num := ref_num; ord_customer_name := customer_name;
            ord_customer_id := Some customer_id; ord_amount := Some amount;
            ord_items := Some items; ord_status := Some "Pending";
            ord_invoice_sent := Some "False"; ord_paid := Some "False";
            ord_date_created := Some now |}]) d).

(** [SELECT o.*, c.email FROM orders o LEFT JOIN customer c
     ON c.id = o.customer_id WHERE o.ref_num = %s LIMIT 1] *)
Definition sql_select_order (ref_num : string) (d : db)
    : option (order_row * option string) :=
  match filter (fun o => String.eqb (ord_ref_num o) ref_num) (orders d) with
  | [] => None
  | o :: _ =>
      Some (o,
            match ord_customer_id o with
            | None => None
            | Some cid =>
                match filter (fun c => cust_id c =? cid) (customer d) with
                | [] => None
                | c :: _ => Some (cust_email c)
                end
            end)
  end.

(* ================================================================== *)
(** * Connection, transaction and environment *)

Record response := { status : Z; body : json }.

(** The statements of the handlers, by the place they are issued from. *)
Inductive stmt :=
| RC_supersede                     (* request-code: UPDATE ... status = 2 *)
| RC_insert (attempt : nat)        (* request-code: INSERT INTO code_verify *)
| VC_expire                        (* verify: UPDATE ... expires_at <= NOW() *)
| VC_select_code
| VC_select_menu
| VC_select_customer
| VC_insert_customer
| VC_consume
| VC_insert_order (attempt : nat)
| TR_select.                       (* tracking: SELECT ... FROM orders *)

Inductive event :=
| EvExecute (s : stmt)
| EvCommit
| EvRollback
| EvSendEmail (recipient subject text_body : string).

(** An error of [mysql.connector]: [IntegrityError] or another subclass of
    [mysql.connector.Error]. *)
Record db_error := { err_integrity : bool; err_no : Z; err_msg : string }.

Definition db_exn (e : db_error) : exn :=
  if err_integrity e then IntegrityError (err_no e) (err_msg e)
  else DatabaseError (err_no e) (err_msg e).

(** What a request finds around it: the clock, the random draws, and which
    statement, commit or mail delivery fails. *)
Record world := {
  now : Z;
  today : utc_date;
  rand_otp : nat -> Z;            (* k-th random.randint(0, 9999) *)
  rand_ref : nat -> Z;            (* k-th random.randint(0, 999999) *)
  db_fault : stmt -> option db_error;
  commit_fault : option db_error;
  smtp_fault : option string;     (* send_html_email raises, with str(exc) *)
}.

Record config := {
  frontend_base_url : string;
  shop_address : string;
}.

(** Library functions the handlers call and the model does not define. *)
Record pylib := {
  json_dumps : list order_item -> string;
  json_loads : string -> option json;        (* None: JSONDecodeError *)
  float_of_str : string -> option Float.pyfloat;  (* None: ValueError *)
  isoformat : Z -> string;
}.

(** A connection with autocommit off: statements act on [working]; [commit]
    makes it the store, [rollback] and [close] drop it. *)
Record conn := {
  committed : db;
  working : db;
  trace : list event;
}.

Definition connect (d : db) : conn :=
  {| committed := d; working := d; trace := [] |}.

Definition log (ev : event) (c : conn) : conn :=
  {| committed := committed c; working := working c; trace := (trace c ++ [ev])%list |}.

Definition set_working (d : db) (c : conn) : conn :=
  {| committed := committed c; working := d; trace := trace c |}.

Inductive outcome (A : Type) :=
| Val (a : A)
| Raise (e : exn)
| Return (r : response).

Arguments Val {A} a.
Arguments Raise {A} e.
Arguments Return {A} r.

(** Code inside a [try] block: it threads the connection and ends with a
    value, an exception or an early [return]. *)
Definition M (A : Type) : Type := conn -> outcome A * conn.

Definition ret {A} (a : A) : M A := fun c => (Val a, c).

Definition bind {A B} (m : M A) (k : A -> M B) : M B :=
  fun c =>
    match m c with
    | (Val a, c') => k a c'
    | (Raise e, c') => (Raise e, c')
    | (Return r, c') => (Return r, c')
    end.

Definition raise {A} (e : exn) : M A := fun c => (Raise e, c).

Definition return_ {A} (r : response) : M A := fun c => (Return r, c).

Definition lift {A} (r : A + exn) : M A :=
  match r with
  | inl a => ret a
  | inr e => raise e
  end.

Declare Scope txn_scope.
Delimit Scope txn_scope with txn.
Notation "x <- m ;; k" := (bind m (fun x => k))
  (at level 61, m at next level, right associativity) : txn_scope.
Notation "' pat <- m ;; k" := (bind m (fun x => match x with pat => k end))
  (at level 61, pat pattern, m at next level, right associativity) : txn_scope.
Notation "m ;;; k" := (bind m (fun _ => k))
  (at level 61, right associativity) : txn_scope.

(** [conn.rollback()] and [conn.commit()] *)
Definition rollback : M unit :=
  fun c => (Val tt, log EvRollback (set_working (committed c) c)).

Definition error (status : Z) (msg : string) : response :=
  {| status := status; body := JDict [("error", JStr msg)] |}.

Definition error_details (status : Z) (msg details : string) : response :=
  {| status := status; body := JDict [("error", JStr msg); ("details", JStr details)] |}.

Section Handlers.

Variable cfg : config.
Variable py : pylib.
Variable w : world.

(** [cursor.execute(...)]: the statement fails as the environment says,
    or acts on the working copy. *)
Definition execute {A} (s : stmt) (run : db -> A * db) : M A :=
  fun c =>
    let c := log (EvExecute s) c in
    match db_fault w s with
    | Some err => (Raise (db_exn err), c)
    | None => let (a, d) := run (working c) in (Val a, set_working d c)
    end.

Definition update (s : stmt) (run : db -> db) : M unit :=
  execute s (fun d => (tt, run d)).

Definition query {A} (s : stmt) (run : db -> A) : M A :=
  execute s (fun d => (run d, d)).

Definition commit : M unit :=
  fun c =>
    match commit_fault w with
    | Some err => (Raise (db_exn err), c)
    | None =>
        (Val tt, log EvCommit {| committed := working c; working := working c;
                                 trace := trace c |})
    end.

(** [try: m  except IntegrityError as exc: if exc.errno == 1062: continue
    else raise], where [retry] is the rest of the loop. *)
Definition except_duplicate {A} (m retry : M A) : M A :=
  fun c =>
    match m c with
    | (Raise (IntegrityError errno msg), c') =>
        if errno =? 1062 then retry c' else (Raise (IntegrityError errno msg), c')
    | r => r
    end.

Local Open Scope txn_scope.

(** The retry loops, [for _ in range(n): try: ... break  except
    IntegrityError: (continue or raise)]: [round k] is the body of round
    [k], [exhausted] what follows a loop that never broke out, [left] the
    number of rounds to go. *)
Fixpoint retry_on_duplicate {B} (round : nat -> M B) (exhausted : M B)
    (left k : nat) : M B :=
  match left with
  | O => exhausted
  | S left' =>
      except_duplicate (round k) (retry_on_duplicate round exhausted left' (S k))
  end.

(** A round: one statement, and the value the loop leaves when the
    statement went through. *)
Definition attempt {A B} (s : stmt) (run : db -> A * db) (post : A -> B) : M B :=
  a <- execute s run ;; ret (post a).

(* ---------------------------------------------------------------- *)
(** ** POST /api/orders/request-code *)

(** [for _ in range(8): ... else: raise RuntimeError(...)] *)
Definition insert_code_loop (email : string) : M string :=
  retry_on_duplicate
    (fun k =>
       let code := generate_otp_code (rand_otp w k) in
       attempt (RC_insert k) (fun d => (tt, sql_insert_code (now w) email code d))
               (fun _ => code))
    (raise (RuntimeError "Could not generate a unique verification code."))
    8 0.

Definition request_code_txn (email : string) : M string :=
  update RC_supersede (sql_supersede_pending email) ;;;
  code <- insert_code_loop email ;;
  commit ;;;
  ret code.

(** What a handler leaves behind: the response, the store once the
    connection is closed, and what was done on the way. *)
Record result := {
  resp : response;
  store : db;
  events : list event;
}.

(** [send_html_email]: [true], or the exception text. *)
Definition send_html_email : bool + string :=
  match smtp_fault w with
  | Some msg => inr msg
  | None => inl true
  end.

Definition otp_subject : string := "Your Kopi Kopi verification code".

Definition otp_text (code : string) : string :=
  "Your Kopi Kopi verification code is " ++ code ++ ". It expires in 5 minutes.".

(** After the [try] block of request-code: the error answer of the
    [except] branch, or the mail and the answer that follows it. *)
Definition request_code_finish (email : string) (run : outcome string * conn)
    : result :=
  match run with
  | (Raise exc, c) =>
      let c := snd (rollback c) in
      {| resp := error_details 500 "Failed to generate verification code." (exn_str exc);
         store := committed c; events := trace c |}
  | (Return r, c) => {| resp := r; store := committed c; events := trace c |}
  | (Val code, c) =>
      let evs := (trace c ++ [EvSendEmail email otp_subject (otp_text code)])%list in
      match send_html_email with
      | inr msg =>
          {| resp := error_details 500 "Failed to send verification email." msg;
             store := committed c; events := evs |}
      | inl _ =>
          {| resp := {| status := 200;
                        body := JDict [("message", JStr "Verification code generated.");
                                       ("email_sent", JBool true);
                                       ("expires_in_seconds", JInt 300)] |};
             store := committed c; events := evs |}
      end
  end.

(** [payload_email] is [str(payload.get("email", empty))], [empty] the empty
    string. *)
Definition request_order_code (payload_email : string) (d : db) : result :=
  let email := normalize_email payload_email in
  if PyStr.is_empty email || negb (is_valid_email email) then
    {| resp := error 400 "Valid email is required."; store := d; events := [] |}
  else
    request_code_finish email (request_code_txn email (connect d)).

(* ---------------------------------------------------------------- *)
(** ** POST /api/orders/verify-and-create *)

(** The fields of the request body: [email], [code], [customerName] and
    [phoneNumber] after [str(payload.get(..., empty))], and [items] as sent
    ([JNull] when absent). *)
Record order_payload := {
  p_email : string;
  p_code : string;
  p_items : json;
  p_customerName : string;
  p_phoneNumber : string;
}.

(** [for raw_item in raw_items: ... menu_ids.append(int(menu_id))] *)
Fixpoint collect_menu_ids (raw_items : list json) (menu_ids : list Z) : M (list Z) :=
  match raw_items with
  | [] => ret menu_ids
  | raw_item :: rest =>
      raw_item <- lift (as_dict raw_item) ;;
      match py_int (raw_menu_id raw_item) with
      | IntOk n => collect_menu_ids rest (menu_ids ++ [n])%list
      | IntTypeError | IntValueError =>
          rollback ;;; return_ (error 400 "Invalid menu item in cart.")
      | IntOverflowError => raise (OverflowError overflow_msg)
      end
  end.

(** The order [for _ in range(8)] loop: [order_id] and [ref_num] when an
    insert went through, [None] when the rounds are used up. *)
Definition insert_order_loop (customer_name : string) (customer_id : Z)
    (order_total : Dec.decimal) (items : string) : M (option (Z * string)) :=
  retry_on_duplicate
    (fun k =>
       let ref_num := generate_ref_num (today w) (rand_ref w k) in
       attempt (VC_insert_order k)
               (sql_insert_order (now w) ref_num (PyStr.take 100 customer_name)
                                 customer_id order_total items)
               (fun order_id => Some (order_id, ref_num)))
    (ret None)
    8 0.

Record created := {
  new_order_id : Z;
  new_ref_num : string;
  new_items : list order_item;
  new_total : Dec.decimal;
}.

(** What the transaction has worked out when it comes to the order
    insert. *)
Record prepared := {
  pr_items : list order_item;
  pr_total : Dec.decimal;
  pr_customer_id : Z;
}.

(** The [try] block up to the consumption of the code. *)
Definition verify_prepare (email code : string) (raw_items : list json)
    (customer_name phone_number : string) : M prepared :=
  update VC_expire (sql_supersede_expired (now w) email) ;;;
  code_row <- query VC_select_code (sql_select_code (now w) email code) ;;
  match code_row with
  | None => rollback ;;; return_ (error 400 "Verification code is invalid or expired.")
  | Some code_row_id =>
      menu_ids <- collect_menu_ids raw_items [] ;;
      menu_rows <- query VC_select_menu (sql_select_menu menu_ids) ;;
      let menu_map := map (fun row => (menu_id row, row)) menu_rows in
      '(order_items, order_total) <- lift (build_order_items menu_map raw_items) ;;
      match order_items with
      | [] => rollback ;;; return_ (error 400 "No valid items in cart.")
      | _ =>
          customer <- query VC_select_customer (sql_select_customer email) ;;
          customer_id <-
            match customer with
            | Some id => ret id
            | None =>
                execute VC_insert_customer
                  (sql_insert_customer (PyStr.take 150 customer_name)
                                       (PyStr.take 100 customer_name)
                                       email (PyStr.take 25 phone_number)
                                       (shop_address cfg))
            end ;;
          update VC_consume (sql_consume_code (now w) code_row_id) ;;;
          ret {| pr_items := order_items; pr_total := order_total;
                 pr_customer_id := customer_id |}
      end
  end.

(** The rest of the [try] block: the order insert and the commit. *)
Definition verify_place (customer_name : string) (p : prepared) : M created :=
  inserted <- insert_order_loop customer_name (pr_customer_id p) (pr_total p)
                (json_dumps py (pr_items p)) ;;
  match inserted with
  | None => raise (RuntimeError "Could not create order reference number.")
  | Some (order_id, ref_num) =>
      if order_id =? 0 then
        raise (RuntimeError "Could not create order reference number.")
      else
        commit ;;;
        ret {| new_order_id := order_id; new_ref_num := ref_num;
               new_items := pr_items p; new_total := pr_total p |}
  end.

Definition verify_txn (email code : string) (raw_items : list json)
    (customer_name phone_number : string) : M created :=
  p <- verify_prepare email code raw_items customer_name phone_number ;;
  verify_place customer_name p.

Definition default_customer_name (email : string) : string :=
  PyStr.or_else
    (PyStr.take 100 (PyStr.title (PyStr.replace "."%char " "%char (PyStr.before "@"%char email))))
    "Guest".

Definition option_json (o : option string) : json :=
  match o with Some s => JStr s | None => JNull end.

(** After the [try] block of verify-and-create: the answers of the two
    [except] branches, or the confirmation mail and the answer that
    follows it. *)
Definition verify_finish (email : string) (run : outcome created * conn) : result :=
  match run with
  | (Raise exc, c) =>
      let c := snd (rollback c) in
      {| resp := if is_ValueError exc then error 400 (exn_str exc)
                 else error_details 500 "Failed to create order." (exn_str exc);
         store := committed c; events := trace c |}
  | (Return r, c) => {| resp := r; store := committed c; events := trace c |}
  | (Val o, c) =>
      let ref_num := new_ref_num o in
      let track_url := frontend_base_url cfg ++ "/track-order?ref=" ++ ref_num in
      let subject := "Kopi Kopi Order Confirmation (" ++ ref_num ++ ")" in
      let text_body :=
        "Your order " ++ ref_num ++ " is confirmed. Track it here: " ++ track_url in
      let (send_ok, email_error) :=
        match send_html_email with
        | inl ok => (ok, None)
        | inr msg => (false, Some msg)
        end in
      {| resp :=
           {| status := 200;
              body :=
                JDict [("message", JStr "Order created successfully.");
                       ("order",
                        JDict [("id", JInt (new_order_id o));
                               ("ref_num", JStr ref_num);
                               ("amount", JFloat (Float.of_decimal (new_total o)));
                               ("status", JStr "pending");
                               ("track_url", JStr track_url)]);
                       ("email_sent", JBool send_ok);
                       ("email_error", option_json email_error)] |};
         store := committed c;
         events := (trace c ++ [EvSendEmail email subject text_body])%list |}
  end.

Definition verify_and_create_order (payload : order_payload) (d : db) : result :=
  let email := normalize_email (p_email payload) in
  let code := PyStr.strip (p_code payload) in
  let customer_name := PyStr.strip (p_customerName payload) in
  let phone_number := PyStr.or_else (PyStr.strip (p_phoneNumber payload)) "N/A" in
  let early r := {| resp := r; store := d; events := [] |} in
  if PyStr.is_empty email || negb (is_valid_email email) then
    early (error 400 "Valid email is required.")
  else if PyStr.is_empty code || negb (PyStr.isdigit code)
          || negb (PyStr.len code =? 4) then
    early (error 400 "A valid 4-digit verification code is required.")
  else
    match p_items payload with
    | JList (first :: others) =>
        let raw_items := first :: others in
        let customer_name :=
          if PyStr.is_empty customer_name then default_customer_name email
          else customer_name in
        verify_finish email
          (verify_txn email code raw_items customer_name phone_number (connect d))
    | _ => early (error 400 "At least one cart item is required.")
    end.

(* ---------------------------------------------------------------- *)
(** ** GET /api/orders/<ref_num> *)

(** Truth value of a JSON value, for [x or default]. *)
Definition truthy (v : json) : bool :=
  match v with
  | JNull => false
  | JBool b => b
  | JInt n => negb (n =? 0)
  | JFloat f => negb (Float.is_zero f)
  | JStr s => negb (PyStr.is_empty s)
  | JList l => match l with [] => false | _ => true end
  | JDict m => match m with [] => false | _ => true end
  end.

Definition py_or (v default : json) : json := if truthy v then v else default.

(** [float(v)] *)
Definition py_float (v : json) : Float.pyfloat + exn :=
  match v with
  | JBool b => inl (Float.FFin (if b then 1 else 0))
  | JInt n =>
      match Float.of_int n with
      | Some f => inl f
      | None => inr (OverflowError "int too large to convert to float")
      end
  | JFloat f => inl f
  | JStr s =>
      match float_of_str py s with
      | Some f => inl f
      | None => inr (ValueError "could not convert string to float")
      end
  | JNull | JList _ | JDict _ => inr TypeError
  end.

Definition int_exn (r : int_result) : Z + exn :=
  match r with
  | IntOk n => inl n
  | IntTypeError => inr TypeError
  | IntValueError => inr (ValueError "invalid literal for int() with base 10")
  | IntOverflowError => inr (OverflowError overflow_msg)
  end.

(** The [for item in parsed_items] loop. *)
Fixpoint track_items (parsed_items : list json) : list json + exn :=
  match parsed_items with
  | [] => inl []
  | item :: rest =>
      match as_dict item with
      | inr e => inr e
      | inl item =>
          match int_exn (py_int (py_or (dict_get "qty" (JInt 0) item) (JInt 0))) with
          | inr e => inr e
          | inl qty =>
              match py_float (py_or (dict_get "line_total" (JInt 0) item) (JInt 0)) with
              | inr e => inr e
              | inl line_total =>
                  match track_items rest with
                  | inr e => inr e
                  | inl shown =>
                      inl (JDict [("name", dict_get "name" (JStr "Item") item);
                                  ("qty", JInt qty);
                                  ("line_total", JFloat line_total)] :: shown)
                  end
              end
          end
      end
  end.

(** [try: parsed_items = json.loads(row.get("items") or "[]") ...
    except json.JSONDecodeError: parsed_items = []] *)
Definition parse_items (items : option string) : list json :=
  let text := match items with
              | Some s => PyStr.or_else s "[]"
              | None => "[]"
              end in
  match json_loads py text with
  | Some (JList l) => l
  | Some _ => []
  | None => []
  end.

Definition utf8 (codes : list Z) : string :=
  fold_right (fun n s => String (PyStr.of_code n) s) EmptyString codes.

Definition STATUS_FLOW : json :=
  JList [JDict [("key", JStr "pending"); ("label", JStr "Pending");
                ("icon", JStr (utf8 [240; 159; 167; 190]))];
         JDict [("key", JStr "ready_for_pickup"); ("label", JStr "Ready for Pickup");
                ("icon", JStr (utf8 [226; 156; 133]))]].

Definition flow_keys : list string := ["pending"; "ready_for_pickup"].

(** [flow_keys.index(status_key) if status_key in flow_keys else 0] *)
Fixpoint index_of (k : string) (keys : list string) : option Z :=
  match keys with
  | [] => None
  | k' :: keys' =>
      if String.eqb k k' then Some 0 else option_map Z.succ (index_of k keys')
  end.

Definition current_index (status_key : string) : Z :=
  match index_of status_key flow_keys with Some i => i | None => 0 end.

(** [to_float(value)] *)
Definition to_float (value : option Dec.decimal) : Float.pyfloat :=
  match value with
  | None => Float.zero
  | Some d => Float.of_decimal d
  end.

(** [str(flag or "False").lower() == "true"] *)
Definition flag_true (flag : option string) : bool :=
  let s := match flag with Some s => PyStr.or_else s "False" | None => "False" end in
  String.eqb (PyStr.lower s) "true".

(** An exception no handler catches: Flask answers 500. *)
Definition internal_server_error : response :=
  {| status := 500; body := JStr "Internal Server Error" |}.

Definition get_order_tracking (ref_num : string) (d : db) : result :=
  let ref_num := PyStr.strip ref_num in
  if PyStr.is_empty ref_num then
    {| resp := error 400 "Order reference is required."; store := d; events := [] |}
  else
    match query TR_select (sql_select_order ref_num) (connect d) with
    | (Raise exc, c) =>
        (* app.errorhandler(MySQLError) *)
        {| resp := error_details 500 "Database error" (exn_str exc);
           store := committed c; events := trace c |}
    | (Return r, c) => {| resp := r; store := committed c; events := trace c |}
    | (Val None, c) =>
        {| resp := error 404 "Order not found."; store := committed c; events := trace c |}
    | (Val (Some (row, email)), c) =>
        let status_key := normalize_tracking_status (ord_status row) in
        let status_label :=
          if String.eqb status_key "ready_for_pickup" then "Ready for Pickup"
          else "Pending" in
        let parsed_items := parse_items (ord_items row) in
        match track_items parsed_items with
        | inr _ =>
            {| resp := internal_server_error; store := committed c; events := trace c |}
        | inl order_items =>
            {| resp :=
                 {| status := 200;
                    body :=
                      JDict
                        [("order",
                          JDict [("id", JInt (ord_id row));
                                 ("order_number", JStr (ord_ref_num row));
                                 ("order_status", JStr status_key);
                                 ("order_status_label", JStr status_label);
                                 ("db_status", option_json (ord_status row));
                                 ("customer_name", JStr (ord_customer_name row));
                                 ("amount", JFloat (to_float (ord_amount row)));
                                 ("date_created",
                                  match ord_date_created row with
                                  | Some t => JStr (isoformat py t)
                                  | None => JNull
                                  end);
                                 ("invoice_sent", JBool (flag_true (ord_invoice_sent row)));
                                 ("paid", JBool (flag_true (ord_paid row)));
                                 ("email", option_json email)]);
                         ("order_items", JList order_items);
                         ("status_flow", STATUS_FLOW);
                         ("current_index", JInt (current_index status_key));
                         ("is_cancelled", JBool (String.eqb status_key "cancelled"))] |};
               store := committed c; events := trace c |}
        end
    end.

End Handlers.

Arguments execute w {A} s run c.
Arguments commit w c.
Arguments attempt w {A B} s run post c.
Arguments retry_on_duplicate {B} round exhausted left k c.

(* ================================================================== *)
(** * Example data *)

Module Ex.

Definition kopi : menu_row :=
  {| menu_id := 1; menu_name := "Kopi O";
     menu_price := {| Dec.coeff := 500; Dec.expo := -2 |};
     menu_image_url := None |}.

Definition teh : menu_row :=
  {| menu_id := 2; menu_name := "Teh Tarik";
     menu_price := {| Dec.coeff := 455; Dec.expo := -2 |};
     menu_image_url := Some "teh.png" |}.

(** A challenge for a@b.com that is pending and expires at 400. *)
Definition challenge : code_verify_row :=
  {| cv_id := 1; cv_identifier := "a@b.com"; cv_code := "1234"; cv_status := 0;
     cv_created_at := 100; cv_expires_at := Some 400; cv_used_at := None |}.

Definition shop : db :=
  {| code_verify := [challenge];
     customer := [];
     orders := [];
     menu := [ {| m_row := kopi; m_is_available := 1 |};
               {| m_row := teh; m_is_available := 0 |} ] |}.

Definition empty_shop : db :=
  {| code_verify := []; customer := []; orders := []; menu := menu shop |}.

Definition cfg : config :=
  {| frontend_base_url := "http://localhost:5173";
     shop_address := "2/36 Rossmore Ave, Punchbowl NSW 2196, Australia" |}.

(** A stand-in for the library: it serialises an order by the names of
    its lines and reads back the empty list only. *)
Definition py : pylib :=
  {| json_dumps := fun items => "[" ++ String.concat ", " (map item_name items) ++ "]";
     json_loads := fun s => if String.eqb s "[]" then Some (JList []) else None;
     float_of_str := fun _ => None;
     isoformat := fun t => str_nat t |}.

Definition no_fault : stmt -> option db_error := fun _ => None.

Definition duplicate : db_error :=
  {| err_integrity := true; err_no := 1062; err_msg := "1062 (23000): Duplicate entry" |}.

Definition lost : db_error :=
  {| err_integrity := false; err_no := 2013;
     err_msg := "2013: Lost connection to MySQL server during query" |}.

(** A quiet moment at time 200: nothing fails. *)
Definition calm : world :=
  {| now := 200;
     today := {| year := 2026; month := 3; day := 9 |};
     rand_otp := fun k => 4321 + Z.of_nat k;
     rand_ref := fun k => 77 + Z.of_nat k;
     db_fault := no_fault;
     commit_fault := None;
     smtp_fault := None |}.

Definition with_faults (f : stmt -> option db_error) (w : world) : world :=
  {| now := now w; today := today w; rand_otp := rand_otp w; rand_ref := rand_ref w;
     db_fault := f; commit_fault := commit_fault w; smtp_fault := smtp_fault w |}.

Definition with_smtp_fault (msg : string) (w : world) : world :=
  {| now := now w; today := today w; rand_otp := rand_otp w; rand_ref := rand_ref w;
     db_fault := db_fault w; commit_fault := commit_fault w; smtp_fault := Some msg |}.

Definition at_time (t : Z) (w : world) : world :=
  {| now := t; today := today w; rand_otp := rand_otp w; rand_ref := rand_ref w;
     db_fault := db_fault w; commit_fault := commit_fault w; smtp_fault := smtp_fault w |}.

Definition line (id qty : json) : json := JDict [("id", id); ("qty", qty)].

Definition order_of (code : string) (items : list json) : order_payload :=
  {| p_email := " A@B.com "; p_code := code; p_items := JList items;
     p_customerName := EmptyString; p_phoneNumber := EmptyString |}.

End Ex.

Unset Implicit Arguments.

(* ================================================================== *)
(** * Tracking status *)



(* ================================================================== *)
(** * Decimal arithmetic *)

Section DecimalFacts.

Import Dec.

Lemma eqb_eq (a b : decimal) : Dec.eqb a b = true -> a = b.
Proof.
  destruct a as [ca ea], b as [cb eb]. unfold Dec.eqb. simpl.
  intros H. apply andb_true_iff in H. destruct H as [Hc He].
  apply Z.eqb_eq in Hc. apply Z.eqb_eq in He. now subst.
Qed.

(** Where nothing is rounded away the context returns the exact result. *)
Lemma exact_fix (d : decimal) : exact d = true -> fix_ d = Some d.
Proof.
  unfold exact. destruct (fix_ d) as [d' |]; [| discriminate].
  intros H. apply eqb_eq in H. now subst.
Qed.

Lemma ten_nonzero : ~ (10 == 0)%Q.
Proof. discriminate. Qed.

Lemma value_shift (c e k : Z) :
  0 <= k ->
  (inject_Z (c * 10 ^ k) * 10 ^ e == inject_Z c * 10 ^ (e + k))%Q.
Proof.
  intros Hk. rewrite inject_Z_mult.
  rewrite (Qpower_plus 10 e k ten_nonzero).
  rewrite (Zpower_Qpower 10 k Hk).
  change (inject_Z 10) with 10%Q. ring.
Qed.

Lemma value_mul_int_exact (d : decimal) (n : Z) :
  (value (mul_int_exact d n) == value d * inject_Z n)%Q.
Proof.
  unfold value, mul_int_exact. simpl. rewrite inject_Z_mult. ring.
Qed.

Lemma value_add_exact (a b : decimal) :
  (value (add_exact a b) == value a + value b)%Q.
Proof.
  unfold value, add_exact. simpl.
  set (e := Z.min (expo a) (expo b)).
  assert (Ha : 0 <= expo a - e) by (subst e; lia).
  assert (Hb : 0 <= expo b - e) by (subst e; lia).
  rewrite inject_Z_plus, Qmult_plus_distr_l.
  rewrite (value_shift (coeff a) e _ Ha), (value_shift (coeff b) e _ Hb).
  replace (e + (expo a - e)) with (expo a) by lia.
  replace (e + (expo b - e)) with (expo b) by lia.
  reflexivity.
Qed.

End DecimalFacts.

(* ================================================================== *)
(** * The pricing resolver *)

(** A cart line that is valid against a catalog: its id and its quantity
    coerce to integers, the quantity is at least 1 and the id is in the
    catalog.  [resolved] keeps what the line resolves to. *)
Record resolved := { r_id : Z; r_row : menu_row; r_qty : Z }.

Definition resolves (menu : menu_map) (line : pydict) (r : resolved) : Prop :=
  py_int (raw_menu_id line) = IntOk (r_id r)
  /\ py_int (raw_qty line) = IntOk (r_qty r)
  /\ 1 <= r_qty r
  /\ map_find (r_id r) menu = Some (r_row r).

Definition valid_cart (menu : menu_map) (lines : list pydict) (rs : list resolved) : Prop :=
  Forall2 (resolves menu) lines rs.

(** The sum of unit price times quantity, as a number. *)
Definition exact_total (rs : list resolved) : Q :=
  fold_right (fun r acc => Dec.value (menu_price (r_row r)) * inject_Z (r_qty r) + acc)%Q
             0%Q rs.

(** No line total and no running total loses a digit in the decimal
    context: each is exact as computed. *)
Fixpoint no_rounding_from (total : Dec.decimal) (rs : list resolved) : bool :=
  match rs with
  | [] => true
  | r :: rs' =>
      let line_total := Dec.mul_int_exact (menu_price (r_row r)) (r_qty r) in
      let total' := Dec.add_exact total line_total in
      Dec.exact line_total && Dec.exact total' && no_rounding_from total' rs'
  end.

Definition no_rounding (rs : list resolved) : bool :=
  no_rounding_from Dec.zero_00 rs.

(** The line the resolver writes for a resolved cart line. *)
Definition priced (r : resolved) : order_item :=
  {| item_id := r_id r;
     item_name := menu_name (r_row r);
     item_qty := r_qty r;
     item_price := Float.of_decimal (menu_price (r_row r));
     item_line_total :=
       Float.of_decimal (Dec.mul_int_exact (menu_price (r_row r)) (r_qty r));
     item_image_url := menu_image_url (r_row r) |}.

Lemma build_order_line_exact (menu : menu_map) (line : pydict) (r : resolved)
    (total : Dec.decimal) :
  resolves menu line r ->
  Dec.exact (Dec.mul_int_exact (menu_price (r_row r)) (r_qty r)) = true ->
  Dec.exact (Dec.add_exact total
               (Dec.mul_int_exact (menu_price (r_row r)) (r_qty r))) = true ->
  build_order_line menu (JDict line) total
  = inl (priced r,
         Dec.add_exact total (Dec.mul_int_exact (menu_price (r_row r)) (r_qty r))).
Proof.
  intros (Hid & Hqty & Hpos & Hrow) Hmul Hadd.
  unfold build_order_line. simpl. rewrite Hid, Hqty.
  replace (r_qty r <? 1) with false by (symmetry; apply Z.ltb_ge; lia).
  rewrite Hrow. unfold Dec.mul_int. rewrite (exact_fix _ Hmul).
  unfold Dec.add. rewrite (exact_fix _ Hadd). reflexivity.
Qed.

(** The total as the exact operations give it, line after line. *)
Fixpoint exact_sum_from (total : Dec.decimal) (rs : list resolved) : Dec.decimal :=
  match rs with
  | [] => total
  | r :: rs' =>
      exact_sum_from
        (Dec.add_exact total (Dec.mul_int_exact (menu_price (r_row r)) (r_qty r))) rs'
  end.

Lemma value_exact_sum_from (rs : list resolved) :
  forall total,
    (Dec.value (exact_sum_from total rs) == Dec.value total + exact_total rs)%Q.
Proof.
  induction rs as [| r rs IH]; intros total; simpl.
  - ring.
  - rewrite IH, value_add_exact, value_mul_int_exact. ring.
Qed.

Lemma build_order_items_from_exact (menu : menu_map) (lines : list pydict)
    (rs : list resolved) :
  valid_cart menu lines rs ->
  forall items total,
    no_rounding_from total rs = true ->
    build_order_items_from menu (map JDict lines) items total
    = inl ((items ++ map priced rs)%list, exact_sum_from total rs).
Proof.
  induction 1 as [| line r lines rs Hline Hrest IH]; intros items total Hfit.
  - simpl. now rewrite app_nil_r.
  - simpl in Hfit. apply andb_true_iff in Hfit. destruct Hfit as [Hfit Hfit'].
    apply andb_true_iff in Hfit. destruct Hfit as [Hmul Hadd].
    simpl. rewrite (build_order_line_exact _ _ _ total Hline Hmul Hadd).
    rewrite (IH _ _ Hfit'). rewrite <- app_assoc. reflexivity.
Qed.

Lemma value_zero_00 : (Dec.value Dec.zero_00 == 0)%Q.
Proof. unfold Dec.value, Dec.zero_00. simpl. ring. Qed.

(** Where nothing is rounded, the resolver prices the whole cart and its
    total is the sum of price times quantity. *)
Lemma build_order_items_exact (menu : menu_map) (lines : list pydict)
    (rs : list resolved) :
  valid_cart menu lines rs ->
  no_rounding rs = true ->
  build_order_items menu (map JDict lines)
  = inl (map priced rs, exact_sum_from Dec.zero_00 rs)
  /\ (Dec.value (exact_sum_from Dec.zero_00 rs) == exact_total rs)%Q.
Proof.
  intros Hvalid Hfit. split.
  - exact (build_order_items_from_exact _ _ _ Hvalid [] Dec.zero_00 Hfit).
  - rewrite value_exact_sum_from, value_zero_00. ring.
Qed.

(* ================================================================== *)
(** * Transactions: what reaches the store *)

Lemma conn_eta (c : conn) :
  {| committed := committed c; working := working c; trace := trace c |} = c.
Proof. now destruct c. Qed.

(** A computation that never commits leaves the store as it was. *)
Definition keeps_store {A} (m : M A) : Prop :=
  forall c o c', m c = (o, c') -> committed c' = committed c.

(** A computation that changes the store only when it ends with a value. *)
Definition keeps_store_unless_val {A} (m : M A) : Prop :=
  forall c o c', m c = (o, c') -> (exists a, o = Val a) \/ committed c' = committed c.

Lemma keeps_ret {A} (a : A) : keeps_store (ret a).
Proof. intros c o c' H. inversion H. reflexivity. Qed.

Lemma keeps_raise {A} (e : exn) : keeps_store (@raise A e).
Proof. intros c o c' H. inversion H. reflexivity. Qed.

Lemma keeps_return {A} (r : response) : keeps_store (@return_ A r).
Proof. intros c o c' H. inversion H. reflexivity. Qed.

Lemma keeps_lift {A} (r : A + exn) : keeps_store (lift r).
Proof. destruct r; [apply keeps_ret | apply keeps_raise]. Qed.

Lemma keeps_rollback : keeps_store rollback.
Proof. intros c o c' H. inversion H. reflexivity. Qed.

Lemma keeps_bind {A B} (m : M A) (k : A -> M B) :
  keeps_store m -> (forall a, keeps_store (k a)) -> keeps_store (bind m k).
Proof.
  intros Hm Hk c o c' H. unfold bind in H.
  destruct (m c) as [[a | e | r] c1] eqn:Hmc.
  - rewrite (Hk a _ _ _ H). exact (Hm _ _ _ Hmc).
  - inversion H; subst. exact (Hm _ _ _ Hmc).
  - inversion H; subst. exact (Hm _ _ _ Hmc).
Qed.

Lemma keeps_bind_unless {A B} (m : M A) (k : A -> M B) :
  keeps_store m -> (forall a, keeps_store_unless_val (k a)) ->
  keeps_store_unless_val (bind m k).
Proof.
  intros Hm Hk c o c' H. unfold bind in H.
  destruct (m c) as [[a | e | r] c1] eqn:Hmc.
  - destruct (Hk a _ _ _ H) as [Hv | Hs]; [now left | right].
    rewrite Hs. exact (Hm _ _ _ Hmc).
  - inversion H; subst. right. exact (Hm _ _ _ Hmc).
  - inversion H; subst. right. exact (Hm _ _ _ Hmc).
Qed.

Lemma keeps_except_duplicate {A} (m retry : M A) :
  keeps_store m -> keeps_store retry -> keeps_store (except_duplicate m retry).
Proof.
  intros Hm Hr c o c' H. unfold except_duplicate in H.
  destruct (m c) as [[a | e | r] c1] eqn:Hmc.
  - inversion H; subst. exact (Hm _ _ _ Hmc).
  - destruct e; try (inversion H; subst; exact (Hm _ _ _ Hmc)).
    destruct (errno =? 1062).
    + rewrite (Hr _ _ _ H). exact (Hm _ _ _ Hmc).
    + inversion H; subst. exact (Hm _ _ _ Hmc).
  - inversion H; subst. exact (Hm _ _ _ Hmc).
Qed.

Lemma keeps_retry {B} (round : nat -> M B) (exhausted : M B) :
  (forall k, keeps_store (round k)) -> keeps_store exhausted ->
  forall left k, keeps_store (retry_on_duplicate round exhausted left k).
Proof.
  intros Hround Hex. induction left as [| left IH]; intros k; simpl.
  - exact Hex.
  - apply keeps_except_duplicate; [apply Hround | apply IH].
Qed.

Section StoreFacts.

Variable cfg : config.
Variable py : pylib.
Variable w : world.

Lemma keeps_execute {A} (s : stmt) (run : db -> A * db) :
  keeps_store (execute w s run).
Proof.
  intros c o c' H. unfold execute in H.
  destruct (db_fault w s).
  - inversion H. reflexivity.
  - simpl in H. destruct (run (working c)) as [a d]. inversion H. reflexivity.
Qed.

Lemma keeps_attempt {A B} (s : stmt) (run : db -> A * db) (post : A -> B) :
  keeps_store (attempt w s run post).
Proof.
  apply keeps_bind; [apply keeps_execute | intros a; apply keeps_ret].
Qed.

Lemma commit_unless_val {A} (a : A) :
  keeps_store_unless_val (bind (commit w) (fun _ => ret a)).
Proof.
  intros c o c' H. unfold bind, commit, ret in H.
  destruct (commit_fault w).
  - inversion H. now right.
  - inversion H. left. now exists a.
Qed.

Lemma keeps_collect_menu_ids (raw_items : list json) :
  forall ids, keeps_store (collect_menu_ids raw_items ids).
Proof.
  induction raw_items as [| item rest IH]; intros ids; simpl.
  - apply keeps_ret.
  - apply keeps_bind; [apply keeps_lift |]. intros line.
    destruct (py_int (raw_menu_id line)).
    + apply IH.
    + apply keeps_bind; [apply keeps_rollback | intros; apply keeps_return].
    + apply keeps_bind; [apply keeps_rollback | intros; apply keeps_return].
    + apply keeps_raise.
Qed.

Lemma keeps_verify_prepare (email code : string) (raw_items : list json)
    (customer_name phone_number : string) :
  keeps_store (verify_prepare cfg w email code raw_items customer_name phone_number).
Proof.
  unfold verify_prepare, update, query.
  apply keeps_bind; [apply keeps_execute | intros _].
  apply keeps_bind; [apply keeps_execute | intros code_row].
  destruct code_row as [code_row_id |].
  2: { apply keeps_bind; [apply keeps_rollback | intros; apply keeps_return]. }
  apply keeps_bind; [apply keeps_collect_menu_ids | intros menu_ids].
  apply keeps_bind; [apply keeps_execute | intros menu_rows].
  apply keeps_bind; [apply keeps_lift | intros [order_items order_total]].
  destruct order_items as [| item items].
  { apply keeps_bind; [apply keeps_rollback | intros; apply keeps_return]. }
  apply keeps_bind; [apply keeps_execute | intros customer].
  apply keeps_bind.
  { destruct customer; [apply keeps_ret | apply keeps_execute]. }
  intros customer_id.
  apply keeps_bind; [apply keeps_execute | intros _; apply keeps_ret].
Qed.

Lemma verify_place_unless_val (customer_name : string) (p : prepared) :
  keeps_store_unless_val (verify_place py w customer_name p).
Proof.
  unfold verify_place. apply keeps_bind_unless.
  - unfold insert_order_loop. apply keeps_retry.
    + intros k. apply keeps_attempt.
    + apply keeps_ret.
  - intros [[order_id ref_num] |].
    + destruct (order_id =? 0).
      * intros c o c' H. right. exact (keeps_raise _ _ _ _ H).
      * apply commit_unless_val.
    + intros c o c' H. right. exact (keeps_raise _ _ _ _ H).
Qed.

(** The verify-and-create transaction writes to the store only when it
    runs to its end. *)
Lemma verify_txn_unless_val (email code : string) (raw_items : list json)
    (customer_name phone_number : string) :
  keeps_store_unless_val
    (verify_txn cfg py w email code raw_items customer_name phone_number).
Proof.
  unfold verify_txn. apply keeps_bind_unless.
  - apply keeps_verify_prepare.
  - intros p. apply verify_place_unless_val.
Qed.

Lemma request_code_txn_unless_val (email : string) :
  keeps_store_unless_val (request_code_txn w email).
Proof.
  unfold request_code_txn, update.
  apply keeps_bind_unless; [apply keeps_execute | intros _].
  apply keeps_bind_unless.
  - unfold insert_code_loop. apply keeps_retry.
    + intros k. apply keeps_attempt.
    + apply keeps_raise.
  - intros code. apply commit_unless_val.
Qed.

(** Every answer of verify-and-create other than 200 leaves the store as
    the request found it. *)
Lemma verify_finish_keeps_store (email : string) (run : outcome created * conn)
    (d : db) :
  ((exists a, fst run = Val a) \/ committed (snd run) = d) ->
  status (resp (verify_finish cfg w email run)) <> 200 ->
  store (verify_finish cfg w email run) = d.
Proof.
  destruct run as [[o | exc | r] c]; simpl; intros [[a Ha] | Hkeep] Hstatus;
    try discriminate; try assumption.
  - destruct (send_html_email w); simpl in Hstatus; congruence.
  - destruct (send_html_email w); simpl in Hstatus; congruence.
Qed.

(** Every answer of verify-and-create other than 200 leaves the store as
    the request found it. *)
Lemma verify_failure_keeps_store (payload : order_payload) (d : db) :
  status (resp (verify_and_create_order cfg py w payload d)) <> 200 ->
  store (verify_and_create_order cfg py w payload d) = d.
Proof.
  unfold verify_and_create_order.
  destruct (PyStr.is_empty _ || negb (is_valid_email _)); [reflexivity |].
  destruct (PyStr.is_empty _ || negb (PyStr.isdigit _) || negb (_ =? 4));
    [reflexivity |].
  destruct (p_items payload) as [| | | | | [| first others] |]; try reflexivity.
  apply verify_finish_keeps_store.
  destruct (verify_txn _ _ _ _ _ _ _ _ _) as [o c] eqn:Hrun.
  exact (verify_txn_unless_val _ _ _ _ _ _ _ _ Hrun).
Qed.

End StoreFacts.

(* ================================================================== *)
(** * Verification of the code *)

(** A challenge that the lookup of verify-and-create accepts at time [now]:
    for this identifier, with this code, pending and not expired. *)
Definition live_challenge (now : Z) (email code : string) (r : code_verify_row) : Prop :=
  cv_identifier r = email /\ cv_code r = code /\ cv_status r = 0
  /\ exists e, cv_expires_at r = Some e /\ now < e.

Lemma code_matches_live (now : Z) (email code : string) (r : code_verify_row) :
  code_matches now email code r = true <-> live_challenge now email code r.
Proof.
  unfold code_matches, is_pending_for, live_challenge, sql_gt.
  rewrite !andb_true_iff, !String.eqb_eq, Z.eqb_eq.
  destruct (cv_expires_at r) as [e |].
  - rewrite Z.ltb_lt. split.
    + intros [[[Hi Hs] Hc] He]. repeat split; try assumption. now exists e.
    + intros (Hi & Hc & Hs & e' & He' & Hlt). inversion He'; subst. tauto.
  - split.
    + intros [_ H]. discriminate.
    + intros (_ & _ & _ & e' & He' & _). discriminate.
Qed.

Lemma newest_none (rows : list code_verify_row) :
  newest None rows = None -> rows = [].
Proof.
  destruct rows as [| r rows]; [reflexivity |]. simpl.
  assert (H : forall l b, newest (Some b) l <> None).
  { induction l as [| x l IH]; intros b; simpl; [discriminate |].
    destruct (cv_created_at b <? cv_created_at x); apply IH. }
  intros Hn. now apply H in Hn.
Qed.

Lemma select_code_none (now : Z) (email code : string) (d : db) :
  (forall r, In r (code_verify d) -> ~ live_challenge now email code r) ->
  sql_select_code now email code d = None.
Proof.
  intros Hno. unfold sql_select_code.
  replace (filter (code_matches now email code) (code_verify d)) with (@nil code_verify_row);
    [reflexivity |].
  symmetry. induction (code_verify d) as [| r rows IH]; [reflexivity |].
  simpl. destruct (code_matches now email code r) eqn:Hm.
  - apply code_matches_live in Hm. elim (Hno r); [now left | assumption].
  - apply IH. intros r' Hin. apply Hno. now right.
Qed.

Lemma select_code_some (now : Z) (email code : string) (d : db) (id : Z) :
  sql_select_code now email code d = Some id ->
  exists r, In r (code_verify d) /\ live_challenge now email code r /\ cv_id r = id.
Proof.
  unfold sql_select_code.
  assert (H : forall l b r, newest b l = Some r -> b = Some r \/ In r l).
  { induction l as [| x l IH]; intros b r; simpl; [now left |].
    destruct b as [b |].
    - destruct (cv_created_at b <? cv_created_at x); intros Hn; apply IH in Hn.
      + destruct Hn as [Hn | Hn]; [inversion Hn; subst; right; now left | right; now right].
      + destruct Hn as [Hn | Hn]; [now left | right; now right].
    - intros Hn. apply IH in Hn.
      destruct Hn as [Hn | Hn]; [inversion Hn; subst; right; now left | right; now right]. }
  destruct (newest None _) as [r |] eqn:Hn; [| discriminate].
  simpl. intros Hid. inversion Hid; subst.
  apply H in Hn. destruct Hn as [Hn | Hn]; [discriminate |].
  apply filter_In in Hn. destruct Hn as [Hin Hm].
  exists r. split; [assumption |]. split; [now apply code_matches_live | reflexivity].
Qed.

(** The body of a request that passes the format checks of
    verify-and-create: a valid email, a code of four digits, a non-empty
    list of items. *)
Definition well_formed (payload : order_payload) : Prop :=
  is_valid_email (normalize_email (p_email payload)) = true
  /\ PyStr.isdigit (PyStr.strip (p_code payload)) = true
  /\ PyStr.len (PyStr.strip (p_code payload)) = 4
  /\ exists first others, p_items payload = JList (first :: others).

Lemma valid_email_nonempty (s : string) :
  is_valid_email s = true -> PyStr.is_empty s = false.
Proof. destruct s; [discriminate | reflexivity]. Qed.

Lemma isdigit_nonempty (s : string) :
  PyStr.isdigit s = true -> PyStr.is_empty s = false.
Proof. destruct s; [discriminate | reflexivity]. Qed.

(** Past the format checks the handler is its transaction. *)
Lemma verify_well_formed (cfg : config) (py : pylib) (w : world)
    (payload : order_payload) (d : db) :
  well_formed payload ->
  exists raw_items customer_name,
    p_items payload = JList raw_items
    /\ verify_and_create_order cfg py w payload d
       = verify_finish cfg w (normalize_email (p_email payload))
           (verify_txn cfg py w (normalize_email (p_email payload))
              (PyStr.strip (p_code payload)) raw_items customer_name
              (PyStr.or_else (PyStr.strip (p_phoneNumber payload)) "N/A")
              (connect d)).
Proof.
  intros (Hemail & Hdigit & Hlen & first & others & Hitems).
  exists (first :: others).
  exists (if PyStr.is_empty (PyStr.strip (p_customerName payload))
          then default_customer_name (normalize_email (p_email payload))
          else PyStr.strip (p_customerName payload)).
  split; [assumption |].
  unfold verify_and_create_order.
  rewrite Hemail, (valid_email_nonempty _ Hemail).
  rewrite Hdigit, (isdigit_nonempty _ Hdigit), Hlen. simpl.
  rewrite Hitems. reflexivity.
Qed.

(** C1.  In verify-and-create, when at lookup time (after the sweep of
    expired challenges) no challenge row is pending, unexpired and matches
    the normalised email and the code, the request is answered
    400 "Verification code is invalid or expired." and the store is left as
    the request found it: apart from the sweep and the lookup, which are
    rolled back, no statement is executed (no customer insert, no order
    insert, no consumption of a code). *)
Theorem verify_rejects_unmatched_code (cfg : config) (py : pylib) (w : world)
    (payload : order_payload) (d : db) :
  let email := normalize_email (p_email payload) in
  let code := PyStr.strip (p_code payload) in
  well_formed payload ->
  db_fault w VC_expire = None ->
  db_fault w VC_select_code = None ->
  (forall r, In r (code_verify (sql_supersede_expired (now w) email d)) ->
             ~ live_challenge (now w) email code r) ->
  let r := verify_and_create_order cfg py w payload d in
  resp r = error 400 "Verification code is invalid or expired."
  /\ store r = d
  /\ events r = [EvExecute VC_expire; EvExecute VC_select_code; EvRollback].
Proof.
  intros email code Hwf Hf1 Hf2 Hnone r.
  destruct (verify_well_formed cfg py w payload d Hwf) as (raw_items & name & _ & Hrun).
  subst r. rewrite Hrun.
  unfold verify_txn, verify_prepare, bind, update, query, execute.
  rewrite Hf1. simpl. rewrite Hf2. simpl.
  fold email code. rewrite (select_code_none _ _ _ _ Hnone). simpl.
  repeat split; reflexivity.
Qed.

Lemma verify_rejects_unmatched_code_witness :
  let r := verify_and_create_order Ex.cfg Ex.py Ex.calm
             (Ex.order_of "9999" [Ex.line (JInt 1) (JInt 2)]) Ex.shop in
  resp r = error 400 "Verification code is invalid or expired."
  /\ store r = Ex.shop
  /\ events r = [EvExecute VC_expire; EvExecute VC_select_code; EvRollback].
Proof.
  apply (@verify_rejects_unmatched_code Ex.cfg Ex.py Ex.calm
           (Ex.order_of "9999" [Ex.line (JInt 1) (JInt 2)]) Ex.shop).
  - repeat split; try reflexivity. eexists. eexists. reflexivity.
  - reflexivity.
  - reflexivity.
  - intros r Hin. simpl in Hin. destruct Hin as [Hin | []]. subst r.
    intros (_ & Hcode & _). discriminate.
Defined.

(* ================================================================== *)
(** * The retry loops *)

(** The error on which a loop goes round again: an [IntegrityError] with
    [errno] 1062. *)
Definition is_duplicate (f : option db_error) : bool :=
  match f with
  | Some e => err_integrity e && (err_no e =? 1062)
  | None => false
  end.

(** The connection after more events. *)
Definition advance (evs : list event) (c : conn) : conn :=
  {| committed := committed c; working := working c; trace := (trace c ++ evs)%list |}.

Lemma advance_nil (c : conn) : advance [] c = c.
Proof. unfold advance. rewrite app_nil_r. apply conn_eta. Qed.

Lemma advance_advance (evs evs' : list event) (c : conn) :
  advance evs' (advance evs c) = advance (evs ++ evs') c.
Proof. unfold advance. simpl. now rewrite app_assoc. Qed.

Section RetryFacts.

Variable w : world.
Variables A B : Type.
Variable lbl : nat -> stmt.
Variable run : nat -> db -> A * db.
Variable post : nat -> A -> B.
Variable exhausted : M B.

Let round (k : nat) : M B := attempt w (lbl k) (run k) (post k).

(** The statements of rounds [k .. k+n-1]. *)
Definition attempts (k n : nat) : list event :=
  map (fun i => EvExecute (lbl i)) (seq k n).

Lemma attempts_S (k n : nat) :
  attempts k (S n) = (attempts k n ++ [EvExecute (lbl (k + n))])%list.
Proof. unfold attempts. rewrite seq_S, map_app. reflexivity. Qed.

Lemma round_duplicate (k : nat) (c : conn) (retry : M B) :
  is_duplicate (db_fault w (lbl k)) = true ->
  except_duplicate (round k) retry c = retry (advance [EvExecute (lbl k)] c).
Proof.
  unfold is_duplicate, except_duplicate, round, attempt, bind, execute.
  destruct (db_fault w (lbl k)) as [err |]; [| discriminate].
  intros H. apply andb_true_iff in H. destruct H as [Hint Hno].
  unfold db_exn. rewrite Hint, Hno. reflexivity.
Qed.

Lemma round_error (k : nat) (c : conn) (retry : M B) (err : db_error) :
  db_fault w (lbl k) = Some err ->
  is_duplicate (Some err) = false ->
  except_duplicate (round k) retry c
  = (Raise (db_exn err), advance [EvExecute (lbl k)] c).
Proof.
  unfold is_duplicate, except_duplicate, round, attempt, bind, execute.
  intros Hf Hd. rewrite Hf. unfold db_exn.
  destruct (err_integrity err); [| reflexivity].
  simpl in Hd. rewrite Hd. reflexivity.
Qed.

Lemma round_success (k : nat) (c : conn) (retry : M B) :
  db_fault w (lbl k) = None ->
  except_duplicate (round k) retry c
  = (Val (post k (fst (run k (working c)))),
     set_working (snd (run k (working c))) (advance [EvExecute (lbl k)] c)).
Proof.
  unfold except_duplicate, round, attempt, bind, execute, ret.
  intros Hf. rewrite Hf. simpl.
  destruct (run k (working c)) as [a d']. reflexivity.
Qed.

(** Rounds that meet a duplicate key only add their statement to the
    trace. *)
Lemma retry_skip (n : nat) :
  forall left k c,
    (forall i, (i < n)%nat -> is_duplicate (db_fault w (lbl (k + i))) = true) ->
    retry_on_duplicate round exhausted (n + left) k c
    = retry_on_duplicate round exhausted left (k + n) (advance (attempts k n) c).
Proof.
  induction n as [| n IH]; intros left k c Hdup.
  - simpl. rewrite Nat.add_0_r. unfold attempts. simpl.
    now rewrite advance_nil.
  - simpl. rewrite round_duplicate.
    2: { specialize (Hdup 0%nat). rewrite Nat.add_0_r in Hdup. apply Hdup. lia. }
    rewrite IH.
    2: { intros i Hi. specialize (Hdup (S i)).
         replace (S k + i)%nat with (k + S i)%nat by lia. apply Hdup. lia. }
    rewrite advance_advance.
    replace (S k + n)%nat with (k + S n)%nat by lia.
    reflexivity.
Qed.

Lemma retry_exhausted (n k : nat) (c : conn) :
  (forall i, (i < n)%nat -> is_duplicate (db_fault w (lbl (k + i))) = true) ->
  retry_on_duplicate round exhausted n k c = exhausted (advance (attempts k n) c).
Proof.
  intros Hdup. rewrite <- (Nat.add_0_r n) at 1.
  rewrite (retry_skip n 0 k c Hdup). reflexivity.
Qed.

Lemma retry_success (n left k : nat) (c : conn) :
  (forall i, (i < n)%nat -> is_duplicate (db_fault w (lbl (k + i))) = true) ->
  db_fault w (lbl (k + n)) = None ->
  retry_on_duplicate round exhausted (n + S left) k c
  = (Val (post (k + n) (fst (run (k + n) (working c)))),
     set_working (snd (run (k + n) (working c))) (advance (attempts k (S n)) c)).
Proof.
  intros Hdup Hok. rewrite (retry_skip n (S left) k c Hdup). simpl.
  rewrite round_success by assumption.
  rewrite advance_advance, <- attempts_S. reflexivity.
Qed.

Lemma retry_error (n left k : nat) (c : conn) (err : db_error) :
  (forall i, (i < n)%nat -> is_duplicate (db_fault w (lbl (k + i))) = true) ->
  db_fault w (lbl (k + n)) = Some err ->
  is_duplicate (Some err) = false ->
  retry_on_duplicate round exhausted (n + S left) k c
  = (Raise (db_exn err), advance (attempts k (S n)) c).
Proof.
  intros Hdup Hf Hd. rewrite (retry_skip n (S left) k c Hdup). simpl.
  rewrite (round_error _ _ _ _ Hf Hd).
  rewrite advance_advance, <- attempts_S. reflexivity.
Qed.

(** Either every one of the first [n] rounds meets a duplicate key, or
    there is a first round that does not. *)
Lemma first_other (n : nat) :
  (forall i, (i < n)%nat -> is_duplicate (db_fault w (lbl i)) = true)
  \/ exists m, (m < n)%nat
               /\ (forall i, (i < m)%nat -> is_duplicate (db_fault w (lbl i)) = true)
               /\ is_duplicate (db_fault w (lbl m)) = false.
Proof.
  induction n as [| n [IH | (m & Hm & Hbefore & Hat)]].
  - left. intros i Hi. lia.
  - destruct (is_duplicate (db_fault w (lbl n))) eqn:Hn.
    + left. intros i Hi. destruct (Nat.eq_dec i n); [now subst | apply IH; lia].
    + right. exists n. repeat split; [lia | assumption | assumption].
  - right. exists m. repeat split; [lia | assumption | assumption].
Qed.

End RetryFacts.

(* ================================================================== *)
(** * request-code: what a run leaves *)

Section RequestFacts.

Variable w : world.

(** The code drawn in round [k]. *)
Definition code_at (k : nat) : string := generate_otp_code (rand_otp w k).

(** The store once the challenge with [code] is issued for [email]:
    the pending challenges of [email] superseded, the new one appended. *)
Definition issued (email code : string) (d : db) : db :=
  sql_insert_code (now w) email code (sql_supersede_pending email d).

(** The events of a request-code transaction whose insert went through
    in round [n]. *)
Definition issue_events (n : nat) : list event :=
  (EvExecute RC_supersede :: attempts RC_insert 0 (S n) ++ [EvCommit])%list.

Let run_code (email : string) (k : nat) (d : db) : unit * db :=
  (tt, sql_insert_code (now w) email (code_at k) d).

Let post_code (k : nat) (_ : unit) : string := code_at k.

Let code_exhausted : M string :=
  raise (RuntimeError "Could not generate a unique verification code.").

Lemma insert_code_loop_eq (email : string) :
  insert_code_loop w email
  = retry_on_duplicate
      (fun k => attempt w (RC_insert k) (run_code email k) (post_code k))
      code_exhausted 8 0.
Proof. reflexivity. Qed.

(** The three ways the transaction of request-code can go once the
    superseding update has run: a round [n] goes through, a round [n]
    fails with another error, or all eight rounds meet a duplicate. *)
Lemma request_code_txn_success (email : string) (d : db) (n : nat) :
  (n < 8)%nat ->
  db_fault w RC_supersede = None ->
  (forall i, (i < n)%nat -> is_duplicate (db_fault w (RC_insert i)) = true) ->
  db_fault w (RC_insert n) = None ->
  commit_fault w = None ->
  request_code_txn w email (connect d)
  = (Val (code_at n),
     {| committed := issued email (code_at n) d;
        working := issued email (code_at n) d;
        trace := issue_events n |}).
Proof.
  intros Hn Hsup Hdup Hok Hcommit.
  unfold request_code_txn, bind, update, execute. rewrite Hsup. simpl.
  rewrite insert_code_loop_eq.
  replace 8%nat with (n + S (7 - n))%nat by lia.
  rewrite retry_success; [| exact Hdup | exact Hok].
  unfold commit. rewrite Hcommit. reflexivity.
Qed.

Lemma request_code_txn_commit_fault (email : string) (d : db) (n : nat)
    (err : db_error) :
  (n < 8)%nat ->
  db_fault w RC_supersede = None ->
  (forall i, (i < n)%nat -> is_duplicate (db_fault w (RC_insert i)) = true) ->
  db_fault w (RC_insert n) = None ->
  commit_fault w = Some err ->
  exists c,
    request_code_txn w email (connect d) = (Raise (db_exn err), c)
    /\ committed c = d
    /\ trace c = (EvExecute RC_supersede :: attempts RC_insert 0 (S n))%list.
Proof.
  intros Hn Hsup Hdup Hok Hcommit.
  unfold request_code_txn, bind, update, execute. rewrite Hsup. simpl.
  rewrite insert_code_loop_eq.
  replace 8%nat with (n + S (7 - n))%nat by lia.
  rewrite retry_success; [| exact Hdup | exact Hok].
  unfold commit. rewrite Hcommit.
  eexists. split; [reflexivity |]. split; reflexivity.
Qed.

Lemma request_code_txn_error (email : string) (d : db) (n : nat) (err : db_error) :
  (n < 8)%nat ->
  db_fault w RC_supersede = None ->
  (forall i, (i < n)%nat -> is_duplicate (db_fault w (RC_insert i)) = true) ->
  db_fault w (RC_insert n) = Some err ->
  is_duplicate (Some err) = false ->
  exists c,
    request_code_txn w email (connect d) = (Raise (db_exn err), c)
    /\ committed c = d
    /\ trace c = (EvExecute RC_supersede :: attempts RC_insert 0 (S n))%list.
Proof.
  intros Hn Hsup Hdup Hf Hother.
  unfold request_code_txn, bind, update, execute. rewrite Hsup. simpl.
  rewrite insert_code_loop_eq.
  replace 8%nat with (n + S (7 - n))%nat by lia.
  rewrite (retry_error _ _ _ _ _ _ _ _ _ _ _ err); [| exact Hdup | exact Hf | exact Hother].
  eexists. split; [reflexivity |]. split; reflexivity.
Qed.

Lemma request_code_txn_exhausted (email : string) (d : db) :
  db_fault w RC_supersede = None ->
  (forall i, (i < 8)%nat -> is_duplicate (db_fault w (RC_insert i)) = true) ->
  exists c,
    request_code_txn w email (connect d)
    = (Raise (RuntimeError "Could not generate a unique verification code."), c)
    /\ committed c = d
    /\ trace c = (EvExecute RC_supersede :: attempts RC_insert 0 8)%list.
Proof.
  intros Hsup Hdup.
  unfold request_code_txn, bind, update, execute. rewrite Hsup. simpl.
  rewrite insert_code_loop_eq.
  rewrite retry_exhausted; [| exact Hdup].
  eexists. split; [reflexivity |]. split; reflexivity.
Qed.

(** A transaction of request-code that ends with a code went the first
    way. *)
Lemma request_code_txn_val (email code : string) (d : db) (c : conn) :
  request_code_txn w email (connect d) = (Val code, c) ->
  exists n,
    (n < 8)%nat
    /\ db_fault w RC_supersede = None
    /\ (forall i, (i < n)%nat -> is_duplicate (db_fault w (RC_insert i)) = true)
    /\ db_fault w (RC_insert n) = None
    /\ commit_fault w = None
    /\ code = code_at n
    /\ c = {| committed := issued email code d;
              working := issued email code d;
              trace := issue_events n |}.
Proof.
  intros Hrun.
  destruct (db_fault w RC_supersede) as [err |] eqn:Hsup.
  { unfold request_code_txn, bind, update, execute in Hrun.
    rewrite Hsup in Hrun. discriminate. }
  destruct (first_other w RC_insert 8) as [Hall | (n & Hn & Hdup & Hat)].
  { destruct (request_code_txn_exhausted email d Hsup Hall) as (c' & Hrun' & _).
    congruence. }
  destruct (db_fault w (RC_insert n)) as [err |] eqn:Hf.
  { destruct (request_code_txn_error email d n err Hn Hsup Hdup Hf Hat)
      as (c' & Hrun' & _).
    congruence. }
  destruct (commit_fault w) as [err |] eqn:Hcommit.
  { destruct (request_code_txn_commit_fault email d n err Hn Hsup Hdup Hf Hcommit)
      as (c' & Hrun' & _).
    congruence. }
  rewrite (request_code_txn_success email d n Hn Hsup Hdup Hf Hcommit) in Hrun.
  inversion Hrun; subst.
  exists n. repeat split; assumption || reflexivity.
Qed.

Lemma request_well_formed (payload_email : string) (d : db) :
  is_valid_email (normalize_email payload_email) = true ->
  request_order_code w payload_email d
  = request_code_finish w (normalize_email payload_email)
      (request_code_txn w (normalize_email payload_email) (connect d)).
Proof.
  intros Hvalid. unfold request_order_code.
  rewrite Hvalid, (valid_email_nonempty _ Hvalid). reflexivity.
Qed.

(** An answer 200 of request-code: the transaction went through and the
    mail went out. *)
Lemma request_code_200 (payload_email : string) (d : db) :
  status (resp (request_order_code w payload_email d)) = 200 ->
  exists n,
    (n < 8)%nat
    /\ is_valid_email (normalize_email payload_email) = true
    /\ db_fault w RC_supersede = None
    /\ (forall i, (i < n)%nat -> is_duplicate (db_fault w (RC_insert i)) = true)
    /\ db_fault w (RC_insert n) = None
    /\ commit_fault w = None
    /\ smtp_fault w = None
    /\ store (request_order_code w payload_email d)
       = issued (normalize_email payload_email) (code_at n) d
    /\ events (request_order_code w payload_email d)
       = (issue_events n
            ++ [EvSendEmail (normalize_email payload_email) otp_subject
                  (otp_text (code_at n))])%list.
Proof.
  unfold request_order_code.
  destruct (is_valid_email (normalize_email payload_email)) eqn:Hvalid.
  2: { rewrite orb_true_r. simpl. discriminate. }
  rewrite (valid_email_nonempty _ Hvalid). simpl.
  destruct (request_code_txn w _ (connect d)) as [[code | exc | r] c] eqn:Hrun.
  - apply request_code_txn_val in Hrun.
    destruct Hrun as (n & Hn & Hsup & Hdup & Hok & Hcommit & Hcode & Hc).
    subst code c. simpl. unfold send_html_email.
    destruct (smtp_fault w) eqn:Hsmtp; simpl; [discriminate |].
    intros _. exists n. repeat split; assumption || reflexivity.
  - simpl. discriminate.
  - simpl. intros Hr.
    destruct (request_code_txn_unless_val w _ _ _ _ Hrun) as [[a Ha] | _];
      [discriminate |].
    exfalso. revert Hrun.
    unfold request_code_txn, bind, update, execute.
    destruct (db_fault w RC_supersede); [discriminate |]. simpl.
    rewrite insert_code_loop_eq.
    destruct (first_other w RC_insert 8) as [Hall | (n & Hn & Hdup & Hat)].
    + rewrite retry_exhausted; [discriminate | exact Hall].
    + replace 8%nat with (n + S (7 - n))%nat by lia.
      destruct (db_fault w (RC_insert n)) as [err |] eqn:Hf.
      * rewrite (retry_error _ _ _ _ _ _ _ _ _ _ _ err);
          [discriminate | exact Hdup | exact Hf | exact Hat].
      * rewrite retry_success; [| exact Hdup | exact Hf].
        unfold commit. destruct (commit_fault w); discriminate.
Qed.

End RequestFacts.

(* ================================================================== *)
(** * Pending challenges *)

Definition pending_for (email : string) (d : db) : list code_verify_row :=
  filter (is_pending_for email) (code_verify d).

(** At most one pending challenge per identifier. *)
Definition at_most_one_pending (d : db) : Prop :=
  forall ident, (List.length (pending_for ident d) <= 1)%nat.

(** The row a superseding update makes of a pending row. *)
Definition superseded (r : code_verify_row) : code_verify_row :=
  set_cv_status 2 (cv_used_at r) r.

(** The row request-code inserts. *)
Definition new_challenge (now : Z) (email code : string) (d : db) : code_verify_row :=
  {| cv_id := next_id (map cv_id (code_verify d));
     cv_identifier := email; cv_code := code; cv_status := 0;
     cv_created_at := now; cv_expires_at := None; cv_used_at := None |}.

Lemma is_pending_superseded (email ident : string) (r : code_verify_row) :
  is_pending_for ident (if is_pending_for email r then superseded r else r)
  = is_pending_for ident r && negb (is_pending_for email r).
Proof.
  destruct (is_pending_for email r) eqn:Hp.
  - unfold is_pending_for, superseded. simpl. now rewrite !andb_false_r.
  - now rewrite andb_true_r.
Qed.

Lemma pending_same_after_supersede (email : string) (rows : list code_verify_row) :
  filter (is_pending_for email)
         (map (fun r => if is_pending_for email r then superseded r else r) rows) = [].
Proof.
  induction rows as [| r rows IH]; [reflexivity |]. simpl.
  rewrite is_pending_superseded.
  destruct (is_pending_for email r); simpl; exact IH.
Qed.


Section IssuedFacts.

Variable w : world.

Lemma code_verify_issued (email code : string) (d : db) :
  code_verify (issued w email code d)
  = (map (fun r => if is_pending_for email r then superseded r else r) (code_verify d)
       ++ [new_challenge (now w) email code (sql_supersede_pending email d)])%list.
Proof. reflexivity. Qed.

(** After a code is issued for [email] its only pending challenge is the
    new one. *)
Lemma pending_issued_same (email code : string) (d : db) :
  pending_for email (issued w email code d)
  = [new_challenge (now w) email code (sql_supersede_pending email d)].
Proof.
  unfold pending_for. rewrite code_verify_issued, filter_app.
  rewrite pending_same_after_supersede. simpl.
  unfold is_pending_for. simpl. now rewrite String.eqb_refl.
Qed.




End IssuedFacts.

(** The expiry sweep of verify-and-create leaves the pending rows it keeps
    as they are. *)
Lemma pending_after_sweep (now : Z) (email : string) (d : db) (r : code_verify_row) :
  In r (code_verify (sql_supersede_expired now email d)) ->
  cv_status r = 0 ->
  In r (code_verify d).
Proof.
  unfold sql_supersede_expired. simpl. intros Hin Hst.
  apply in_map_iff in Hin. destruct Hin as (r0 & Hr & Hin).
  destruct (is_pending_for email r0 && sql_le (cv_expires_at r0) now).
  - subst r. simpl in Hst. discriminate.
  - now subst r.
Qed.

Section VerifyLookup.

Variable cfg : config.
Variable py : pylib.
Variable w : world.

(** An answer 200 of verify-and-create: the lookup found a challenge. *)
Lemma verify_200_code_found (payload : order_payload) (d : db) :
  status (resp (verify_and_create_order cfg py w payload d)) = 200 ->
  exists id,
    sql_select_code (now w) (normalize_email (p_email payload))
      (PyStr.strip (p_code payload))
      (sql_supersede_expired (now w) (normalize_email (p_email payload)) d)
    = Some id.
Proof.
  unfold verify_and_create_order.
  destruct (PyStr.is_empty _ || negb (is_valid_email _)); [discriminate |].
  destruct (PyStr.is_empty _ || negb (PyStr.isdigit _) || negb (_ =? 4));
    [discriminate |].
  destruct (p_items payload) as [| | | | | [| first others] |]; try discriminate.
  unfold verify_txn, verify_prepare, bind at 1 2 3, update, query, execute.
  destruct (db_fault w VC_expire); [simpl; destruct (is_ValueError _); discriminate |].
  simpl.
  destruct (db_fault w VC_select_code);
    [simpl; destruct (is_ValueError _); discriminate |].
  simpl.
  destruct (sql_select_code _ _ _ _) as [id |]; [| discriminate].
  intros _. now exists id.
Qed.

(** A code verifies only against a challenge that is in the store, pending
    for the email of the request, unexpired and with that code. *)
Lemma verify_200_live_challenge (payload : order_payload) (d : db) :
  status (resp (verify_and_create_order cfg py w payload d)) = 200 ->
  exists r,
    In r (code_verify d)
    /\ live_challenge (now w) (normalize_email (p_email payload))
         (PyStr.strip (p_code payload)) r.
Proof.
  intros H200. destruct (verify_200_code_found payload d H200) as [id Hsel].
  apply select_code_some in Hsel. destruct Hsel as (r & Hin & Hlive & _).
  exists r. split; [| assumption].
  apply (pending_after_sweep _ _ _ _ Hin). apply Hlive.
Qed.

End VerifyLookup.

Lemma commit_not_attempt (lbl : nat -> stmt) (k n : nat) :
  ~ In EvCommit (attempts lbl k n).
Proof.
  unfold attempts. intros H. apply in_map_iff in H.
  destruct H as (i & Hi & _). discriminate.
Qed.

Lemma commit_not_failed (s : stmt) (lbl : nat -> stmt) (k n : nat) :
  ~ In EvCommit ((EvExecute s :: attempts lbl k n) ++ [EvRollback])%list.
Proof.
  intros H. apply in_app_or in H. destruct H as [[H | H] | [H | []]];
    try discriminate.
  now apply commit_not_attempt in H.
Qed.

(** A request-code whose transaction committed: a round went through. *)
Lemma request_code_committed (w : world) (e : string) (d : db) :
  In EvCommit (events (request_order_code w e d)) ->
  exists n,
    (n < 8)%nat
    /\ is_valid_email (normalize_email e) = true
    /\ request_code_txn w (normalize_email e) (connect d)
       = (Val (code_at w n),
          {| committed := issued w (normalize_email e) (code_at w n) d;
             working := issued w (normalize_email e) (code_at w n) d;
             trace := issue_events n |}).
Proof.
  unfold request_order_code.
  destruct (is_valid_email (normalize_email e)) eqn:Hvalid.
  2: { rewrite orb_true_r. simpl. tauto. }
  rewrite (valid_email_nonempty _ Hvalid). simpl.
  destruct (db_fault w RC_supersede) as [err |] eqn:Hsup.
  { unfold request_code_txn, bind, update, execute. rewrite Hsup. simpl.
    intros [H | [H | []]]; discriminate. }
  destruct (first_other w RC_insert 8) as [Hall | (n & Hn & Hdup & Hat)].
  { destruct (request_code_txn_exhausted w (normalize_email e) d Hsup Hall)
      as (c & Hrun & _ & Htrace).
    rewrite Hrun. unfold request_code_finish, rollback, events, snd, log, trace at 1.
    unfold set_working, trace at 1. rewrite Htrace.
    intros H. now apply commit_not_failed in H. }
  destruct (db_fault w (RC_insert n)) as [err |] eqn:Hf.
  { destruct (request_code_txn_error w (normalize_email e) d n err Hn Hsup Hdup Hf Hat)
      as (c & Hrun & _ & Htrace).
    rewrite Hrun. unfold request_code_finish, rollback, events, snd, log, trace at 1.
    unfold set_working, trace at 1. rewrite Htrace.
    intros H. now apply commit_not_failed in H. }
  destruct (commit_fault w) as [err |] eqn:Hcommit.
  { destruct (request_code_txn_commit_fault w (normalize_email e) d n err
                Hn Hsup Hdup Hf Hcommit) as (c & Hrun & _ & Htrace).
    rewrite Hrun. unfold request_code_finish, rollback, events, snd, log, trace at 1.
    unfold set_working, trace at 1. rewrite Htrace.
    intros H. now apply commit_not_failed in H. }
  intros _. exists n. split; [assumption |]. split; [reflexivity |].
  exact (request_code_txn_success w (normalize_email e) d n Hn Hsup Hdup Hf Hcommit).
Qed.

(** Against a store in which every pending challenge of [email] has no
    expiry, or a code other than the one sent, verify-and-create does not
    answer 200 and writes nothing. *)
Lemma verify_needs_live_challenge (cfg : config) (py : pylib) (w : world)
    (payload : order_payload) (d : db) :
  (forall r, In r (pending_for (normalize_email (p_email payload)) d) ->
             cv_expires_at r = None \/ cv_code r <> PyStr.strip (p_code payload)) ->
  status (resp (verify_and_create_order cfg py w payload d)) <> 200
  /\ store (verify_and_create_order cfg py w payload d) = d.
Proof.
  intros Hdead.
  assert (Hno : status (resp (verify_and_create_order cfg py w payload d)) <> 200).
  { intros H200. apply verify_200_live_challenge in H200.
    destruct H200 as (r & Hin & Hid & Hcode & Hst & e & Hexp & _).
    destruct (Hdead r) as [Hnull | Hother].
    - unfold pending_for. apply filter_In. split; [assumption |].
      unfold is_pending_for. rewrite Hid, Hst, String.eqb_refl. reflexivity.
    - congruence.
    - congruence. }
  split; [assumption | now apply verify_failure_keeps_store].
Qed.




(** C4 (the code departs from the claim).  A request-code that succeeds at
    time [now w] leaves one pending challenge for the email, with the code
    it mailed; the expiry the statement writes is [NULL], not
    [now w + 300].  As no comparison with [NULL] is true, no later
    verify-and-create for that email is answered 200, whatever the code and
    the time, also before [now w + 300]. *)
Theorem issued_challenge_has_no_expiry (w : world) (e : string) (d : db) :
  let email := normalize_email e in
  let r := request_order_code w e d in
  status (resp r) = 200 ->
  exists code new,
    In (EvSendEmail email otp_subject (otp_text code)) (events r)
    /\ pending_for email (store r) = [new]
    /\ cv_code new = code
    /\ cv_created_at new = now w
    /\ cv_expires_at new = None
    /\ cv_expires_at new <> Some (now w + 300)
    /\ (forall cfg py w' payload,
           normalize_email (p_email payload) = email ->
           PyStr.strip (p_code payload) = code ->
           now w <= now w' < now w + 300 ->
           let r' := verify_and_create_order cfg py w' payload (store r) in
           status (resp r') <> 200 /\ store r' = store r).
Proof.
  intros email r H200.
  destruct (request_code_200 w e d H200)
    as (n & _ & _ & _ & _ & _ & _ & _ & Hstore & Hev).
  fold r email in Hstore, Hev.
  exists (code_at w n),
    (new_challenge (now w) email (code_at w n) (sql_supersede_pending email d)).
  split. { rewrite Hev. apply in_or_app. right. now left. }
  split. { rewrite Hstore. apply pending_issued_same. }
  repeat (split; [reflexivity || discriminate |]).
  intros cfg py w' payload Hemail _ _ r'.
  apply verify_needs_live_challenge.
  rewrite Hemail, Hstore, pending_issued_same.
  intros x [Hx | []]. subst x. now left.
Qed.

Lemma issued_challenge_has_no_expiry_witness :
  let r := request_order_code Ex.calm "a@b.com" Ex.empty_shop in
  status (resp r) = 200
  /\ code_verify (store r)
     = [{| cv_id := 1; cv_identifier := "a@b.com"; cv_code := "4321"; cv_status := 0;
           cv_created_at := 200; cv_expires_at := None; cv_used_at := None |}]
  /\ resp (verify_and_create_order Ex.cfg Ex.py (Ex.at_time 201 Ex.calm)
             (Ex.order_of "4321" [Ex.line (JInt 1) (JInt 2)]) (store r))
     = error 400 "Verification code is invalid or expired."
  /\ exists code new,
      In (EvSendEmail "a@b.com" otp_subject (otp_text code)) (events r)
      /\ pending_for "a@b.com" (store r) = [new]
      /\ cv_code new = code
      /\ cv_created_at new = 200
      /\ cv_expires_at new = None
      /\ cv_expires_at new <> Some (200 + 300)
      /\ (forall cfg py w' payload,
             normalize_email (p_email payload) = "a@b.com" ->
             PyStr.strip (p_code payload) = code ->
             200 <= now w' < 200 + 300 ->
             let r' := verify_and_create_order cfg py w' payload (store r) in
             status (resp r') <> 200 /\ store r' = store r).
Proof.
  intros r.
  split; [reflexivity |]. split; [reflexivity |]. split; [reflexivity |].
  apply (issued_challenge_has_no_expiry Ex.calm "a@b.com" Ex.empty_shop).
  reflexivity.
Defined.

(** C9 (the code departs from the claim in its last part).  When the
    transaction of request-code commits and the mail then fails, the answer
    is 500 "Failed to send verification email.", the commit comes before the
    attempt to send and is not undone, and the new challenge is in the
    store, pending.  Its expiry is [NULL], though: no later
    verify-and-create can consume the code. *)
Theorem request_code_mail_failure (w : world) (e msg : string) (d : db) :
  let email := normalize_email e in
  let r := request_order_code w e d in
  In EvCommit (events r) ->
  smtp_fault w = Some msg ->
  exists code new before,
    resp r = error_details 500 "Failed to send verification email." msg
    /\ events r = (before ++ [EvCommit; EvSendEmail email otp_subject (otp_text code)])%list
    /\ store r = issued w email code d
    /\ pending_for email (store r) = [new]
    /\ cv_code new = code
    /\ cv_expires_at new = None
    /\ (forall cfg py w' payload,
           normalize_email (p_email payload) = email ->
           PyStr.strip (p_code payload) = code ->
           let r' := verify_and_create_order cfg py w' payload (store r) in
           status (resp r') <> 200 /\ store r' = store r).
Proof.
  intros email r Hcommit Hsmtp.
  destruct (request_code_committed w e d Hcommit) as (n & _ & Hvalid & Hrun).
  fold email in Hvalid, Hrun.
  assert (Hr : r = request_code_finish w email
                     (Val (code_at w n),
                      {| committed := issued w email (code_at w n) d;
                         working := issued w email (code_at w n) d;
                         trace := issue_events n |})).
  { subst r. rewrite (request_well_formed w e d Hvalid). fold email.
    now rewrite Hrun. }
  unfold request_code_finish, send_html_email in Hr. rewrite Hsmtp in Hr.
  simpl in Hr.
  exists (code_at w n),
    (new_challenge (now w) email (code_at w n) (sql_supersede_pending email d)),
    (EvExecute RC_supersede :: attempts RC_insert 0 (S n)).
  rewrite Hr. simpl.
  split; [reflexivity |].
  split. { unfold issue_events. rewrite <- app_assoc. reflexivity. }
  split; [reflexivity |].
  split. { apply pending_issued_same. }
  split; [reflexivity |]. split; [reflexivity |].
  intros cfg py w' payload Hemail _.
  apply verify_needs_live_challenge.
  rewrite Hemail, pending_issued_same.
  intros x [Hx | []]. subst x. now left.
Qed.

Lemma request_code_mail_failure_witness :
  let w := Ex.with_smtp_fault "Connection refused" Ex.calm in
  let r := request_order_code w "a@b.com" Ex.empty_shop in
  In EvCommit (events r)
  /\ status (resp (verify_and_create_order Ex.cfg Ex.py (Ex.at_time 201 Ex.calm)
                     (Ex.order_of "4321" [Ex.line (JInt 1) (JInt 2)]) (store r)))
     = 400
  /\ exists code new before,
      resp r = error_details 500 "Failed to send verification email." "Connection refused"
      /\ events r
         = (before ++ [EvCommit; EvSendEmail "a@b.com" otp_subject (otp_text code)])%list
      /\ store r = issued w "a@b.com" code Ex.empty_shop
      /\ pending_for "a@b.com" (store r) = [new]
      /\ cv_code new = code
      /\ cv_expires_at new = None
      /\ (forall cfg py w' payload,
             normalize_email (p_email payload) = "a@b.com" ->
             PyStr.strip (p_code payload) = code ->
             let r' := verify_and_create_order cfg py w' payload (store r) in
             status (resp r') <> 200 /\ store r' = store r).
Proof.
  intros w r.
  split. { vm_compute. tauto. }
  split; [reflexivity |].
  apply (request_code_mail_failure w "a@b.com" "Connection refused" Ex.empty_shop).
  - vm_compute. tauto.
  - reflexivity.
Defined.

(* ================================================================== *)
(** * verify-and-create: what a run leaves *)

Lemma bind_val {A B} (m : M A) (k : A -> M B) (c c' : conn) (b : B) :
  bind m k c = (Val b, c') ->
  exists a c1, m c = (Val a, c1) /\ k a c1 = (Val b, c').
Proof.
  unfold bind. destruct (m c) as [[a | e | r] c1]; try discriminate.
  intros H. now exists a, c1.
Qed.

Lemma execute_val (w : world) {A} (s : stmt) (run : db -> A * db) (c c' : conn) (a : A) :
  execute w s run c = (Val a, c') ->
  db_fault w s = None
  /\ a = fst (run (working c))
  /\ c' = set_working (snd (run (working c))) (advance [EvExecute s] c).
Proof.
  unfold execute. destruct (db_fault w s); [discriminate |].
  simpl. destruct (run (working c)) as [a' d']. intros H. inversion H; subst.
  repeat split.
Qed.

Lemma lift_val {A} (r : A + exn) (c c' : conn) (a : A) :
  lift r c = (Val a, c') -> r = inl a /\ c' = c.
Proof.
  destruct r as [a' | e]; unfold lift, ret, raise; intros H; inversion H.
  now split.
Qed.

(** The ids of the lines of a cart, as the first loop of verify-and-create
    collects them. *)
Definition line_id (item : json) (id : Z) : Prop :=
  exists line, item = JDict line /\ py_int (raw_menu_id line) = IntOk id.

Lemma collect_menu_ids_val (raw_items : list json) :
  forall acc c ids c',
    collect_menu_ids raw_items acc c = (Val ids, c') ->
    c' = c /\ exists new, ids = (acc ++ new)%list /\ Forall2 line_id raw_items new.
Proof.
  induction raw_items as [| item rest IH]; intros acc c ids c' H; simpl in H.
  - inversion H; subst. split; [reflexivity |]. exists []. rewrite app_nil_r.
    split; [reflexivity | constructor].
  - apply bind_val in H. destruct H as (line & c1 & Hline & H).
    apply lift_val in Hline. destruct Hline as [Hline ->].
    destruct item; try discriminate. simpl in Hline. inversion Hline; subst.
    destruct (py_int (raw_menu_id line)) as [n | | |] eqn:Hid; try discriminate.
    apply IH in H. destruct H as [-> (new & -> & Hnew)].
    split; [reflexivity |]. exists (n :: new). rewrite <- app_assoc. split; [reflexivity |].
    constructor; [| assumption]. now exists line.
Qed.

(** The whole of the available menu, and the part of it the transaction
    reads for the ids of a cart. *)
Definition catalog (d : db) : menu_map :=
  map (fun row => (menu_id row, row))
      (map m_row (filter (fun r => m_is_available r =? 1) (menu d))).

Definition snapshot (ids : list Z) (d : db) : menu_map :=
  map (fun row => (menu_id row, row)) (sql_select_menu ids d).

Lemma snapshot_find (ids : list Z) (d : db) (id : Z) :
  In id ids -> map_find id (snapshot ids d) = map_find id (catalog d).
Proof.
  intros Hin. unfold snapshot, catalog, sql_select_menu.
  induction (menu d) as [| r rows IH]; [reflexivity |]. simpl.
  destruct (m_is_available r =? 1); simpl.
  - destruct (existsb (Z.eqb (menu_id (m_row r))) ids) eqn:Hex; simpl.
    + now rewrite IH.
    + rewrite IH.
      match goal with |- ?x = match ?x with _ => _ end => destruct x end;
        [reflexivity |].
      destruct (Z.eqb_spec id (menu_id (m_row r))) as [-> | Hne]; [| reflexivity].
      assert (Ht : existsb (Z.eqb (menu_id (m_row r))) ids = true).
      { apply existsb_exists. exists (menu_id (m_row r)). split; [assumption |].
        apply Z.eqb_refl. }
      congruence.
  - rewrite andb_false_r. simpl. exact IH.
Qed.

Definition is_insert_round (ev : event) : bool :=
  match ev with
  | EvExecute (RC_insert _) => true
  | EvExecute (VC_insert_order _) => true
  | _ => false
  end.

(** The statement of an event was executed without error. *)
Definition went_through (w : world) (ev : event) : Prop :=
  match ev with
  | EvExecute s => db_fault w s = None
  | _ => True
  end.

(** A computation outside the retry loops: it runs no round of a loop, and
    when it ends with a value every statement it ran went through. *)
Definition quiet (w : world) {A} (m : M A) : Prop :=
  forall c o c',
    m c = (o, c') ->
    exists evs,
      trace c' = (trace c ++ evs)%list
      /\ Forall (fun ev => is_insert_round ev = false) evs
      /\ ((exists a, o = Val a) -> Forall (went_through w) evs).

Section QuietFacts.

Variable cfg : config.
Variable w : world.

Lemma quiet_nothing {A} (m : M A) :
  (forall c, exists o, m c = (o, c)) -> quiet w m.
Proof.
  intros Hm c o c' H. destruct (Hm c) as [o' Ho]. rewrite Ho in H.
  inversion H; subst. exists []. rewrite app_nil_r.
  repeat split; constructor.
Qed.

Lemma quiet_ret {A} (a : A) : quiet w (ret a).
Proof. apply quiet_nothing. intros c. now exists (Val a). Qed.

Lemma quiet_raise {A} (e : exn) : quiet w (@raise A e).
Proof. apply quiet_nothing. intros c. now exists (Raise e). Qed.

Lemma quiet_return {A} (r : response) : quiet w (@return_ A r).
Proof. apply quiet_nothing. intros c. now exists (Return r). Qed.

Lemma quiet_lift {A} (r : A + exn) : quiet w (lift r).
Proof. destruct r; [apply quiet_ret | apply quiet_raise]. Qed.

Lemma quiet_rollback : quiet w rollback.
Proof.
  intros c o c' H. inversion H; subst. exists [EvRollback]. simpl.
  repeat split; repeat constructor.
Qed.

Lemma quiet_execute {A} (s : stmt) (run : db -> A * db) :
  is_insert_round (EvExecute s) = false -> quiet w (execute w s run).
Proof.
  intros Hs c o c' H. exists [EvExecute s]. unfold execute in H.
  destruct (db_fault w s) as [err |] eqn:Hf.
  - inversion H; subst. simpl. repeat split; [now constructor |].
    intros [a Ha]. discriminate.
  - simpl in H. destruct (run (working c)) as [a d']. inversion H; subst. simpl.
    repeat split; [now constructor |]. intros _. now constructor.
Qed.

Lemma quiet_bind {A B} (m : M A) (k : A -> M B) :
  quiet w m -> (forall a, quiet w (k a)) -> quiet w (bind m k).
Proof.
  intros Hm Hk c o c' H. unfold bind in H.
  destruct (m c) as [[a | e | r] c1] eqn:Hmc;
    destruct (Hm _ _ _ Hmc) as (evs & Htr & Hno & Hval).
  - destruct (Hk a _ _ _ H) as (evs' & Htr' & Hno' & Hval').
    exists (evs ++ evs')%list. rewrite Htr', Htr, app_assoc.
    split; [reflexivity |]. split; [now apply Forall_app |].
    intros Ho. apply Forall_app. split; [apply Hval; now exists a | now apply Hval'].
  - inversion H; subst. exists evs. repeat split; try assumption.
    intros [a Ha]. discriminate.
  - inversion H; subst. exists evs. repeat split; try assumption.
    intros [a Ha]. discriminate.
Qed.

Lemma quiet_collect_menu_ids (raw_items : list json) :
  forall ids, quiet w (collect_menu_ids raw_items ids).
Proof.
  induction raw_items as [| item rest IH]; intros ids; simpl.
  - apply quiet_ret.
  - apply quiet_bind; [apply quiet_lift |]. intros line.
    destruct (py_int (raw_menu_id line)).
    + apply IH.
    + apply quiet_bind; [apply quiet_rollback | intros; apply quiet_return].
    + apply quiet_bind; [apply quiet_rollback | intros; apply quiet_return].
    + apply quiet_raise.
Qed.

Lemma quiet_verify_prepare (email code : string) (raw_items : list json)
    (customer_name phone_number : string) :
  quiet w (verify_prepare cfg w email code raw_items customer_name phone_number).
Proof.
  unfold verify_prepare, update, query.
  apply quiet_bind; [now apply quiet_execute | intros _].
  apply quiet_bind; [now apply quiet_execute | intros code_row].
  destruct code_row as [code_row_id |].
  2: { apply quiet_bind; [apply quiet_rollback | intros; apply quiet_return]. }
  apply quiet_bind; [apply quiet_collect_menu_ids | intros menu_ids].
  apply quiet_bind; [now apply quiet_execute | intros menu_rows].
  apply quiet_bind; [apply quiet_lift | intros [order_items order_total]].
  destruct order_items as [| item items].
  { apply quiet_bind; [apply quiet_rollback | intros; apply quiet_return]. }
  apply quiet_bind; [now apply quiet_execute | intros customer].
  apply quiet_bind.
  { destruct customer; [apply quiet_ret | now apply quiet_execute]. }
  intros customer_id.
  apply quiet_bind; [now apply quiet_execute | intros _; apply quiet_ret].
Qed.

End QuietFacts.

Section VerifyFacts.

Variable cfg : config.
Variable py : pylib.
Variable w : world.

(** A preparation that comes to its end has priced the cart against the
    menu rows of its ids and written no order. *)
Lemma verify_prepare_val (email code : string) (raw_items : list json)
    (customer_name phone_number : string) (d : db) (p : prepared) (c : conn) :
  verify_prepare cfg w email code raw_items customer_name phone_number (connect d)
  = (Val p, c) ->
  exists ids,
    Forall2 line_id raw_items ids
    /\ build_order_items (snapshot ids d) raw_items = inl (pr_items p, pr_total p)
    /\ committed c = d
    /\ orders (working c) = orders d
    /\ menu (working c) = menu d.
Proof.
  unfold verify_prepare, update, query. intros H.
  apply bind_val in H. destruct H as (u & c1 & H1 & H).
  apply execute_val in H1. destruct H1 as (_ & _ & ->).
  apply bind_val in H. destruct H as (code_row & c2 & H2 & H).
  apply execute_val in H2. destruct H2 as (_ & _ & ->).
  destruct code_row as [code_row_id |]; [| discriminate].
  apply bind_val in H. destruct H as (ids & c3 & H3 & H).
  apply collect_menu_ids_val in H3. destruct H3 as [-> (new & -> & Hids)].
  apply bind_val in H. destruct H as (menu_rows & c4 & H4 & H).
  apply execute_val in H4. destruct H4 as (_ & -> & ->).
  apply bind_val in H. destruct H as ([order_items order_total] & c5 & H5 & H).
  apply lift_val in H5. destruct H5 as [Hbuild ->].
  exists new. split; [assumption |]. split.
  - destruct order_items as [| item items]; [discriminate |].
    apply bind_val in H. destruct H as (customer & c6 & H6 & H).
    apply bind_val in H. destruct H as (customer_id & c7 & H7 & H).
    apply bind_val in H. destruct H as (u' & c8 & H8 & H).
    inversion H; subst. exact Hbuild.
  - destruct order_items as [| item items]; [discriminate |].
    apply bind_val in H. destruct H as (customer & c6 & H6 & H).
    apply execute_val in H6. destruct H6 as (_ & _ & ->).
    apply bind_val in H. destruct H as (customer_id & c7 & H7 & H).
    apply bind_val in H. destruct H as (u' & c8 & H8 & H).
    apply execute_val in H8. destruct H8 as (_ & _ & ->).
    inversion H; subst. clear H.
    destruct customer as [id |].
    + inversion H7; subst. repeat split.
    + apply execute_val in H7. destruct H7 as (_ & _ & ->). repeat split.
Qed.

(** The reference drawn in round [k]. *)
Definition ref_at (k : nat) : string := generate_ref_num (today w) (rand_ref w k).

(** The order insert of round [k], for what the preparation worked out. *)
Definition order_insert (customer_name : string) (p : prepared) (k : nat) (d : db)
    : Z * db :=
  sql_insert_order (now w) (ref_at k) (PyStr.take 100 customer_name)
                   (pr_customer_id p) (pr_total p) (json_dumps py (pr_items p)) d.

Let post_order (k : nat) (order_id : Z) : option (Z * string) :=
  Some (order_id, ref_at k).

Lemma insert_order_loop_eq (customer_name : string) (p : prepared) :
  insert_order_loop w customer_name (pr_customer_id p) (pr_total p)
                    (json_dumps py (pr_items p))
  = retry_on_duplicate
      (fun k => attempt w (VC_insert_order k) (order_insert customer_name p k)
                        (post_order k))
      (ret None) 8 0.
Proof. reflexivity. Qed.

Lemma next_id_nonzero (ids : list Z) : (next_id ids =? 0) = false.
Proof.
  apply Z.eqb_neq. unfold next_id.
  assert (H : 0 <= fold_right Z.max 0 ids).
  { induction ids as [| i ids IH]; simpl; lia. }
  lia.
Qed.

Lemma order_insert_id_nonzero (customer_name : string) (p : prepared) (k : nat)
    (d : db) :
  (fst (order_insert customer_name p k d) =? 0) = false.
Proof. apply next_id_nonzero. Qed.

(** The store and the connection once the order of round [n] is in. *)
Definition placed (customer_name : string) (p : prepared) (n : nat) (c : conn) : conn :=
  {| committed := snd (order_insert customer_name p n (working c));
     working := snd (order_insert customer_name p n (working c));
     trace := (trace c ++ attempts VC_insert_order 0 (S n) ++ [EvCommit])%list |}.

Definition created_at (customer_name : string) (p : prepared) (n : nat) (c : conn)
    : created :=
  {| new_order_id := fst (order_insert customer_name p n (working c));
     new_ref_num := ref_at n;
     new_items := pr_items p;
     new_total := pr_total p |}.

Lemma verify_place_success (customer_name : string) (p : prepared) (c : conn) (n : nat) :
  (n < 8)%nat ->
  (forall i, (i < n)%nat -> is_duplicate (db_fault w (VC_insert_order i)) = true) ->
  db_fault w (VC_insert_order n) = None ->
  commit_fault w = None ->
  verify_place py w customer_name p c
  = (Val (created_at customer_name p n c), placed customer_name p n c).
Proof.
  intros Hn Hdup Hok Hcommit.
  unfold verify_place, bind. rewrite insert_order_loop_eq.
  replace 8%nat with (n + S (7 - n))%nat by lia.
  rewrite retry_success; [| exact Hdup | exact Hok].
  unfold post_order. cbv beta iota. rewrite Nat.add_0_l.
  rewrite order_insert_id_nonzero.
  unfold commit. rewrite Hcommit.
  unfold ret, placed, created_at, log, set_working, advance.
  cbn [committed working trace]. rewrite <- app_assoc. reflexivity.
Qed.

Lemma verify_place_commit_fault (customer_name : string) (p : prepared) (c : conn)
    (n : nat) (err : db_error) :
  (n < 8)%nat ->
  (forall i, (i < n)%nat -> is_duplicate (db_fault w (VC_insert_order i)) = true) ->
  db_fault w (VC_insert_order n) = None ->
  commit_fault w = Some err ->
  exists c',
    verify_place py w customer_name p c = (Raise (db_exn err), c')
    /\ committed c' = committed c
    /\ trace c' = (trace c ++ attempts VC_insert_order 0 (S n))%list.
Proof.
  intros Hn Hdup Hok Hcommit.
  unfold verify_place, bind. rewrite insert_order_loop_eq.
  replace 8%nat with (n + S (7 - n))%nat by lia.
  rewrite retry_success; [| exact Hdup | exact Hok].
  unfold post_order. cbv beta iota. rewrite Nat.add_0_l.
  rewrite order_insert_id_nonzero.
  unfold commit. rewrite Hcommit.
  eexists. split; [reflexivity |]. split; reflexivity.
Qed.

Lemma verify_place_error (customer_name : string) (p : prepared) (c : conn)
    (n : nat) (err : db_error) :
  (n < 8)%nat ->
  (forall i, (i < n)%nat -> is_duplicate (db_fault w (VC_insert_order i)) = true) ->
  db_fault w (VC_insert_order n) = Some err ->
  is_duplicate (Some err) = false ->
  verify_place py w customer_name p c
  = (Raise (db_exn err), advance (attempts VC_insert_order 0 (S n)) c).
Proof.
  intros Hn Hdup Hf Hother.
  unfold verify_place, bind. rewrite insert_order_loop_eq.
  replace 8%nat with (n + S (7 - n))%nat by lia.
  rewrite (retry_error _ _ _ _ _ _ _ _ _ _ _ err); [| exact Hdup | exact Hf | exact Hother].
  reflexivity.
Qed.

Lemma verify_place_exhausted (customer_name : string) (p : prepared) (c : conn) :
  (forall i, (i < 8)%nat -> is_duplicate (db_fault w (VC_insert_order i)) = true) ->
  verify_place py w customer_name p c
  = (Raise (RuntimeError "Could not create order reference number."),
     advance (attempts VC_insert_order 0 8) c).
Proof.
  intros Hdup.
  unfold verify_place, bind. rewrite insert_order_loop_eq.
  rewrite retry_exhausted; [| exact Hdup].
  reflexivity.
Qed.

(** An order insert that ends with a value went the first way. *)
Lemma verify_place_val (customer_name : string) (p : prepared) (c c' : conn)
    (o : created) :
  verify_place py w customer_name p c = (Val o, c') ->
  exists n,
    (n < 8)%nat
    /\ (forall i, (i < n)%nat -> is_duplicate (db_fault w (VC_insert_order i)) = true)
    /\ db_fault w (VC_insert_order n) = None
    /\ commit_fault w = None
    /\ o = created_at customer_name p n c
    /\ c' = placed customer_name p n c.
Proof.
  intros Hrun.
  destruct (first_other w VC_insert_order 8) as [Hall | (n & Hn & Hdup & Hat)].
  { rewrite (verify_place_exhausted customer_name p c Hall) in Hrun. discriminate. }
  destruct (db_fault w (VC_insert_order n)) as [err |] eqn:Hf.
  { rewrite (verify_place_error customer_name p c n err Hn Hdup Hf Hat) in Hrun.
    discriminate. }
  destruct (commit_fault w) as [err |] eqn:Hcommit.
  { destruct (verify_place_commit_fault customer_name p c n err Hn Hdup Hf Hcommit)
      as (c1 & Hrun' & _).
    congruence. }
  rewrite (verify_place_success customer_name p c n Hn Hdup Hf Hcommit) in Hrun.
  inversion Hrun; subst.
  exists n. repeat split; assumption.
Qed.

End VerifyFacts.

(** An early [return] inside the transactions is never a 200. *)
Definition returns_errors {A} (m : M A) : Prop :=
  forall c r c', m c = (Return r, c') -> status r <> 200.

Lemma returns_none {A} (m : M A) :
  (forall c r c', m c <> (Return r, c')) -> returns_errors m.
Proof. intros Hm c r c' H. now apply Hm in H. Qed.

Lemma returns_ret {A} (a : A) : returns_errors (ret a).
Proof. apply returns_none. discriminate. Qed.

Lemma returns_raise {A} (e : exn) : returns_errors (@raise A e).
Proof. apply returns_none. discriminate. Qed.

Lemma returns_lift {A} (r : A + exn) : returns_errors (lift r).
Proof. destruct r; [apply returns_ret | apply returns_raise]. Qed.

Lemma returns_rollback : returns_errors rollback.
Proof. apply returns_none. discriminate. Qed.

Lemma returns_error {A} (msg : string) : returns_errors (@return_ A (error 400 msg)).
Proof. intros c r c' H. inversion H; subst. simpl. discriminate. Qed.

Lemma returns_execute (w : world) {A} (s : stmt) (run : db -> A * db) :
  returns_errors (execute w s run).
Proof.
  apply returns_none. intros c r c'. unfold execute.
  destruct (db_fault w s); [discriminate |].
  simpl. destruct (run (working c)). discriminate.
Qed.

Lemma returns_commit (w : world) : returns_errors (commit w).
Proof.
  apply returns_none. intros c r c'. unfold commit.
  destruct (commit_fault w); discriminate.
Qed.

Lemma returns_bind {A B} (m : M A) (k : A -> M B) :
  returns_errors m -> (forall a, returns_errors (k a)) -> returns_errors (bind m k).
Proof.
  intros Hm Hk c r c' H. unfold bind in H.
  destruct (m c) as [[a | e | r0] c1] eqn:Hmc.
  - exact (Hk a _ _ _ H).
  - discriminate.
  - inversion H; subst. exact (Hm _ _ _ Hmc).
Qed.

Lemma returns_except_duplicate {A} (m retry : M A) :
  returns_errors m -> returns_errors retry -> returns_errors (except_duplicate m retry).
Proof.
  intros Hm Hr c r c' H. unfold except_duplicate in H.
  destruct (m c) as [[a | e | r0] c1] eqn:Hmc.
  - discriminate.
  - destruct e; try discriminate.
    destruct (errno =? 1062); [exact (Hr _ _ _ H) | discriminate].
  - inversion H; subst. exact (Hm _ _ _ Hmc).
Qed.

Lemma returns_retry {B} (round : nat -> M B) (exhausted : M B) :
  (forall k, returns_errors (round k)) -> returns_errors exhausted ->
  forall left k, returns_errors (retry_on_duplicate round exhausted left k).
Proof.
  intros Hround Hex. induction left as [| left IH]; intros k; simpl.
  - exact Hex.
  - apply returns_except_duplicate; [apply Hround | apply IH].
Qed.

Section ReturnFacts.

Variable cfg : config.
Variable py : pylib.
Variable w : world.

Lemma returns_collect_menu_ids (raw_items : list json) :
  forall ids, returns_errors (collect_menu_ids raw_items ids).
Proof.
  induction raw_items as [| item rest IH]; intros ids; simpl.
  - apply returns_ret.
  - apply returns_bind; [apply returns_lift |]. intros line.
    destruct (py_int (raw_menu_id line)).
    + apply IH.
    + apply returns_bind; [apply returns_rollback | intros; apply returns_error].
    + apply returns_bind; [apply returns_rollback | intros; apply returns_error].
    + apply returns_raise.
Qed.

Lemma returns_verify_prepare (email code : string) (raw_items : list json)
    (customer_name phone_number : string) :
  returns_errors
    (verify_prepare cfg w email code raw_items customer_name phone_number).
Proof.
  unfold verify_prepare, update, query.
  apply returns_bind; [apply returns_execute | intros _].
  apply returns_bind; [apply returns_execute | intros code_row].
  destruct code_row as [code_row_id |].
  2: { apply returns_bind; [apply returns_rollback | intros; apply returns_error]. }
  apply returns_bind; [apply returns_collect_menu_ids | intros menu_ids].
  apply returns_bind; [apply returns_execute | intros menu_rows].
  apply returns_bind; [apply returns_lift | intros [order_items order_total]].
  destruct order_items as [| item items].
  { apply returns_bind; [apply returns_rollback | intros; apply returns_error]. }
  apply returns_bind; [apply returns_execute | intros customer].
  apply returns_bind.
  { destruct customer; [apply returns_ret | apply returns_execute]. }
  intros customer_id.
  apply returns_bind; [apply returns_execute | intros _; apply returns_ret].
Qed.

Lemma returns_verify_place (customer_name : string) (p : prepared) :
  returns_errors (verify_place py w customer_name p).
Proof.
  unfold verify_place. apply returns_bind.
  - unfold insert_order_loop. apply returns_retry.
    + intros k. unfold attempt.
      apply returns_bind; [apply returns_execute | intros; apply returns_ret].
    + apply returns_ret.
  - intros [[order_id ref_num] |].
    + destruct (order_id =? 0); [apply returns_raise |].
      apply returns_bind; [apply returns_commit | intros; apply returns_ret].
    + apply returns_raise.
Qed.

Lemma returns_verify_txn (email code : string) (raw_items : list json)
    (customer_name phone_number : string) :
  returns_errors
    (verify_txn cfg py w email code raw_items customer_name phone_number).
Proof.
  unfold verify_txn. apply returns_bind.
  - apply returns_verify_prepare.
  - intros p. apply returns_verify_place.
Qed.

End ReturnFacts.

(** An answer 200 of verify-and-create: the request was well formed, the
    preparation came to its end, an order insert went through in some round
    [n], the commit too, and the store is the working copy with that
    order. *)
Lemma verify_200 (cfg : config) (py : pylib) (w : world) (payload : order_payload)
    (d : db) :
  let email := normalize_email (p_email payload) in
  let r := verify_and_create_order cfg py w payload d in
  status (resp r) = 200 ->
  exists raw_items customer_name p c n,
    well_formed payload
    /\ p_items payload = JList raw_items
    /\ verify_prepare cfg w email (PyStr.strip (p_code payload)) raw_items customer_name
         (PyStr.or_else (PyStr.strip (p_phoneNumber payload)) "N/A") (connect d)
       = (Val p, c)
    /\ (n < 8)%nat
    /\ (forall i, (i < n)%nat -> is_duplicate (db_fault w (VC_insert_order i)) = true)
    /\ db_fault w (VC_insert_order n) = None
    /\ commit_fault w = None
    /\ r = verify_finish cfg w email
             (Val (created_at py w customer_name p n c), placed py w customer_name p n c).
Proof.
  intros email r. subst r. unfold verify_and_create_order. fold email.
  destruct (is_valid_email email) eqn:Hvalid.
  2: { rewrite orb_true_r. simpl. discriminate. }
  rewrite (valid_email_nonempty _ Hvalid). simpl.
  destruct (PyStr.isdigit (PyStr.strip (p_code payload))) eqn:Hdigit.
  2: { rewrite orb_true_r. simpl. discriminate. }
  rewrite (isdigit_nonempty _ Hdigit). simpl.
  destruct (PyStr.len (PyStr.strip (p_code payload)) =? 4) eqn:Hlen;
    [| simpl; discriminate].
  simpl.
  destruct (p_items payload) as [| | | | | [| first others] |] eqn:Hitems;
    try (simpl; discriminate).
  set (name := if PyStr.is_empty (PyStr.strip (p_customerName payload))
               then default_customer_name email
               else PyStr.strip (p_customerName payload)).
  set (phone := PyStr.or_else (PyStr.strip (p_phoneNumber payload)) "N/A").
  destruct (verify_txn cfg py w email (PyStr.strip (p_code payload)) (first :: others)
              name phone (connect d)) as [[o | exc | r] c'] eqn:Hrun.
  - intros _. unfold verify_txn in Hrun.
    apply bind_val in Hrun. destruct Hrun as (p & c & Hprep & Hplace).
    apply verify_place_val in Hplace.
    destruct Hplace as (n & Hn & Hdup & Hok & Hcommit & -> & ->).
    exists (first :: others), name, p, c, n.
    repeat split; try assumption.
    + now apply Z.eqb_eq.
    + now exists first, others.
  - simpl. destruct (is_ValueError exc); discriminate.
  - simpl. intros Hr. exfalso.
    exact (returns_verify_txn cfg py w _ _ _ _ _ _ _ _ Hrun Hr).
Qed.

(* ================================================================== *)
(** * The order total *)

Lemma valid_cart_snapshot (d : db) (lines : list pydict) (rs : list resolved) :
  valid_cart (catalog d) lines rs ->
  forall ids all,
    Forall2 line_id (map JDict lines) ids ->
    incl ids all ->
    valid_cart (snapshot all d) lines rs.
Proof.
  induction 1 as [| line r lines rs Hline Hrest IH]; intros ids all Hids Hincl.
  - constructor.
  - simpl in Hids. inversion Hids as [| item id items ids' Hid Hids' E1 E2]; subst.
    constructor.
    + destruct Hline as (Hrid & Hq & Hpos & Hrow).
      destruct Hid as (line' & Heq & Hid). inversion Heq; subst line'.
      rewrite Hrid in Hid. inversion Hid; subst id.
      repeat split; try assumption.
      rewrite snapshot_find; [assumption |]. apply Hincl. now left.
    + apply (IH ids'); [assumption |]. intros x Hx. apply Hincl. now right.
Qed.

(** C2, as amended.  For every cart that is valid against the catalog of
    available items (ids and quantities coerce to integers, quantities are
    at least 1, every id is available) and on which no line total and no
    running total exceeds what the decimal context holds exactly (28
    significant digits), [build_order_items] prices every line and returns a
    total whose value is the sum over the lines of catalog unit price times
    quantity; it depends on the cart through the ids and quantities only.
    When verify-and-create answers 200 for that cart, the order row it adds
    carries that total as its amount. *)
Theorem order_total_is_catalog_sum (cfg : config) (py : pylib) (w : world)
    (payload : order_payload) (d : db) (lines : list pydict) (rs : list resolved) :
  p_items payload = JList (map JDict lines) ->
  valid_cart (catalog d) lines rs ->
  no_rounding rs = true ->
  let r := verify_and_create_order cfg py w payload d in
  exists total,
    build_order_items (catalog d) (map JDict lines) = inl (map priced rs, total)
    /\ (Dec.value total == exact_total rs)%Q
    /\ (status (resp r) = 200 ->
        exists row,
          orders (store r) = (orders d ++ [row])%list
          /\ ord_amount row = Some total).
Proof.
  intros Hitems Hvalid Hfit r.
  destruct (build_order_items_exact _ _ _ Hvalid Hfit) as [Hbuild Hvalue].
  exists (exact_sum_from Dec.zero_00 rs).
  split; [assumption |]. split; [assumption |].
  intros H200. subst r.
  destruct (verify_200 cfg py w payload d H200)
    as (raw_items & name & p & c & n & _ & Hraw & Hprep & _ & _ & _ & _ & Hr).
  rewrite Hitems in Hraw. inversion Hraw; subst raw_items. clear Hraw.
  destruct (verify_prepare_val _ _ _ _ _ _ _ _ _ _ Hprep)
    as (ids & Hids & Hpriced & _ & Horders & _).
  assert (Hsnap : valid_cart (snapshot ids d) lines rs).
  { apply (valid_cart_snapshot d lines rs Hvalid ids ids Hids). intros x Hx. exact Hx. }
  destruct (build_order_items_exact _ _ _ Hsnap Hfit) as [Hbuild' _].
  rewrite Hbuild' in Hpriced. inversion Hpriced as [[Hi Ht]].
  rewrite Hr. unfold verify_finish. destruct (send_html_email w); simpl.
  - rewrite Horders. eexists. split; [reflexivity |]. simpl. now rewrite Ht.
  - rewrite Horders. eexists. split; [reflexivity |]. simpl. now rewrite Ht.
Qed.

(** A cart line of two Kopi O, with amounts of the client's own that the
    resolver does not read. *)
Definition two_kopi : pydict :=
  [("id", JInt 1); ("qty", JStr "2"); ("price", JInt 0); ("line_total", JInt 0)].

Lemma order_total_is_catalog_sum_witness :
  let payload := Ex.order_of "1234" [JDict two_kopi] in
  let rs := [{| r_id := 1; r_row := Ex.kopi; r_qty := 2 |}] in
  let r := verify_and_create_order Ex.cfg Ex.py Ex.calm payload Ex.shop in
  status (resp r) = 200
  /\ exists total,
      build_order_items (catalog Ex.shop) [JDict two_kopi] = inl (map priced rs, total)
      /\ (Dec.value total == exact_total rs)%Q
      /\ (status (resp r) = 200 ->
          exists row,
            orders (store r) = (orders Ex.shop ++ [row])%list
            /\ ord_amount row = Some total).
Proof.
  intros payload rs r. split; [vm_compute; reflexivity |].
  apply (order_total_is_catalog_sum Ex.cfg Ex.py Ex.calm payload Ex.shop [two_kopi] rs).
  - reflexivity.
  - constructor; [| constructor].
    split; [vm_compute; reflexivity |]. split; [vm_compute; reflexivity |].
    split; [vm_compute; discriminate | vm_compute; reflexivity].
  - vm_compute. reflexivity.
Defined.

(** A catalog with one Teh Tarik at 4.55 and a cart of 10^27 + 1 of them. *)
Definition teh_menu : menu_map := [(2, Ex.teh)].

Definition many_teh : pydict := [("id", JInt 2); ("qty", JInt (10 ^ 27 + 1))].

(** C2 as stated fails: the cart is valid, and the total that
    [build_order_items] returns, 4550000000000000000000000005, is not the
    sum of price times quantity, 4550000000000000000000000004.55: the product
    has more than 28 digits and the context rounds it. *)
Lemma order_total_rounded :
  let rs := [{| r_id := 2; r_row := Ex.teh; r_qty := 10 ^ 27 + 1 |}] in
  valid_cart teh_menu [many_teh] rs
  /\ exists items,
      build_order_items teh_menu [JDict many_teh]
      = inl (items, {| Dec.coeff := 4550000000000000000000000005; Dec.expo := 0 |})
      /\ ~ (Dec.value {| Dec.coeff := 4550000000000000000000000005; Dec.expo := 0 |}
            == exact_total rs)%Q.
Proof.
  intros rs. split.
  - constructor; [| constructor].
    split; [vm_compute; reflexivity |]. split; [vm_compute; reflexivity |].
    split; [vm_compute; discriminate | vm_compute; reflexivity].
  - eexists. split; [vm_compute; reflexivity |].
    vm_compute. discriminate.
Qed.

(* ================================================================== *)
(** * A line without a quantity *)






(* ================================================================== *)
(** * The retry bound *)

Lemma exn_str_db (err : db_error) : exn_str (db_exn err) = err_msg err.
Proof. unfold db_exn. now destruct (err_integrity err). Qed.

Lemma db_exn_not_value (err : db_error) : is_ValueError (db_exn err) = false.
Proof. unfold db_exn. now destruct (err_integrity err). Qed.

(** The customer name and the phone number the handler works with. *)
Definition customer_name_of (payload : order_payload) : string :=
  if PyStr.is_empty (PyStr.strip (p_customerName payload))
  then default_customer_name (normalize_email (p_email payload))
  else PyStr.strip (p_customerName payload).

Definition phone_of (payload : order_payload) : string :=
  PyStr.or_else (PyStr.strip (p_phoneNumber payload)) "N/A".

Lemma verify_run (cfg : config) (py : pylib) (w : world) (payload : order_payload)
    (d : db) (raw_items : list json) :
  well_formed payload ->
  p_items payload = JList raw_items ->
  verify_and_create_order cfg py w payload d
  = verify_finish cfg w (normalize_email (p_email payload))
      (verify_txn cfg py w (normalize_email (p_email payload))
         (PyStr.strip (p_code payload)) raw_items (customer_name_of payload)
         (phone_of payload) (connect d)).
Proof.
  intros (Hemail & Hdigit & Hlen & first & others & Hitems) Hraw.
  rewrite Hitems in Hraw. inversion Hraw; subst raw_items.
  unfold verify_and_create_order.
  rewrite Hemail, (valid_email_nonempty _ Hemail).
  rewrite Hdigit, (isdigit_nonempty _ Hdigit), Hlen. simpl.
  rewrite Hitems. reflexivity.
Qed.

(** The number of rounds of the retry loops among the events of a run. *)
Definition count_rounds (evs : list event) : nat :=
  List.length (filter is_insert_round evs).

Lemma count_rounds_app (a b : list event) :
  count_rounds (a ++ b) = (count_rounds a + count_rounds b)%nat.
Proof. unfold count_rounds. now rewrite filter_app, length_app. Qed.

Lemma count_rounds_none (evs : list event) :
  Forall (fun ev => is_insert_round ev = false) evs -> count_rounds evs = 0%nat.
Proof.
  unfold count_rounds. induction 1 as [| ev evs Hev _ IH]; [reflexivity |].
  simpl. now rewrite Hev.
Qed.

Lemma count_rounds_attempts (lbl : nat -> stmt) (k n : nat) :
  (forall i, is_insert_round (EvExecute (lbl i)) = true) ->
  count_rounds (attempts lbl k n) = n.
Proof.
  intros Hlbl. unfold count_rounds, attempts. revert k.
  induction n as [| n IH]; intros k; [reflexivity |].
  cbn [seq map filter]. rewrite Hlbl. cbn [List.length]. now rewrite IH.
Qed.

Section BoundFacts.

Variable cfg : config.
Variable py : pylib.
Variable w : world.

(** However the order loop ends, it has run at most eight rounds, and
    nothing but its rounds and a commit. *)
Lemma verify_place_rounds (customer_name : string) (p : prepared) (c c' : conn)
    (o : outcome created) :
  verify_place py w customer_name p c = (o, c') ->
  exists k extra,
    (k <= 8)%nat
    /\ trace c' = (trace c ++ attempts VC_insert_order 0 k ++ extra)%list
    /\ count_rounds extra = 0%nat.
Proof.
  intros Hrun.
  destruct (first_other w VC_insert_order 8) as [Hall | (n & Hn & Hdup & Hat)].
  { rewrite (verify_place_exhausted py w customer_name p c Hall) in Hrun.
    inversion Hrun; subst. exists 8%nat, []. rewrite app_nil_r.
    split; [lia |]. split; reflexivity. }
  destruct (db_fault w (VC_insert_order n)) as [err |] eqn:Hf.
  { rewrite (verify_place_error py w customer_name p c n err Hn Hdup Hf Hat) in Hrun.
    inversion Hrun; subst. exists (S n), []. rewrite app_nil_r.
    split; [lia |]. split; reflexivity. }
  destruct (commit_fault w) as [err |] eqn:Hcommit.
  { destruct (verify_place_commit_fault py w customer_name p c n err Hn Hdup Hf Hcommit)
      as (c1 & Hrun' & _ & Htrace).
    rewrite Hrun' in Hrun. inversion Hrun; subst. exists (S n), [].
    rewrite app_nil_r. split; [lia |]. split; [assumption | reflexivity]. }
  rewrite (verify_place_success py w customer_name p c n Hn Hdup Hf Hcommit) in Hrun.
  inversion Hrun; subst. exists (S n), [EvCommit].
  split; [lia |]. split; reflexivity.
Qed.

Lemma verify_rounds_bounded (payload : order_payload) (d : db) :
  (count_rounds (events (verify_and_create_order cfg py w payload d)) <= 8)%nat.
Proof.
  unfold verify_and_create_order.
  destruct (PyStr.is_empty _ || negb (is_valid_email _)); [unfold count_rounds; simpl; lia |].
  destruct (PyStr.is_empty _ || negb (PyStr.isdigit _) || negb (_ =? 4));
    [unfold count_rounds; simpl; lia |].
  destruct (p_items payload) as [| | | | | [| first others] |]; try (unfold count_rounds; simpl; lia).
  unfold verify_txn, bind.
  match goal with
  | |- context [verify_prepare cfg w ?e ?k ?l ?n ?ph (connect d)] =>
      destruct (verify_prepare cfg w e k l n ph (connect d)) as [o c] eqn:Hprep;
      destruct (quiet_verify_prepare cfg w e k l n ph _ _ _ Hprep)
        as (evs & Htrace & Hnone & _)
  end.
  simpl in Htrace.
  destruct o as [p | exc | r].
  - match goal with
    | |- context [verify_place py w ?n p c] =>
        destruct (verify_place py w n p c) as [o' c'] eqn:Hplace;
        destruct (verify_place_rounds n p c c' o' Hplace)
          as (k & extra & Hk & Htrace' & Hextra)
    end.
    assert (Hcount : count_rounds (trace c') = k).
    { rewrite Htrace', Htrace, !count_rounds_app, (count_rounds_none _ Hnone), Hextra.
      rewrite count_rounds_attempts by reflexivity. lia. }
    destruct o' as [o' | exc | r]; simpl.
    + destruct (send_html_email w); simpl;
        rewrite count_rounds_app, Hcount; unfold count_rounds; simpl; lia.
    + rewrite count_rounds_app, Hcount. unfold count_rounds; simpl; lia.
    + rewrite Hcount. lia.
  - simpl. rewrite count_rounds_app, Htrace, (count_rounds_none _ Hnone). unfold count_rounds; simpl; lia.
  - simpl. rewrite Htrace, (count_rounds_none _ Hnone). lia.
Qed.

Lemma request_rounds_bounded (e : string) (d : db) :
  (count_rounds (events (request_order_code w e d)) <= 8)%nat.
Proof.
  unfold request_order_code.
  destruct (is_valid_email (normalize_email e)) eqn:Hvalid.
  2: { rewrite orb_true_r. unfold count_rounds; simpl; lia. }
  rewrite (valid_email_nonempty _ Hvalid). simpl.
  destruct (db_fault w RC_supersede) as [err |] eqn:Hsup.
  { unfold request_code_txn, bind, update, execute. rewrite Hsup. unfold count_rounds; simpl; lia. }
  destruct (first_other w RC_insert 8) as [Hall | (n & Hn & Hdup & Hat)].
  { destruct (request_code_txn_exhausted w (normalize_email e) d Hsup Hall)
      as (c & Hrun & _ & Htrace).
    rewrite Hrun. unfold request_code_finish, rollback, events, snd, log, trace at 1.
    unfold set_working, trace at 1. rewrite Htrace.
    change (EvExecute RC_supersede :: attempts RC_insert 0 8)
      with ([EvExecute RC_supersede] ++ attempts RC_insert 0 8)%list.
    rewrite !count_rounds_app, count_rounds_attempts by reflexivity. unfold count_rounds; simpl; lia. }
  destruct (db_fault w (RC_insert n)) as [err |] eqn:Hf.
  { destruct (request_code_txn_error w (normalize_email e) d n err Hn Hsup Hdup Hf Hat)
      as (c & Hrun & _ & Htrace).
    rewrite Hrun. unfold request_code_finish, rollback, events, snd, log, trace at 1.
    unfold set_working, trace at 1. rewrite Htrace.
    change (EvExecute RC_supersede :: attempts RC_insert 0 (S n))
      with ([EvExecute RC_supersede] ++ attempts RC_insert 0 (S n))%list.
    rewrite !count_rounds_app, count_rounds_attempts by reflexivity. unfold count_rounds; simpl; lia. }
  destruct (commit_fault w) as [err |] eqn:Hcommit.
  { destruct (request_code_txn_commit_fault w (normalize_email e) d n err
                Hn Hsup Hdup Hf Hcommit) as (c & Hrun & _ & Htrace).
    rewrite Hrun. unfold request_code_finish, rollback, events, snd, log, trace at 1.
    unfold set_working, trace at 1. rewrite Htrace.
    change (EvExecute RC_supersede :: attempts RC_insert 0 (S n))
      with ([EvExecute RC_supersede] ++ attempts RC_insert 0 (S n))%list.
    rewrite !count_rounds_app, count_rounds_attempts by reflexivity. unfold count_rounds; simpl; lia. }
  rewrite (request_code_txn_success w (normalize_email e) d n Hn Hsup Hdup Hf Hcommit).
  unfold request_code_finish.
  assert (Hcount : forall tail,
             count_rounds tail = 0%nat ->
             (count_rounds (issue_events n ++ tail) <= 8)%nat).
  { intros tail Htail. unfold issue_events.
    change (EvExecute RC_supersede :: attempts RC_insert 0 (S n) ++ [EvCommit])%list
      with ([EvExecute RC_supersede] ++ attempts RC_insert 0 (S n) ++ [EvCommit])%list.
    rewrite !count_rounds_app, count_rounds_attempts, Htail by reflexivity.
    unfold count_rounds; simpl; lia. }
  destruct (send_html_email w); simpl; apply Hcount; reflexivity.
Qed.

End BoundFacts.

(** The mails of the two handlers, as events. *)
Definition otp_mail (email code : string) : event :=
  EvSendEmail email otp_subject (otp_text code).

Definition order_mail (cfg : config) (email ref_num : string) : event :=
  EvSendEmail email
    ("Kopi Kopi Order Confirmation (" ++ ref_num ++ ")")
    ("Your order " ++ ref_num ++ " is confirmed. Track it here: "
       ++ (frontend_base_url cfg ++ "/track-order?ref=" ++ ref_num)).

(** Every one of the rounds before [n] met a duplicate key. *)
Definition duplicates_before (w : world) (lbl : nat -> stmt) (n : nat) : Prop :=
  forall i, (i < n)%nat -> is_duplicate (db_fault w (lbl i)) = true.

(** C5.  The inserts of the one-time code and of the order are retried on a
    duplicate-key error (IntegrityError 1062) with a newly drawn identifier,
    in at most 8 rounds.  Once the loop is reached (request-code: valid
    email and the superseding update done; verify-and-create: well-formed
    request and the preparation done):
    - if rounds 0..n-1 meet a duplicate key and round n < 8 goes through,
      the row written carries the identifier drawn in round n and the run
      made exactly the rounds 0..n;
    - if round n < 8 fails with any other error, the answer is 500 with that
      error, the store is as the request found it, and no round follows;
    - if all 8 rounds meet a duplicate key, the answer is 500, the store is
      as the request found it, and the run made exactly 8 rounds.
    In every run of either handler the number of rounds is at most 8. *)
Theorem insert_retry_is_bounded (cfg : config) (py : pylib) (w : world) :
  (forall e d,
      let email := normalize_email e in
      let r := request_order_code w e d in
      is_valid_email email = true ->
      db_fault w RC_supersede = None ->
      (forall n,
          (n < 8)%nat -> duplicates_before w RC_insert n ->
          db_fault w (RC_insert n) = None -> commit_fault w = None ->
          store r = issued w email (code_at w n) d
          /\ events r = (issue_events n ++ [otp_mail email (code_at w n)])%list)
      /\ (forall n err,
            (n < 8)%nat -> duplicates_before w RC_insert n ->
            db_fault w (RC_insert n) = Some err -> is_duplicate (Some err) = false ->
            resp r = error_details 500 "Failed to generate verification code." (err_msg err)
            /\ store r = d
            /\ events r = ((EvExecute RC_supersede :: attempts RC_insert 0 (S n))
                             ++ [EvRollback])%list)
      /\ (duplicates_before w RC_insert 8 ->
          resp r = error_details 500 "Failed to generate verification code."
                     "Could not generate a unique verification code."
          /\ store r = d
          /\ events r = ((EvExecute RC_supersede :: attempts RC_insert 0 8)
                           ++ [EvRollback])%list))
  /\ (forall payload d raw_items p c,
        let email := normalize_email (p_email payload) in
        let r := verify_and_create_order cfg py w payload d in
        well_formed payload ->
        p_items payload = JList raw_items ->
        verify_prepare cfg w email (PyStr.strip (p_code payload)) raw_items
          (customer_name_of payload) (phone_of payload) (connect d) = (Val p, c) ->
        (forall n,
            (n < 8)%nat -> duplicates_before w VC_insert_order n ->
            db_fault w (VC_insert_order n) = None -> commit_fault w = None ->
            status (resp r) = 200
            /\ (exists row,
                   orders (store r) = (orders d ++ [row])%list
                   /\ ord_ref_num row = ref_at w n)
            /\ events r = (trace c ++ attempts VC_insert_order 0 (S n)
                             ++ [EvCommit; order_mail cfg email (ref_at w n)])%list)
        /\ (forall n err,
              (n < 8)%nat -> duplicates_before w VC_insert_order n ->
              db_fault w (VC_insert_order n) = Some err ->
              is_duplicate (Some err) = false ->
              resp r = error_details 500 "Failed to create order." (err_msg err)
              /\ store r = d
              /\ events r = (trace c ++ attempts VC_insert_order 0 (S n)
                               ++ [EvRollback])%list)
        /\ (duplicates_before w VC_insert_order 8 ->
            resp r = error_details 500 "Failed to create order."
                       "Could not create order reference number."
            /\ store r = d
            /\ events r = (trace c ++ attempts VC_insert_order 0 8
                             ++ [EvRollback])%list))
  /\ (forall e d, (count_rounds (events (request_order_code w e d)) <= 8)%nat)
  /\ (forall payload d,
        (count_rounds (events (verify_and_create_order cfg py w payload d)) <= 8)%nat).
Proof.
  split; [| split; [| split]].
  - intros e d email r Hvalid Hsup. subst r.
    rewrite (request_well_formed w e d Hvalid). fold email.
    split; [| split].
    + intros n Hn Hdup Hok Hcommit.
      rewrite (request_code_txn_success w email d n Hn Hsup Hdup Hok Hcommit).
      unfold request_code_finish. destruct (send_html_email w); split; reflexivity.
    + intros n err Hn Hdup Hf Hother.
      destruct (request_code_txn_error w email d n err Hn Hsup Hdup Hf Hother)
        as (c & Hrun & Hkeep & Htrace).
      rewrite Hrun. unfold request_code_finish, rollback, snd, log, set_working.
      cbn [resp store events committed trace]. rewrite exn_str_db, Hkeep, Htrace.
      repeat split.
    + intros Hall.
      destruct (request_code_txn_exhausted w email d Hsup Hall)
        as (c & Hrun & Hkeep & Htrace).
      rewrite Hrun. unfold request_code_finish, rollback, snd, log, set_working.
      cbn [resp store events committed trace]. rewrite Hkeep, Htrace.
      repeat split.
  - intros payload d raw_items p c email r Hwf Hitems Hprep. subst r.
    rewrite (verify_run cfg py w payload d raw_items Hwf Hitems). fold email.
    unfold verify_txn, bind. rewrite Hprep.
    destruct (verify_prepare_val _ _ _ _ _ _ _ _ _ _ Hprep)
      as (ids & _ & _ & Hkeep & Horders & _).
    split; [| split].
    + intros n Hn Hdup Hok Hcommit.
      rewrite (verify_place_success py w _ p c n Hn Hdup Hok Hcommit).
      unfold verify_finish, placed, created_at, order_mail.
      destruct (send_html_email w); cbn [resp store events status committed trace
                                         new_ref_num];
        (split; [reflexivity |]); (split; [| now rewrite <- !app_assoc]);
        eexists; unfold order_insert, sql_insert_order; cbn [snd orders set_orders];
        rewrite Horders; split; reflexivity.
    + intros n err Hn Hdup Hf Hother.
      rewrite (verify_place_error py w _ p c n err Hn Hdup Hf Hother).
      unfold verify_finish, rollback, snd, log, set_working, advance.
      cbn [resp store events committed trace].
      rewrite db_exn_not_value, exn_str_db, Hkeep, <- app_assoc.
      repeat split.
    + intros Hall.
      rewrite (verify_place_exhausted py w _ p c Hall).
      unfold verify_finish, rollback, snd, log, set_working, advance.
      cbn [resp store events committed trace is_ValueError exn_str].
      rewrite Hkeep, <- app_assoc.
      repeat split.
  - intros e d. apply request_rounds_bounded.
  - intros payload d. apply verify_rounds_bounded.
Qed.

(** A moment at which the first three inserts of either loop meet a
    duplicate key, one at which every insert does, and one at which the
    third insert loses the connection. *)
Definition three_duplicates (s : stmt) : option db_error :=
  match s with
  | RC_insert k | VC_insert_order k =>
      if (k <? 3)%nat then Some Ex.duplicate else None
  | _ => None
  end.

Definition all_duplicates (s : stmt) : option db_error :=
  match s with
  | RC_insert _ | VC_insert_order _ => Some Ex.duplicate
  | _ => None
  end.

Definition lost_at_third (s : stmt) : option db_error :=
  match s with
  | RC_insert k | VC_insert_order k =>
      if (k <? 2)%nat then Some Ex.duplicate
      else if (k =? 2)%nat then Some Ex.lost else None
  | _ => None
  end.

Lemma insert_retry_is_bounded_witness :
  let kopi2 := Ex.order_of "1234" [Ex.line (JInt 1) (JInt 2)] in
  let w3 := Ex.with_faults three_duplicates Ex.calm in
  let w8 := Ex.with_faults all_duplicates Ex.calm in
  let wl := Ex.with_faults lost_at_third Ex.calm in
  let r3 := verify_and_create_order Ex.cfg Ex.py w3 kopi2 Ex.shop in
  let r8 := verify_and_create_order Ex.cfg Ex.py w8 kopi2 Ex.shop in
  let rl := verify_and_create_order Ex.cfg Ex.py wl kopi2 Ex.shop in
  let q3 := request_order_code w3 "a@b.com" Ex.shop in
  let q8 := request_order_code w8 "a@b.com" Ex.shop in
  (status (resp r3) = 200
   /\ map ord_ref_num (orders (store r3)) = ["KK260309000080"]
   /\ count_rounds (events r3) = 4%nat)
  /\ (status (resp r8) = 500 /\ store r8 = Ex.shop /\ count_rounds (events r8) = 8%nat)
  /\ (resp rl = error_details 500 "Failed to create order." (err_msg Ex.lost)
      /\ store rl = Ex.shop /\ count_rounds (events rl) = 3%nat)
  /\ (store q3 = issued w3 "a@b.com" "4324" Ex.shop
      /\ events q3 = (issue_events 3 ++ [otp_mail "a@b.com" "4324"])%list
      /\ count_rounds (events q3) = 4%nat)
  /\ (resp q8 = error_details 500 "Failed to generate verification code."
                  "Could not generate a unique verification code."
      /\ store q8 = Ex.shop
      /\ events q8 = ((EvExecute RC_supersede :: attempts RC_insert 0 8)
                        ++ [EvRollback])%list)
  /\ (count_rounds (events r8) <= 8)%nat.
Proof.
  intros kopi2 w3 w8 wl r3 r8 rl q3 q8.
  destruct (insert_retry_is_bounded Ex.cfg Ex.py w8) as (Hrequest8 & _ & _ & Hbound).
  destruct (insert_retry_is_bounded Ex.cfg Ex.py w3) as (Hrequest3 & _).
  destruct (insert_retry_is_bounded Ex.cfg Ex.py wl) as (_ & Hverify & _).
  split; [vm_compute; repeat split |].
  split; [vm_compute; repeat split |].
  split.
  { assert (Hwf : well_formed kopi2).
    { repeat split; try reflexivity. eexists. eexists. reflexivity. }
    edestruct (Hverify kopi2 Ex.shop) as (_ & Hother & _).
    - exact Hwf.
    - reflexivity.
    - vm_compute. reflexivity.
    - destruct (Hother 2%nat Ex.lost) as (Hresp & Hstore & _).
      + lia.
      + intros i Hi. destruct i as [| [| i]]; [reflexivity | reflexivity | lia].
      + reflexivity.
      + reflexivity.
      + split; [exact Hresp |]. split; [exact Hstore |]. vm_compute. reflexivity. }
  split.
  { destruct (Hrequest3 "a@b.com" Ex.shop eq_refl eq_refl) as (Hok & _).
    destruct (Hok 3%nat) as (Hstore & Hev).
    - lia.
    - intros i Hi. destruct i as [| [| [| i]]]; [reflexivity | reflexivity | reflexivity | lia].
    - reflexivity.
    - reflexivity.
    - split; [exact Hstore |]. split; [exact Hev |]. vm_compute. reflexivity. }
  split.
  - destruct (Hrequest8 "a@b.com" Ex.shop eq_refl eq_refl) as (_ & _ & Hall).
    apply Hall. intros i Hi. reflexivity.
  - apply Hbound.
Defined.

(* ================================================================== *)
(** * Carts that are not valid *)

(** A cart line that is not valid against a catalog: its id or its quantity
    does not coerce to an integer, or the quantity is below 1, or the id is
    not in the catalog. *)
Definition invalid_line (menu : menu_map) (line : pydict) : Prop :=
  (forall id, py_int (raw_menu_id line) <> IntOk id)
  \/ (forall qty, py_int (raw_qty line) <> IntOk qty)
  \/ (exists qty, py_int (raw_qty line) = IntOk qty /\ qty < 1)
  \/ (exists id, py_int (raw_menu_id line) = IntOk id /\ map_find id menu = None).

(** The id or the quantity of the line is a float infinity. *)
Definition has_infinity (line : pydict) : Prop :=
  py_int (raw_menu_id line) = IntOverflowError
  \/ py_int (raw_qty line) = IntOverflowError.

Lemma invalid_not_resolved (menu : menu_map) (line : pydict) (r : resolved) :
  invalid_line menu line -> ~ resolves menu line r.
Proof.
  intros [H | [H | [(q & Hq & Hlt) | (id & Hid & Hnone)]]] (Hrid & Hrq & Hpos & Hrow).
  - now apply (H (r_id r)).
  - now apply (H (r_qty r)).
  - rewrite Hrq in Hq. inversion Hq; subst. lia.
  - rewrite Hrid in Hid. inversion Hid; subst. congruence.
Qed.

Lemma build_order_line_inl (menu : menu_map) (line : pydict) (total total' : Dec.decimal)
    (item : order_item) :
  build_order_line menu (JDict line) total = inl (item, total') ->
  exists r, resolves menu line r.
Proof.
  unfold build_order_line. simpl.
  destruct (py_int (raw_menu_id line)) as [id | | |] eqn:Hid; try discriminate.
  destruct (py_int (raw_qty line)) as [qty | | |] eqn:Hqty; try discriminate.
  destruct (qty <? 1) eqn:Hlt; [discriminate |].
  destruct (map_find id menu) as [row |] eqn:Hrow; [| discriminate].
  intros _. exists {| r_id := id; r_row := row; r_qty := qty |}.
  repeat split; try assumption. simpl. apply Z.ltb_ge in Hlt. lia.
Qed.

Lemma build_order_line_inr (menu : menu_map) (line : pydict) (total : Dec.decimal)
    (e : exn) :
  build_order_line menu (JDict line) total = inr e ->
  is_ValueError e = true
  \/ (e = OverflowError overflow_msg /\ has_infinity line)
  \/ e = DecimalOverflow decimal_overflow_msg.
Proof.
  unfold build_order_line, has_infinity. simpl.
  destruct (py_int (raw_menu_id line)) as [id | | |] eqn:Hid;
    try (intros H; inversion H; subst; simpl; tauto).
  destruct (py_int (raw_qty line)) as [qty | | |] eqn:Hqty;
    try (intros H; inversion H; subst; simpl; tauto).
  destruct (qty <? 1); [intros H; inversion H; subst; simpl; tauto |].
  destruct (map_find id menu) as [row |]; [| intros H; inversion H; subst; simpl; tauto].
  destruct (Dec.mul_int _ _); [| intros H; inversion H; subst; simpl; tauto].
  destruct (Dec.add _ _); [discriminate | intros H; inversion H; subst; simpl; tauto].
Qed.

(** A cart with a line that is not valid is priced by no run of the
    resolver: there is no partial order.  The exception is a [ValueError]
    unless a float infinity or an overflow of the decimal context comes
    first. *)
Lemma build_rejects (menu : menu_map) (lines : list pydict) :
  Exists (invalid_line menu) lines ->
  forall items total,
    exists e,
      build_order_items_from menu (map JDict lines) items total = inr e
      /\ (is_ValueError e = true
          \/ (e = OverflowError overflow_msg /\ Exists has_infinity lines)
          \/ e = DecimalOverflow decimal_overflow_msg).
Proof.
  induction lines as [| line lines IH]; intros Hbad items total.
  - inversion Hbad.
  - simpl. destruct (build_order_line menu (JDict line) total) as [[item total'] | e]
      eqn:Hline.
    + destruct (build_order_line_inl _ _ _ _ _ Hline) as [r Hr].
      assert (Hrest : Exists (invalid_line menu) lines).
      { inversion Hbad as [x l Hx | x l Hl]; subst; [| assumption].
        elim (invalid_not_resolved _ _ r Hx Hr). }
      destruct (IH Hrest (items ++ [item])%list total') as (e & He & Hclass).
      exists e. split; [assumption |].
      destruct Hclass as [H | [[H Hinf] | H]]; [tauto | | tauto].
      right. left. split; [assumption | now apply Exists_cons_tl].
    + exists e. split; [reflexivity |].
      destruct (build_order_line_inr _ _ _ _ Hline) as [H | [[H Hinf] | H]];
        [tauto | | tauto].
      right. left. split; [assumption | now apply Exists_cons_hd].
Qed.

Lemma snapshot_only (ids : list Z) (d : db) (id : Z) (row : menu_row) :
  map_find id (snapshot ids d) = Some row -> In id ids.
Proof.
  unfold snapshot, sql_select_menu.
  induction (menu d) as [| r rows IH]; [discriminate |]. simpl.
  destruct (existsb (Z.eqb (menu_id (m_row r))) ids && (m_is_available r =? 1)) eqn:Hkeep;
    simpl; [| exact IH].
  destruct (map_find id _) as [row' |]; [exact IH |].
  destruct (Z.eqb_spec id (menu_id (m_row r))) as [-> | Hne]; [| discriminate].
  intros _. apply andb_true_iff in Hkeep. destruct Hkeep as [Hex _].
  apply existsb_exists in Hex. destruct Hex as (x & Hin & Heq).
  apply Z.eqb_eq in Heq. now subst.
Qed.

Lemma snapshot_sub (ids : list Z) (d : db) (id : Z) (row : menu_row) :
  map_find id (snapshot ids d) = Some row -> map_find id (catalog d) = Some row.
Proof.
  intros H. rewrite <- (snapshot_find ids d id); [assumption |].
  exact (snapshot_only _ _ _ _ H).
Qed.

Lemma invalid_in_snapshot (ids : list Z) (d : db) (line : pydict) :
  invalid_line (catalog d) line -> invalid_line (snapshot ids d) line.
Proof.
  intros [H | [H | [H | (id & Hid & Hnone)]]].
  - now left.
  - right. now left.
  - right. right. now left.
  - right. right. right. exists id. split; [assumption |].
    destruct (map_find id (snapshot ids d)) as [row |] eqn:Hs; [| reflexivity].
    apply snapshot_sub in Hs. congruence.
Qed.

Lemma collect_step (line : pydict) (rest : list json) (acc : list Z) (c : conn) :
  collect_menu_ids (JDict line :: rest) acc c
  = match py_int (raw_menu_id line) with
    | IntOk n => collect_menu_ids rest (acc ++ [n])%list c
    | IntOverflowError => (Raise (OverflowError overflow_msg), c)
    | _ => (Return (error 400 "Invalid menu item in cart."),
            log EvRollback (set_working (committed c) c))
    end.
Proof.
  simpl. unfold bind at 1. simpl.
  destruct (py_int (raw_menu_id line)); reflexivity.
Qed.

(** The first loop of verify-and-create over a cart of objects: the ids, an
    early 400, or the [OverflowError] of a float infinity. *)
Lemma collect_dict_lines (lines : list pydict) :
  forall acc c,
    (exists ids, collect_menu_ids (map JDict lines) acc c = (Val (acc ++ ids)%list, c))
    \/ collect_menu_ids (map JDict lines) acc c
       = (Return (error 400 "Invalid menu item in cart."),
          log EvRollback (set_working (committed c) c))
    \/ (collect_menu_ids (map JDict lines) acc c = (Raise (OverflowError overflow_msg), c)
        /\ Exists has_infinity lines).
Proof.
  induction lines as [| line lines IH]; intros acc c.
  - left. exists []. simpl. now rewrite app_nil_r.
  - cbn [map]. rewrite collect_step.
    destruct (py_int (raw_menu_id line)) as [id | | |] eqn:Hid.
    + destruct (IH (acc ++ [id])%list c) as [(ids & H) | [H | [H Hinf]]].
      * left. exists (id :: ids). rewrite H. now rewrite <- app_assoc.
      * right. now left.
      * right. right. split; [assumption | now apply Exists_cons_tl].
    + right. now left.
    + right. now left.
    + right. right. split; [reflexivity |]. apply Exists_cons_hd. now left.
Qed.

(** The transaction on a cart with a line that is not valid, once the code
    is found and the statements up to the reading of the menu go through:
    an early 400, or an exception of one of three kinds. *)
Lemma verify_txn_invalid_cart (cfg : config) (py : pylib) (w : world)
    (email code name phone : string) (d : db) (lines : list pydict) (id : Z) :
  Exists (invalid_line (catalog d)) lines ->
  db_fault w VC_expire = None ->
  db_fault w VC_select_code = None ->
  db_fault w VC_select_menu = None ->
  sql_select_code (now w) email code (sql_supersede_expired (now w) email d) = Some id ->
  exists o c,
    verify_txn cfg py w email code (map JDict lines) name phone (connect d) = (o, c)
    /\ (o = Return (error 400 "Invalid menu item in cart.")
        \/ exists e,
            o = Raise e
            /\ (is_ValueError e = true
                \/ (e = OverflowError overflow_msg /\ Exists has_infinity lines)
                \/ e = DecimalOverflow decimal_overflow_msg)).
Proof.
  intros Hbad Hf1 Hf2 Hf3 Hsel.
  destruct (collect_dict_lines lines []
              (set_working (sql_supersede_expired (now w) email d)
                 (log (EvExecute VC_select_code)
                    (set_working (sql_supersede_expired (now w) email d)
                       (log (EvExecute VC_expire) (connect d))))))
    as [(ids & Hc) | [Hc | [Hc Hinf]]].
  - assert (Hbad' : Exists (invalid_line (snapshot ids d)) lines).
    { apply Exists_exists in Hbad. destruct Hbad as (line & Hin & Hline).
      apply Exists_exists. exists line. split; [assumption |].
      now apply invalid_in_snapshot. }
    destruct (build_rejects _ _ Hbad' [] Dec.zero_00) as (e & He & Hclass).
    eexists. eexists. split.
    + unfold verify_txn, verify_prepare, bind at 1 2 3, update, query, execute.
      rewrite Hf1. simpl. rewrite Hf2. simpl. rewrite Hsel.
      unfold bind at 1. rewrite Hc.
      unfold bind at 1. rewrite Hf3. cbv beta iota.
      change (map (fun row : menu_row => (menu_id row, row))
                  (sql_select_menu ([] ++ ids) _))
        with (snapshot ids d).
      unfold build_order_items. rewrite He.
      unfold bind at 1, lift, raise. cbv beta iota. reflexivity.
    + right. now exists e.
  - eexists. eexists. split.
    + unfold verify_txn, verify_prepare, bind at 1 2 3, update, query, execute.
      rewrite Hf1. simpl. rewrite Hf2. simpl. rewrite Hsel.
      unfold bind at 1. rewrite Hc. cbv beta iota. reflexivity.
    + now left.
  - eexists. eexists. split.
    + unfold verify_txn, verify_prepare, bind at 1 2 3, update, query, execute.
      rewrite Hf1. simpl. rewrite Hf2. simpl. rewrite Hsel.
      unfold bind at 1. rewrite Hc. cbv beta iota. reflexivity.
    + right. exists (OverflowError overflow_msg). split; [reflexivity |].
      right. left. now split.
Qed.

(** C7 (the code departs from the claim for a float infinity).  For every
    cart of objects with a line that is not valid against the catalog of
    available items, verify-and-create does not answer 200 and leaves the
    store as it found it: no order row, no customer row, no code consumed.
    Where the request is well formed, its code verifies and the statements
    up to the reading of the menu go through, the answer is 400, except
    that it is 500 when the [int()] of a float infinity raises
    [OverflowError], which neither handler catches, or when the decimal
    context overflows. *)
Theorem invalid_cart_is_rejected (cfg : config) (py : pylib) (w : world)
    (payload : order_payload) (d : db) (lines : list pydict) :
  p_items payload = JList (map JDict lines) ->
  Exists (invalid_line (catalog d)) lines ->
  let email := normalize_email (p_email payload) in
  let r := verify_and_create_order cfg py w payload d in
  status (resp r) <> 200
  /\ store r = d
  /\ (well_formed payload ->
      db_fault w VC_expire = None ->
      db_fault w VC_select_code = None ->
      db_fault w VC_select_menu = None ->
      (exists id,
          sql_select_code (now w) email (PyStr.strip (p_code payload))
            (sql_supersede_expired (now w) email d) = Some id) ->
      status (resp r) = 400
      \/ (resp r = error_details 500 "Failed to create order." overflow_msg
          /\ Exists has_infinity lines)
      \/ resp r = error_details 500 "Failed to create order." decimal_overflow_msg).
Proof.
  intros Hitems Hbad email r.
  assert (Hno : status (resp r) <> 200).
  { intros H200. subst r.
    destruct (verify_200 cfg py w payload d H200)
      as (raw_items & name & p & c & n & _ & Hraw & Hprep & _).
    rewrite Hitems in Hraw. inversion Hraw; subst raw_items.
    destruct (verify_prepare_val _ _ _ _ _ _ _ _ _ _ Hprep) as (ids & _ & Hbuild & _).
    assert (Hbad' : Exists (invalid_line (snapshot ids d)) lines).
    { apply Exists_exists in Hbad. destruct Hbad as (line & Hin & Hline).
      apply Exists_exists. exists line. split; [assumption |].
      now apply invalid_in_snapshot. }
    destruct (build_rejects _ _ Hbad' [] Dec.zero_00) as (e & He & _).
    unfold build_order_items in Hbuild. congruence. }
  split; [assumption |]. split; [now apply verify_failure_keeps_store |].
  intros Hwf Hf1 Hf2 Hf3 [id Hsel]. subst r.
  rewrite (verify_run cfg py w payload d _ Hwf Hitems). fold email.
  destruct (verify_txn_invalid_cart cfg py w email (PyStr.strip (p_code payload))
              (customer_name_of payload) (phone_of payload) d lines id
              Hbad Hf1 Hf2 Hf3 Hsel) as (o & c & Hrun & [-> | (e & -> & Hclass)]);
    rewrite Hrun.
  - left. reflexivity.
  - unfold verify_finish, rollback. cbn [resp snd].
    destruct Hclass as [Hv | [[-> Hinf] | ->]].
    + rewrite Hv. now left.
    + right. left. now split.
    + right. now right.
Qed.

(** A cart whose only line has an id too large for a float: the literal
    [1e999] is read as an infinity. *)
Definition infinite_id : pydict := [("id", JFloat (Float.FInf false)); ("qty", JInt 1)].

Lemma invalid_cart_is_rejected_witness :
  let payload := Ex.order_of "1234" [JDict infinite_id] in
  let r := verify_and_create_order Ex.cfg Ex.py Ex.calm payload Ex.shop in
  resp r = error_details 500 "Failed to create order."
             "cannot convert float infinity to integer"
  /\ status (resp r) <> 200
  /\ store r = Ex.shop
  /\ (status (resp r) = 400
      \/ (resp r = error_details 500 "Failed to create order." overflow_msg
          /\ Exists has_infinity [infinite_id])
      \/ resp r = error_details 500 "Failed to create order." decimal_overflow_msg).
Proof.
  intros payload r. split; [vm_compute; reflexivity |].
  destruct (invalid_cart_is_rejected Ex.cfg Ex.py Ex.calm payload Ex.shop [infinite_id])
    as (Hno & Hstore & Hclass).
  - reflexivity.
  - apply Exists_cons_hd. left. intros id. discriminate.
  - split; [exact Hno |]. split; [exact Hstore |].
    apply Hclass.
    + repeat split; try reflexivity. eexists. eexists. reflexivity.
    + reflexivity.
    + reflexivity.
    + reflexivity.
    + exists 1. vm_compute. reflexivity.
Defined.

(* ================================================================== *)
(** * Tracking, and the errors that are answered *)









(* ================================================================== *)
(** * Further example data *)

(** The order of the examples: two Kopi O for a@b.com with the code 1234,
    in the quiet moment at time 200. *)
Definition kopi_order : order_payload := Ex.order_of "1234" [Ex.line (JInt 1) (JInt 2)].

Lemma shop_one_pending : at_most_one_pending Ex.shop.
Proof.
  intros ident. unfold pending_for. simpl.
  destruct (is_pending_for ident Ex.challenge); simpl; lia.
Qed.

(** The shop with a customer row for a@b.com. *)
Definition known_customer : customer_row :=
  {| cust_id := 7; cust_business_name := "A"; cust_dealer_name := "A";
     cust_email := "a@b.com"; cust_phone_number := "N/A"; cust_address := "Punchbowl" |}.

Definition shop_with_customer : db := set_customer [known_customer] Ex.shop.

(** A store with one cancelled order. *)
Definition cancelled_order : order_row :=
  {| ord_id := 9; ord_ref_num := "KK260309000009"; ord_customer_name := "A";
     ord_customer_id := None;
     ord_amount := Some {| Dec.coeff := 1000; Dec.expo := -2 |};
     ord_items := Some "[]";
     ord_status := Some " Cancelled ";
     ord_invoice_sent := None; ord_paid := None; ord_date_created := None |}.

Definition cancelled_shop : db := set_orders [cancelled_order] Ex.shop.

(* ================================================================== *)
(** * verify-and-create: what an order leaves in the store *)

(** The customer an order is booked on: the newest row with the email, or
    a row that is added for it. *)
Definition with_customer (cfg : config) (email customer_name phone_number : string)
    (d : db) : Z * db :=
  match sql_select_customer email d with
  | Some id => (id, d)
  | None =>
      sql_insert_customer (PyStr.take 150 customer_name) (PyStr.take 100 customer_name)
        email (PyStr.take 25 phone_number) (shop_address cfg) d
  end.

(** The working copy when the transaction comes to the order insert: the
    sweep of expired challenges, the customer, the consumption of the code
    that was found. *)
Definition consumed (cfg : config) (w : world) (email customer_name phone_number : string)
    (id : Z) (d : db) : db :=
  sql_consume_code (now w) id
    (snd (with_customer cfg email customer_name phone_number
            (sql_supersede_expired (now w) email d))).

Lemma verify_prepare_store (cfg : config) (w : world) (email code : string)
    (raw_items : list json) (customer_name phone_number : string) (d : db)
    (p : prepared) (c : conn) :
  verify_prepare cfg w email code raw_items customer_name phone_number (connect d)
  = (Val p, c) ->
  exists id,
    sql_select_code (now w) email code (sql_supersede_expired (now w) email d) = Some id
    /\ pr_customer_id p
       = fst (with_customer cfg email customer_name phone_number
                (sql_supersede_expired (now w) email d))
    /\ working c = consumed cfg w email customer_name phone_number id d
    /\ pr_items p <> [].
Proof.
  unfold verify_prepare, update, query. intros H.
  apply bind_val in H. destruct H as (u & c1 & H1 & H).
  apply execute_val in H1. destruct H1 as (_ & _ & ->).
  apply bind_val in H. destruct H as (code_row & c2 & H2 & H).
  apply execute_val in H2. destruct H2 as (_ & Hsel & ->).
  destruct code_row as [id |]; [| discriminate].
  apply bind_val in H. destruct H as (ids & c3 & H3 & H).
  apply collect_menu_ids_val in H3. destruct H3 as [-> _].
  apply bind_val in H. destruct H as (menu_rows & c4 & H4 & H).
  apply execute_val in H4. destruct H4 as (_ & _ & ->).
  apply bind_val in H. destruct H as ([order_items order_total] & c5 & H5 & H).
  apply lift_val in H5. destruct H5 as [_ ->].
  destruct order_items as [| item items]; [discriminate |].
  apply bind_val in H. destruct H as (customer & c6 & H6 & H).
  apply execute_val in H6. destruct H6 as (_ & Hcust & ->).
  apply bind_val in H. destruct H as (customer_id & c7 & H7 & H).
  apply bind_val in H. destruct H as (u' & c8 & H8 & H).
  apply execute_val in H8. destruct H8 as (_ & _ & ->).
  inversion H; subst p c. clear H.
  simpl in Hsel, Hcust. exists id.
  split; [now rewrite Hsel |].
  unfold consumed, with_customer.
  destruct customer as [cid |].
  - inversion H7; subst. simpl. rewrite <- Hcust. simpl.
    repeat split. discriminate.
  - apply execute_val in H7. destruct H7 as (_ & -> & ->). simpl.
    rewrite <- Hcust. simpl. repeat split. discriminate.
Qed.

(** An answer 200 of verify-and-create, with the name and the phone number
    the handler works with. *)
Lemma verify_200_run (cfg : config) (py : pylib) (w : world) (payload : order_payload)
    (d : db) :
  let email := normalize_email (p_email payload) in
  let r := verify_and_create_order cfg py w payload d in
  status (resp r) = 200 ->
  exists raw_items p c n,
    p_items payload = JList raw_items
    /\ verify_prepare cfg w email (PyStr.strip (p_code payload)) raw_items
         (customer_name_of payload) (phone_of payload) (connect d) = (Val p, c)
    /\ (n < 8)%nat
    /\ r = verify_finish cfg w email
             (Val (created_at py w (customer_name_of payload) p n c),
              placed py w (customer_name_of payload) p n c).
Proof.
  intros email r H200.
  destruct (verify_200 cfg py w payload d H200) as (raw_items & _ & _ & _ & _ & Hwf & Hitems & _).
  exists raw_items. subst r. revert H200.
  rewrite (verify_run cfg py w payload d raw_items Hwf Hitems). fold email.
  destruct (verify_txn cfg py w email (PyStr.strip (p_code payload)) raw_items
              (customer_name_of payload) (phone_of payload) (connect d))
    as [[o | exc | r] c'] eqn:Hrun; intros H200.
  - unfold verify_txn in Hrun. apply bind_val in Hrun.
    destruct Hrun as (p & c & Hprep & Hplace).
    apply verify_place_val in Hplace.
    destruct Hplace as (n & Hn & _ & _ & _ & -> & ->).
    exists p, c, n. repeat split; assumption.
  - simpl in H200. destruct (is_ValueError exc); discriminate.
  - simpl in H200. exfalso.
    exact (returns_verify_txn cfg py w _ _ _ _ _ _ _ _ Hrun H200).
Qed.

(** The order row of round [n]. *)
Definition order_row_of (cfg : config) (py : pylib) (w : world) (payload : order_payload)
    (p : prepared) (n : nat) (d : db) : order_row :=
  {| ord_id := next_id (map ord_id (orders d));
     ord_ref_num := generate_ref_num (today w) (rand_ref w n);
     ord_customer_name := PyStr.take 100 (customer_name_of payload);
     ord_customer_id := Some (pr_customer_id p);
     ord_amount := Some (pr_total p);
     ord_items := Some (json_dumps py (pr_items p));
     ord_status := Some "Pending";
     ord_invoice_sent := Some "False";
     ord_paid := Some "False";
     ord_date_created := Some (now w) |}.

Lemma orders_consumed (cfg : config) (w : world) (email name phone : string) (id : Z)
    (d : db) :
  orders (consumed cfg w email name phone id d) = orders d
  /\ menu (consumed cfg w email name phone id d) = menu d.
Proof.
  unfold consumed, with_customer.
  destruct (sql_select_customer email _); split; reflexivity.
Qed.



(* ================================================================== *)
(** * Challenges are used once *)

(** A change of a challenge row that leaves it as it is or takes it out of
    the pending ones. *)
Definition lowers (f : code_verify_row -> code_verify_row) : Prop :=
  forall x, f x = x \/ cv_status (f x) <> 0.

Lemma not_pending (ident : string) (x : code_verify_row) :
  cv_status x <> 0 -> is_pending_for ident x = false.
Proof.
  intros H. unfold is_pending_for. apply andb_false_iff. right. now apply Z.eqb_neq.
Qed.

Lemma pending_map_lowers (f : code_verify_row -> code_verify_row) (ident : string)
    (rows : list code_verify_row) :
  lowers f ->
  incl (filter (is_pending_for ident) (map f rows)) (filter (is_pending_for ident) rows)
  /\ (List.length (filter (is_pending_for ident) (map f rows))
      <= List.length (filter (is_pending_for ident) rows))%nat.
Proof.
  intros Hf. induction rows as [| x rows [IHin IHlen]]; simpl.
  - split; [intros y Hy; exact Hy | lia].
  - destruct (Hf x) as [Hsame | Hlow].
    + rewrite Hsame. destruct (is_pending_for ident x); simpl.
      * split; [| lia]. intros y [Hy | Hy]; [now left | right; now apply IHin].
      * split; assumption.
    + rewrite (not_pending ident _ Hlow).
      destruct (is_pending_for ident x); simpl.
      * split; [| lia]. intros y Hy. right. now apply IHin.
      * split; assumption.
Qed.

Definition sweep_row (now : Z) (email : string) (r : code_verify_row) : code_verify_row :=
  if is_pending_for email r && sql_le (cv_expires_at r) now
  then set_cv_status 2 (cv_used_at r) r else r.

Definition consume_row (now : Z) (id : Z) (r : code_verify_row) : code_verify_row :=
  if cv_id r =? id then set_cv_status 1 (Some now) r else r.

Lemma lowers_sweep (now : Z) (email : string) : lowers (sweep_row now email).
Proof.
  intros x. unfold sweep_row.
  destruct (is_pending_for email x && sql_le (cv_expires_at x) now);
    [right; simpl; discriminate | now left].
Qed.

Lemma lowers_consume (now id : Z) : lowers (consume_row now id).
Proof.
  intros x. unfold consume_row.
  destruct (cv_id x =? id); [right; simpl; discriminate | now left].
Qed.

Lemma code_verify_consumed (cfg : config) (w : world) (email name phone : string)
    (id : Z) (d : db) :
  code_verify (consumed cfg w email name phone id d)
  = map (consume_row (now w) id) (map (sweep_row (now w) email) (code_verify d)).
Proof.
  unfold consumed, with_customer.
  destruct (sql_select_customer email _); reflexivity.
Qed.

(** The store an answer 200 of verify-and-create leaves. *)
Lemma verify_200_store (cfg : config) (py : pylib) (w : world) (payload : order_payload)
    (d : db) :
  let email := normalize_email (p_email payload) in
  let r := verify_and_create_order cfg py w payload d in
  status (resp r) = 200 ->
  exists id p n,
    sql_select_code (now w) email (PyStr.strip (p_code payload))
      (sql_supersede_expired (now w) email d) = Some id
    /\ (n < 8)%nat
    /\ pr_customer_id p
       = fst (with_customer cfg email (customer_name_of payload) (phone_of payload)
                (sql_supersede_expired (now w) email d))
    /\ store r
       = set_orders (orders d ++ [order_row_of cfg py w payload p n d])%list
           (consumed cfg w email (customer_name_of payload) (phone_of payload) id d)
    /\ exists raw_items ids,
        p_items payload = JList raw_items
        /\ build_order_items (snapshot ids d) raw_items = inl (pr_items p, pr_total p).
Proof.
  intros email r H200.
  destruct (verify_200_run cfg py w payload d H200)
    as (raw_items & p & c & n & Hitems & Hprep & Hn & Hr).
  fold email in Hprep, Hr. fold r in Hr.
  destruct (verify_prepare_store _ _ _ _ _ _ _ _ _ _ Hprep)
    as (id & Hsel & Hcust & Hwork & _).
  destruct (verify_prepare_val _ _ _ _ _ _ _ _ _ _ Hprep) as (ids & _ & Hbuild & _).
  destruct (orders_consumed cfg w email (customer_name_of payload) (phone_of payload) id d)
    as [Horders _].
  exists id, p, n.
  split; [exact Hsel |]. split; [exact Hn |]. split; [exact Hcust |].
  split; [| now exists raw_items, ids].
  rewrite Hr. unfold verify_finish.
  destruct (send_html_email w); cbn [store committed placed];
    unfold order_insert, sql_insert_order, order_row_of, ref_at;
    cbn [snd]; rewrite Hwork, Horders; reflexivity.
Qed.

Lemma code_verify_after_order (cfg : config) (py : pylib) (w : world)
    (payload : order_payload) (d : db) :
  let email := normalize_email (p_email payload) in
  let r := verify_and_create_order cfg py w payload d in
  status (resp r) = 200 ->
  exists id,
    sql_select_code (now w) email (PyStr.strip (p_code payload))
      (sql_supersede_expired (now w) email d) = Some id
    /\ code_verify (store r)
       = map (consume_row (now w) id) (map (sweep_row (now w) email) (code_verify d)).
Proof.
  intros email r H200.
  destruct (verify_200_store cfg py w payload d H200)
    as (id & p & n & Hsel & _ & _ & Hstore & _).
  exists id. split; [exact Hsel |].
  fold r in Hstore. rewrite Hstore. cbn [code_verify set_orders].
  apply code_verify_consumed.
Qed.

(** X2.  verify-and-create never makes a challenge pending: for every
    identifier, the challenges that are pending after a request, whatever
    its answer, were pending before it, and they are not more than before;
    so at most one pending challenge per identifier, if it held before the
    request, holds after it. *)
Theorem verify_only_retires_challenges (cfg : config) (py : pylib) (w : world)
    (payload : order_payload) (d : db) :
  let r := verify_and_create_order cfg py w payload d in
  (forall ident,
      incl (pending_for ident (store r)) (pending_for ident d)
      /\ (List.length (pending_for ident (store r))
          <= List.length (pending_for ident d))%nat)
  /\ (at_most_one_pending d -> at_most_one_pending (store r)).
Proof.
  intros r.
  assert (H : forall ident,
             incl (pending_for ident (store r)) (pending_for ident d)
             /\ (List.length (pending_for ident (store r))
                 <= List.length (pending_for ident d))%nat).
  { intros ident. destruct (Z.eq_dec (status (resp r)) 200) as [H200 | Hno].
    - destruct (code_verify_after_order cfg py w payload d H200) as (id & _ & Hrows).
      fold r in Hrows. unfold pending_for. rewrite Hrows.
      destruct (pending_map_lowers _ ident
                  (map (sweep_row (now w) (normalize_email (p_email payload)))
                       (code_verify d)) (lowers_consume (now w) id)) as [Hin1 Hlen1].
      destruct (pending_map_lowers _ ident (code_verify d)
                  (lowers_sweep (now w) (normalize_email (p_email payload))))
        as [Hin2 Hlen2].
      split; [| lia]. intros y Hy. apply Hin2, Hin1, Hy.
    - subst r. rewrite (verify_failure_keeps_store cfg py w payload d Hno).
      split; [intros y Hy; exact Hy | lia]. }
  split; [exact H |].
  intros Hinv ident. destruct (H ident) as [_ Hlen]. specialize (Hinv ident). lia.
Qed.

Lemma verify_only_retires_challenges_witness :
  let r := verify_and_create_order Ex.cfg Ex.py Ex.calm kopi_order Ex.shop in
  pending_for "a@b.com" Ex.shop = [Ex.challenge]
  /\ pending_for "a@b.com" (store r) = []
  /\ at_most_one_pending (store r).
Proof.
  intros r. split; [reflexivity |]. split; [reflexivity |].
  destruct (verify_only_retires_challenges Ex.cfg Ex.py Ex.calm kopi_order Ex.shop)
    as [_ Hinv].
  exact (Hinv shop_one_pending).
Defined.

Lemma at_most_one_same (rows : list code_verify_row) (a b : code_verify_row) :
  (List.length rows <= 1)%nat -> In a rows -> In b rows -> a = b.
Proof.
  destruct rows as [| x [| y rows]]; simpl; intros Hlen Ha Hb.
  - contradiction.
  - destruct Ha as [<- | []]. destruct Hb as [<- | []]. reflexivity.
  - lia.
Qed.

Lemma live_is_pending (now : Z) (email code : string) (r : code_verify_row) :
  live_challenge now email code r -> is_pending_for email r = true.
Proof.
  intros (Hid & _ & Hst & _). unfold is_pending_for.
  rewrite Hid, Hst, String.eqb_refl. reflexivity.
Qed.

(** X3.  A challenge is used once.  When verify-and-create answers 200, the
    row its lookup found was a pending, unexpired challenge of the store
    with this email and code; in the store the request leaves, every row
    with the id of that row is consumed, with the time of the request as
    [used_at].  Where the store held at most one pending challenge per
    identifier, no challenge of the email is pending afterwards, and no
    later verify-and-create for the email, with this or any other code, is
    answered 200 or changes the store. *)
Theorem challenge_is_used_once (cfg : config) (py : pylib) (w : world)
    (payload : order_payload) (d : db) :
  let email := normalize_email (p_email payload) in
  let r := verify_and_create_order cfg py w payload d in
  status (resp r) = 200 ->
  exists found,
    In found (code_verify d)
    /\ live_challenge (now w) email (PyStr.strip (p_code payload)) found
    /\ (forall x, In x (code_verify (store r)) -> cv_id x = cv_id found ->
                  cv_status x = 1 /\ cv_used_at x = Some (now w))
    /\ (at_most_one_pending d ->
        pending_for email (store r) = []
        /\ forall cfg' py' w' payload',
             normalize_email (p_email payload') = email ->
             let r' := verify_and_create_order cfg' py' w' payload' (store r) in
             status (resp r') <> 200 /\ store r' = store r).
Proof.
  intros email r H200.
  destruct (code_verify_after_order cfg py w payload d H200) as (id & Hsel & Hrows).
  fold email in Hsel, Hrows. fold r in Hrows.
  destruct (select_code_some _ _ _ _ _ Hsel) as (found & Hin & Hlive & Hid).
  exists found.
  assert (Hind : In found (code_verify d)).
  { apply (pending_after_sweep (now w) email d found Hin).
    now destruct Hlive as (_ & _ & Hst & _). }
  split; [exact Hind |]. split; [exact Hlive |]. split.
  { intros x Hx Hsame. rewrite Hrows in Hx.
    apply in_map_iff in Hx. destruct Hx as (y & <- & _).
    unfold consume_row in *. destruct (cv_id y =? id) eqn:Heq.
    - split; reflexivity.
    - apply Z.eqb_neq in Heq. congruence. }
  intros Hinv.
  assert (Hnone : pending_for email (store r) = []).
  { destruct (pending_for email (store r)) as [| y rest] eqn:Hp; [reflexivity |].
    exfalso.
    assert (Hy : In y (pending_for email (store r))) by (rewrite Hp; now left).
    unfold pending_for in Hy. rewrite Hrows in Hy.
    apply filter_In in Hy. destruct Hy as [Hy Hpend].
    apply in_map_iff in Hy. destruct Hy as (x & Hx & Hxin).
    unfold consume_row in Hx. destruct (cv_id x =? id) eqn:Heq.
    - subst y. unfold is_pending_for in Hpend. simpl in Hpend.
      rewrite andb_false_r in Hpend. discriminate.
    - subst y. apply Z.eqb_neq in Heq. apply Heq. rewrite <- Hid.
      f_equal. apply (at_most_one_same (pending_for email (sql_supersede_expired (now w) email d))).
      + destruct (pending_map_lowers _ email (code_verify d) (lowers_sweep (now w) email))
          as [_ Hlen].
        specialize (Hinv email). unfold pending_for in *.
        unfold sql_supersede_expired. cbn [code_verify set_code_verify].
        fold (sweep_row (now w) email) in *. lia.
      + unfold pending_for. apply filter_In. split; [| exact Hpend].
        unfold sql_supersede_expired. cbn [code_verify set_code_verify]. exact Hxin.
      + unfold pending_for. apply filter_In. split; [exact Hin |].
        exact (live_is_pending _ _ _ _ Hlive). }
  split; [exact Hnone |].
  intros cfg' py' w' payload' Hemail r'.
  apply verify_needs_live_challenge.
  rewrite Hemail, Hnone. intros x [].
Qed.

Lemma challenge_is_used_once_witness :
  let r := verify_and_create_order Ex.cfg Ex.py Ex.calm kopi_order Ex.shop in
  let again := verify_and_create_order Ex.cfg Ex.py (Ex.at_time 201 Ex.calm) kopi_order
                 (store r) in
  status (resp r) = 200
  /\ resp again = error 400 "Verification code is invalid or expired."
  /\ pending_for "a@b.com" (store r) = []
  /\ status (resp again) <> 200
  /\ store again = store r.
Proof.
  intros r again. split; [reflexivity |]. split; [reflexivity |].
  destruct (challenge_is_used_once Ex.cfg Ex.py Ex.calm kopi_order Ex.shop eq_refl)
    as (found & _ & _ & _ & Hinv).
  destruct (Hinv shop_one_pending) as [Hnone Hreplay].
  split; [exact Hnone |].
  exact (Hreplay Ex.cfg Ex.py (Ex.at_time 201 Ex.calm) kopi_order eq_refl).
Defined.

(* ================================================================== *)
(** * The customer of an order *)

Lemma max_id_spec (ids : list Z) :
  forall best,
    match max_id best ids with
    | None => best = None /\ ids = []
    | Some m =>
        (best = Some m \/ In m ids)
        /\ (forall b, best = Some b -> b <= m)
        /\ (forall i, In i ids -> i <= m)
    end.
Proof.
  induction ids as [| i ids IH]; intros best; simpl.
  - destruct best as [b |]; [| now split].
    split; [now left |]. split; [| contradiction].
    intros b' Hb. inversion Hb. lia.
  - destruct best as [b |].
    + destruct (b <? i) eqn:Hlt.
      * specialize (IH (Some i)). destruct (max_id (Some i) ids) as [m |].
        -- destruct IH as (Hm & Hbest & Hall). apply Z.ltb_lt in Hlt.
           specialize (Hbest i eq_refl).
           split; [destruct Hm as [Hm | Hm]; [inversion Hm; right; now left | tauto] |].
           split; [intros b' Hb; inversion Hb; lia |].
           intros j [<- | Hj]; [lia | now apply Hall].
        -- destruct IH as [IH _]. discriminate.
      * specialize (IH (Some b)). destruct (max_id (Some b) ids) as [m |].
        -- destruct IH as (Hm & Hbest & Hall). apply Z.ltb_ge in Hlt.
           specialize (Hbest b eq_refl).
           split; [tauto |]. split; [intros b' Hb; inversion Hb; lia |].
           intros j [<- | Hj]; [lia | now apply Hall].
        -- destruct IH as [IH _]. discriminate.
    + specialize (IH (Some i)). destruct (max_id (Some i) ids) as [m |].
      * destruct IH as (Hm & Hbest & Hall). specialize (Hbest i eq_refl).
        split; [destruct Hm as [Hm | Hm]; [inversion Hm; right; now left | tauto] |].
        split; [discriminate |].
        intros j [<- | Hj]; [lia | now apply Hall].
      * destruct IH as [IH _]. discriminate.
Qed.

(** The lookup of the customer: no row has the email, or the id found is
    the largest id of the rows with the email. *)
Lemma select_customer_spec (email : string) (d : db) :
  match sql_select_customer email d with
  | None => forall x, In x (customer d) -> cust_email x <> email
  | Some id =>
      (exists x, In x (customer d) /\ cust_email x = email /\ cust_id x = id)
      /\ (forall x, In x (customer d) -> cust_email x = email -> cust_id x <= id)
  end.
Proof.
  unfold sql_select_customer.
  set (mine := filter (fun c => String.eqb (cust_email c) email) (customer d)).
  pose proof (max_id_spec (map cust_id mine) None) as H.
  destruct (max_id None (map cust_id mine)) as [id |].
  - destruct H as ([Hm | Hm] & _ & Hall); [discriminate |].
    apply in_map_iff in Hm. destruct Hm as (x & Hid & Hx).
    apply filter_In in Hx. destruct Hx as [Hx Heq]. apply String.eqb_eq in Heq.
    split; [now exists x |].
    intros y Hy Hemail. apply Hall. apply in_map. apply filter_In.
    split; [assumption |]. now apply String.eqb_eq.
  - destruct H as [_ Hnil]. intros x Hx Hemail.
    assert (Hin : In x mine).
    { apply filter_In. split; [assumption |]. now apply String.eqb_eq. }
    apply (in_map cust_id) in Hin. rewrite Hnil in Hin. contradiction.
Qed.

(** X4.  An order is booked on the customer of its email.  When
    verify-and-create answers 200: if the store has customer rows with the
    normalised email, no customer row is written and the order carries the
    largest id of those rows; if it has none, exactly one customer row is
    appended, with the email, the name cut to 150 and to 100 characters, the
    phone number cut to 25 and the address of the shop, and the order
    carries its id. *)
Theorem order_reuses_customer (cfg : config) (py : pylib) (w : world)
    (payload : order_payload) (d : db) :
  let email := normalize_email (p_email payload) in
  let r := verify_and_create_order cfg py w payload d in
  status (resp r) = 200 ->
  exists row cid,
    orders (store r) = (orders d ++ [row])%list
    /\ ord_customer_id row = Some cid
    /\ ((exists x, In x (customer d) /\ cust_email x = email) ->
        customer (store r) = customer d
        /\ (exists x, In x (customer d) /\ cust_email x = email /\ cust_id x = cid)
        /\ (forall x, In x (customer d) -> cust_email x = email -> cust_id x <= cid))
    /\ ((forall x, In x (customer d) -> cust_email x <> email) ->
        customer (store r)
        = (customer d
             ++ [{| cust_id := cid;
                    cust_business_name := PyStr.take 150 (customer_name_of payload);
                    cust_dealer_name := PyStr.take 100 (customer_name_of payload);
                    cust_email := email;
                    cust_phone_number := PyStr.take 25 (phone_of payload);
                    cust_address := shop_address cfg |}])%list
        /\ cid = next_id (map cust_id (customer d))).
Proof.
  intros email r H200.
  destruct (verify_200_store cfg py w payload d H200)
    as (id & p & n & _ & _ & Hcust & Hstore & _).
  fold email in Hcust, Hstore. fold r in Hstore.
  exists (order_row_of cfg py w payload p n d), (pr_customer_id p).
  rewrite Hstore. cbn [orders customer set_orders order_row_of ord_customer_id].
  split; [reflexivity |]. split; [reflexivity |].
  unfold consumed. cbn [customer sql_consume_code set_code_verify].
  rewrite Hcust. unfold with_customer.
  pose proof (select_customer_spec email (sql_supersede_expired (now w) email d)) as Hsel.
  cbn [customer sql_supersede_expired set_code_verify] in Hsel.
  destruct (sql_select_customer email (sql_supersede_expired (now w) email d)) as [cid |].
  - destruct Hsel as [Hex Hmax]. split.
    + intros _. cbn [fst snd customer sql_supersede_expired set_code_verify].
      repeat split; assumption.
    + intros Hno. destruct Hex as (x & Hx & Hemail & _). elim (Hno x Hx Hemail).
  - split.
    + intros (x & Hx & Hemail). elim (Hsel x Hx Hemail).
    + intros _. split; reflexivity.
Qed.

Lemma order_reuses_customer_witness :
  let r := verify_and_create_order Ex.cfg Ex.py Ex.calm kopi_order Ex.shop in
  let r' := verify_and_create_order Ex.cfg Ex.py Ex.calm kopi_order shop_with_customer in
  (exists row,
      orders (store r) = [row] /\ ord_customer_id row = Some 1
      /\ map cust_email (customer (store r)) = ["a@b.com"]
      /\ map cust_dealer_name (customer (store r)) = ["A"])
  /\ (exists row cid,
         orders (store r') = (orders shop_with_customer ++ [row])%list
         /\ ord_customer_id row = Some cid
         /\ customer (store r') = [known_customer]
         /\ cid = 7).
Proof.
  intros r r'. split.
  - destruct (order_reuses_customer Ex.cfg Ex.py Ex.calm kopi_order Ex.shop eq_refl)
      as (row & cid & Horders & Hcid & _ & Hnew).
    destruct Hnew as [Hcust ->]; [intros x [] |].
    exists row. fold r in Horders, Hcust. rewrite Horders, Hcust, Hcid.
    repeat split; reflexivity.
  - destruct (order_reuses_customer Ex.cfg Ex.py Ex.calm kopi_order shop_with_customer
                eq_refl) as (row & cid & Horders & Hcid & Hold & _).
    destruct Hold as (Hcust & (x & Hx & _ & Hid) & _).
    { exists known_customer. split; [now left | reflexivity]. }
    exists row, cid. fold r' in Horders, Hcust.
    split; [exact Horders |]. split; [exact Hcid |]. split; [exact Hcust |].
    destruct Hx as [<- | []]. symmetry. exact Hid.
Defined.

(* ================================================================== *)
(** * The answers of the handlers *)

(** What a computation can end with: its early answers, its exceptions and
    its values. *)
Definition answers {A} (P : response -> Prop) (m : M A) : Prop :=
  forall c r c', m c = (Return r, c') -> P r.

Definition raises {A} (Q : exn -> Prop) (m : M A) : Prop :=
  forall c e c', m c = (Raise e, c') -> Q e.








Lemma answers_return {A} (P : response -> Prop) (r : response) :
  P r -> answers P (@return_ A r).
Proof. intros Hr c r' c' H. inversion H; subst. exact Hr. Qed.







Lemma raises_return {A} (Q : exn -> Prop) (r : response) : raises Q (@return_ A r).
Proof. intros c e c' H. discriminate. Qed.














Section AnswerFacts.

Variable cfg : config.
Variable py : pylib.
Variable w : world.








End AnswerFacts.





(* ================================================================== *)
(** * Tracking reads *)

Lemma select_order_none (ref_num : string) (d : db) :
  sql_select_order ref_num d = None
  <-> forall o, In o (orders d) -> ord_ref_num o <> ref_num.
Proof.
  unfold sql_select_order.
  destruct (filter (fun o => String.eqb (ord_ref_num o) ref_num) (orders d))
    as [| o rest] eqn:Hf.
  - split; [| reflexivity]. intros _ o Hin Heq.
    assert (Ho : In o (filter (fun o => String.eqb (ord_ref_num o) ref_num) (orders d))).
    { apply filter_In. split; [assumption |]. now apply String.eqb_eq. }
    rewrite Hf in Ho. contradiction.
  - split; [discriminate |]. intros Hno. exfalso.
    assert (Ho : In o (filter (fun o => String.eqb (ord_ref_num o) ref_num) (orders d))).
    { rewrite Hf. now left. }
    apply filter_In in Ho. destruct Ho as [Hin Heq]. apply String.eqb_eq in Heq.
    exact (Hno o Hin Heq).
Qed.

(** X7.  A tracking read writes nothing: whatever the reference and
    whatever fails, the store is the one the request found, and the read
    runs at most its one [SELECT], with no commit.  A blank reference is
    answered 400 before anything is executed; a statement that fails is
    answered 500 "Database error" with the text of the error; and where the
    statement goes through, the answer is 404 "Order not found." exactly
    when no order has the trimmed reference. *)
Theorem tracking_reads_only (py : pylib) (w : world) (ref_num : string) (d : db) :
  let r := get_order_tracking py w ref_num d in
  let ref := PyStr.strip ref_num in
  store r = d
  /\ (events r = [] \/ events r = [EvExecute TR_select])
  /\ (PyStr.is_empty ref = true ->
      resp r = error 400 "Order reference is required." /\ events r = [])
  /\ (PyStr.is_empty ref = false ->
      events r = [EvExecute TR_select]
      /\ (forall err,
             db_fault w TR_select = Some err ->
             resp r = error_details 500 "Database error" (err_msg err))
      /\ (db_fault w TR_select = None ->
          (resp r = error 404 "Order not found."
           <-> forall o, In o (orders d) -> ord_ref_num o <> ref))).
Proof.
  intros r ref. subst r. unfold get_order_tracking. fold ref.
  destruct (PyStr.is_empty ref) eqn:Hblank.
  { split; [reflexivity |]. split; [now left |].
    split; [intros _; split; reflexivity | discriminate]. }
  unfold query, execute.
  destruct (db_fault w TR_select) as [err |] eqn:Hf.
  { cbn [resp store events committed trace log connect].
    split; [reflexivity |]. split; [now right |]. split; [discriminate |].
    intros _. split; [reflexivity |]. split; [| discriminate].
    intros err' Herr. inversion Herr; subst. now rewrite exn_str_db. }
  cbn [working connect fst snd log].
  pose proof (select_order_none ref d) as Hnone.
  destruct (sql_select_order ref d) as [[row email] |].
  - destruct (track_items py (parse_items py (ord_items row))) as [items | exc];
      cbn [resp store events committed trace set_working];
      (split; [reflexivity |]); (split; [now right |]); (split; [discriminate |]);
      intros _; (split; [reflexivity |]); (split; [discriminate |]);
      intros _; split.
    + discriminate.
    + intros Hno. apply Hnone in Hno. discriminate.
    + discriminate.
    + intros Hno. apply Hnone in Hno. discriminate.
  - cbn [resp store events committed trace set_working].
    split; [reflexivity |]. split; [now right |]. split; [discriminate |].
    intros _. split; [reflexivity |]. split; [discriminate |].
    intros _. split; [intros _; now apply Hnone | reflexivity].
Qed.

Lemma tracking_reads_only_witness :
  let blank := get_order_tracking Ex.py Ex.calm "  " cancelled_shop in
  let unknown := get_order_tracking Ex.py Ex.calm "KK1" cancelled_shop in
  let down := get_order_tracking Ex.py (Ex.with_faults (fun _ => Some Ex.lost) Ex.calm)
                "KK260309000009" cancelled_shop in
  (resp blank = error 400 "Order reference is required." /\ events blank = [])
  /\ (resp unknown = error 404 "Order not found." /\ store unknown = cancelled_shop)
  /\ (resp down = error_details 500 "Database error" (err_msg Ex.lost)
      /\ store down = cancelled_shop).
Proof.
  intros blank unknown down.
  destruct (tracking_reads_only Ex.py Ex.calm "  " cancelled_shop) as (_ & _ & Hblank & _).
  destruct (tracking_reads_only Ex.py Ex.calm "KK1" cancelled_shop)
    as (Hstore & _ & _ & Hfound).
  destruct (tracking_reads_only Ex.py (Ex.with_faults (fun _ => Some Ex.lost) Ex.calm)
              "KK260309000009" cancelled_shop) as (Hstore' & _ & _ & Hdown).
  split; [exact (Hblank eq_refl) |]. split.
  - split; [| exact Hstore].
    destruct (Hfound eq_refl) as (_ & _ & Hnone).
    apply (Hnone eq_refl). intros o [<- | []]. discriminate.
  - split; [| exact Hstore'].
    destruct (Hdown eq_refl) as (_ & Herr & _).
    exact (Herr Ex.lost eq_refl).
Defined.

(** X8.  The status a tracking read shows.  In every answer 200 the key
    [order_status] is one of three, and label, step and flag go with it:
    [cancelled] is shown with the label "Pending" at step 0 with
    [is_cancelled] true; [ready_for_pickup] with "Ready for Pickup" at step 1;
    [pending] with "Pending" at step 0; the status of the row is passed on
    unchanged as [db_status]. *)
Theorem tracking_status_shown (py : pylib) (w : world) (ref_num : string) (d : db) :
  let r := get_order_tracking py w ref_num d in
  status (resp r) = 200 ->
  exists row email members order key label step flag,
    sql_select_order (PyStr.strip ref_num) d = Some (row, email)
    /\ key = normalize_tracking_status (ord_status row)
    /\ body (resp r) = JDict members
    /\ dict_find "order" members = Some (JDict order)
    /\ dict_find "order_status" order = Some (JStr key)
    /\ dict_find "order_status_label" order = Some (JStr label)
    /\ dict_find "db_status" order = Some (option_json (ord_status row))
    /\ dict_find "current_index" members = Some (JInt step)
    /\ dict_find "is_cancelled" members = Some (JBool flag)
    /\ ((key = "cancelled" /\ label = "Pending" /\ step = 0 /\ flag = true)
        \/ (key = "ready_for_pickup" /\ label = "Ready for Pickup" /\ step = 1
            /\ flag = false)
        \/ (key = "pending" /\ label = "Pending" /\ step = 0 /\ flag = false)).
Proof.
  intros r. subst r. unfold get_order_tracking.
  destruct (PyStr.is_empty (PyStr.strip ref_num)); [simpl; discriminate |].
  unfold query, execute.
  destruct (db_fault w TR_select) as [err |]; [simpl; discriminate |].
  cbn [working connect fst snd log].
  destruct (sql_select_order (PyStr.strip ref_num) d) as [[row email] |];
    [| simpl; discriminate].
  destruct (track_items py (parse_items py (ord_items row))) as [items | exc];
    [| simpl; discriminate].
  intros _. cbn [resp body].
  unfold normalize_tracking_status.
  destruct (String.eqb (tracking_key (ord_status row)) "cancelled") eqn:Hc.
  - exists row, email. eexists. eexists. exists "cancelled", "Pending", 0, true.
    rewrite Hc. repeat (split; [reflexivity |]). left. repeat split.
  - destruct (str_in (tracking_key (ord_status row)) ready_synonyms) eqn:Hs.
    + exists row, email. eexists. eexists.
      exists "ready_for_pickup", "Ready for Pickup", 1, false.
      rewrite Hc, Hs. repeat (split; [reflexivity |]). right. left. repeat split.
    + exists row, email. eexists. eexists. exists "pending", "Pending", 0, false.
      rewrite Hc, Hs. repeat (split; [reflexivity |]). right. right. repeat split.
Qed.

Lemma tracking_status_shown_witness :
  let r := get_order_tracking Ex.py Ex.calm "KK260309000009" cancelled_shop in
  exists row email members order key label step flag,
    sql_select_order (PyStr.strip "KK260309000009") cancelled_shop = Some (row, email)
    /\ key = normalize_tracking_status (ord_status row)
    /\ body (resp r) = JDict members
    /\ dict_find "order" members = Some (JDict order)
    /\ dict_find "order_status" order = Some (JStr key)
    /\ dict_find "order_status_label" order = Some (JStr label)
    /\ dict_find "db_status" order = Some (option_json (ord_status row))
    /\ dict_find "current_index" members = Some (JInt step)
    /\ dict_find "is_cancelled" members = Some (JBool flag)
    /\ ((key = "cancelled" /\ label = "Pending" /\ step = 0 /\ flag = true)
        \/ (key = "ready_for_pickup" /\ label = "Ready for Pickup" /\ step = 1
            /\ flag = false)
        \/ (key = "pending" /\ label = "Pending" /\ step = 0 /\ flag = false)).
Proof.
  intros r.
  apply (tracking_status_shown Ex.py Ex.calm "KK260309000009" cancelled_shop).
  reflexivity.
Defined.

(* ================================================================== *)
(** * Codes and reference numbers *)

Lemma length_append (s1 s2 : string) :
  String.length (s1 ++ s2) = (String.length s1 + String.length s2)%nat.
Proof. induction s1 as [| c s1 IH]; simpl; [reflexivity | now rewrite IH]. Qed.

Lemma all_append (p : ascii -> bool) (s1 s2 : string) :
  PyStr.all p (s1 ++ s2) = PyStr.all p s1 && PyStr.all p s2.
Proof.
  induction s1 as [| c s1 IH]; simpl; [reflexivity |].
  now rewrite IH, andb_assoc.
Qed.

Lemma rev_onto_length (s acc : string) :
  String.length (rev_onto s acc) = (String.length s + String.length acc)%nat.
Proof.
  revert acc. induction s as [| c s IH]; intros acc; simpl; [reflexivity |].
  rewrite IH. simpl. lia.
Qed.

Lemma rev_onto_all (p : ascii -> bool) (s acc : string) :
  PyStr.all p (rev_onto s acc) = PyStr.all p s && PyStr.all p acc.
Proof.
  revert acc. induction s as [| c s IH]; intros acc; simpl; [reflexivity |].
  rewrite IH. simpl. destruct (p c), (PyStr.all p s); reflexivity.
Qed.

Lemma digit_char_spec (n : Z) :
  PyStr.is_digit (digit_char n) = true
  /\ PyStr.code (digit_char n) - 48 = n mod 10
  /\ PyStr.is_space (digit_char n) = false.
Proof.
  unfold digit_char.
  assert (H : 0 <= n mod 10 < 10) by (apply Z.mod_pos_bound; lia).
  assert (Hc : n mod 10 = 0 \/ n mod 10 = 1 \/ n mod 10 = 2 \/ n mod 10 = 3
               \/ n mod 10 = 4 \/ n mod 10 = 5 \/ n mod 10 = 6 \/ n mod 10 = 7
               \/ n mod 10 = 8 \/ n mod 10 = 9) by lia.
  repeat (destruct Hc as [Hc | Hc]; [rewrite Hc; repeat split; reflexivity |]).
  rewrite Hc. repeat split; reflexivity.
Qed.

Lemma digits_rev_all (fuel : nat) :
  forall n, PyStr.all PyStr.is_digit (digits_rev fuel n) = true.
Proof.
  induction fuel as [| fuel IH]; intros n; simpl; [reflexivity |].
  destruct (digit_char_spec n) as (Hd & _).
  destruct (n <? 10); simpl; rewrite Hd; [reflexivity | apply IH].
Qed.

Lemma digits_rev_length (fuel : nat) :
  forall k n,
    (1 <= k)%nat -> 0 <= n < 10 ^ Z.of_nat k ->
    (String.length (digits_rev fuel n) <= k)%nat.
Proof.
  induction fuel as [| fuel IH]; intros k n Hk Hn; simpl; [lia |].
  destruct (n <? 10) eqn:Hlt; simpl; [lia |].
  apply Z.ltb_ge in Hlt.
  destruct k as [| [| k]]; [lia | change (10 ^ Z.of_nat 1) with 10 in Hn; lia |].
  assert (Hdiv : 0 <= n / 10 < 10 ^ Z.of_nat (S k)).
  { split; [apply Z.div_pos; lia |].
    apply Z.div_lt_upper_bound; [lia |].
    replace (Z.of_nat (S (S k))) with (Z.succ (Z.of_nat (S k))) in Hn by lia.
    rewrite Z.pow_succ_r in Hn by lia. lia. }
  specialize (IH (S k) (n / 10) ltac:(lia) Hdiv). lia.
Qed.

Lemma zeros_spec (k : nat) :
  String.length (zeros k) = k /\ PyStr.all PyStr.is_digit (zeros k) = true.
Proof. induction k as [| k [IHl IHa]]; simpl; [now split | split; [lia | exact IHa]]. Qed.

Lemma str_nat_digits (n : Z) : PyStr.all PyStr.is_digit (str_nat n) = true.
Proof. unfold str_nat. rewrite rev_onto_all, digits_rev_all. reflexivity. Qed.

Lemma str_nat_length (k : nat) (n : Z) :
  (1 <= k)%nat -> 0 <= n < 10 ^ Z.of_nat k -> (String.length (str_nat n) <= k)%nat.
Proof.
  intros Hk Hn. unfold str_nat. rewrite rev_onto_length. cbn [String.length].
  pose proof (digits_rev_length (S (Z.to_nat (Z.log2 n))) k n Hk Hn). lia.
Qed.

(** [f"{n:0{w}d}"] has [w] digits when [n] has no more than [w]. *)
Lemma zero_pad_spec (width : nat) (n : Z) :
  (1 <= width)%nat -> 0 <= n < 10 ^ Z.of_nat width ->
  String.length (zero_pad width n) = width
  /\ PyStr.all PyStr.is_digit (zero_pad width n) = true.
Proof.
  intros Hw Hn. unfold zero_pad.
  pose proof (str_nat_length width n Hw Hn) as Hlen.
  destruct (zeros_spec (width - String.length (str_nat n))) as [Hzl Hza].
  split.
  - rewrite length_append, Hzl. lia.
  - rewrite all_append, Hza, str_nat_digits. reflexivity.
Qed.

(** Reading digits back. *)
Lemma parse_digit (acc : Z) (b : bool) (n : Z) (t : string) :
  parse_digits acc b (String (digit_char n) t)
  = parse_digits (10 * acc + n mod 10) true t.
Proof.
  destruct (digit_char_spec n) as (Hd & Hv & _).
  simpl. rewrite Hd, Hv. reflexivity.
Qed.

Lemma digits_rev_S (fuel : nat) (n : Z) :
  digits_rev (S fuel) n
  = if n <? 10 then String (digit_char n) EmptyString
    else String (digit_char n) (digits_rev fuel (n / 10)).
Proof. reflexivity. Qed.

Lemma parse_digits_rev (fuel : nat) :
  forall n acc b t,
    0 <= n < 10 ^ Z.of_nat (S fuel) ->
    parse_digits acc b (rev_onto (digits_rev (S fuel) n) t)
    = parse_digits
        (acc * 10 ^ Z.of_nat (String.length (digits_rev (S fuel) n)) + n) true t.
Proof.
  induction fuel as [| fuel IH]; intros n acc b t Hn.
  - change (10 ^ Z.of_nat 1) with 10 in Hn. rewrite digits_rev_S.
    replace (n <? 10) with true by (symmetry; apply Z.ltb_lt; lia).
    cbn [rev_onto String.length]. rewrite parse_digit.
    rewrite Z.mod_small by lia. f_equal. change (10 ^ Z.of_nat 1) with 10. lia.
  - rewrite (digits_rev_S (S fuel) n). destruct (n <? 10) eqn:Hlt.
    + apply Z.ltb_lt in Hlt. cbn [rev_onto String.length]. rewrite parse_digit.
      rewrite Z.mod_small by lia. f_equal. change (10 ^ Z.of_nat 1) with 10. lia.
    + apply Z.ltb_ge in Hlt. cbn [rev_onto].
      assert (Hdiv : 0 <= n / 10 < 10 ^ Z.of_nat (S fuel)).
      { split; [apply Z.div_pos; lia |].
        apply Z.div_lt_upper_bound; [lia |].
        replace (Z.of_nat (S (S fuel))) with (Z.succ (Z.of_nat (S fuel))) in Hn by lia.
        rewrite Z.pow_succ_r in Hn by lia. lia. }
      rewrite (IH (n / 10) acc b (String (digit_char n) t) Hdiv).
      rewrite parse_digit. f_equal.
      change (String.length (String (digit_char n) (digits_rev (S fuel) (n / 10))))
        with (S (String.length (digits_rev (S fuel) (n / 10)))).
      rewrite Nat2Z.inj_succ, Z.pow_succ_r by lia.
      pose proof (Z.div_mod n 10 ltac:(lia)). lia.
Qed.

Lemma log2_fuel (n : Z) : 0 <= n -> n < 10 ^ Z.of_nat (S (Z.to_nat (Z.log2 n))).
Proof.
  intros Hn. rewrite Nat2Z.inj_succ, Z2Nat.id by apply Z.log2_nonneg.
  destruct (Z.eq_dec n 0) as [-> | Hne]; [reflexivity |].
  pose proof (Z.log2_spec n ltac:(lia)) as [_ Hup].
  apply Z.lt_le_trans with (2 ^ Z.succ (Z.log2 n)); [exact Hup |].
  apply Z.pow_le_mono_l. lia.
Qed.

Lemma parse_str_nat (n : Z) (b : bool) : 0 <= n -> parse_digits 0 b (str_nat n) = Some n.
Proof.
  intros Hn. unfold str_nat.
  rewrite parse_digits_rev by (split; [exact Hn | now apply log2_fuel]).
  reflexivity.
Qed.

Lemma parse_zeros (k : nat) (s : string) :
  forall b, parse_digits 0 b (zeros k ++ s)
            = parse_digits 0 (b || negb (Nat.eqb k 0)) s.
Proof.
  induction k as [| k IH]; intros b; simpl.
  - now rewrite orb_false_r.
  - rewrite IH. simpl. now rewrite orb_true_r.
Qed.

(** A string of digits is left as it is by [strip]. *)
Lemma lstrip_digits (s : string) :
  PyStr.all PyStr.is_digit s = true -> PyStr.lstrip s = s.
Proof.
  destruct s as [| c s]; [reflexivity |]. simpl. intros H.
  apply andb_true_iff in H. destruct H as [Hc _].
  replace (PyStr.is_space c) with false; [reflexivity |].
  destruct c as [[] [] [] [] [] [] [] []]; try discriminate; reflexivity.
Qed.

Lemma rstrip_digits (s : string) :
  PyStr.all PyStr.is_digit s = true -> PyStr.rstrip s = s.
Proof.
  induction s as [| c s IH]; [reflexivity |]. simpl. intros H.
  apply andb_true_iff in H. destruct H as [Hc Hs]. rewrite (IH Hs).
  destruct s as [| c' s'].
  - replace (PyStr.is_space c) with false; [reflexivity |].
    destruct c as [[] [] [] [] [] [] [] []]; try discriminate; reflexivity.
  - reflexivity.
Qed.

Lemma strip_digits (s : string) :
  PyStr.all PyStr.is_digit s = true -> PyStr.strip s = s.
Proof.
  intros H. unfold PyStr.strip. rewrite (lstrip_digits s H). now apply rstrip_digits.
Qed.

Lemma int_of_digits (s : string) :
  PyStr.all PyStr.is_digit s = true -> int_of_str s = parse_digits 0 false s.
Proof.
  intros H. unfold int_of_str. rewrite (strip_digits s H).
  destruct s as [| c s]; [reflexivity |].
  simpl in H. apply andb_true_iff in H. destruct H as [Hc _].
  destruct c as [[] [] [] [] [] [] [] []]; try discriminate; reflexivity.
Qed.

Lemma int_of_zero_pad (width : nat) (n : Z) :
  0 <= n -> int_of_str (zero_pad width n) = Some n.
Proof.
  intros Hn.
  assert (Hd : PyStr.all PyStr.is_digit (zero_pad width n) = true).
  { unfold zero_pad. rewrite all_append, str_nat_digits.
    now destruct (zeros_spec (width - String.length (str_nat n))) as [_ ->]. }
  rewrite (int_of_digits _ Hd). unfold zero_pad.
  rewrite parse_zeros. now apply parse_str_nat.
Qed.

(** X9.  Every code [generate_otp_code] makes from a draw of
    [random.randint(0, 9999)] has exactly four digits, comes through [strip]
    unchanged and passes the format check of verify-and-create; [int] reads
    the draw back from it, so different draws give different codes. *)
Theorem otp_code_format (r : Z) :
  0 <= r <= 9999 ->
  let code := generate_otp_code r in
  String.length code = 4%nat
  /\ PyStr.isdigit code = true
  /\ PyStr.strip code = code
  /\ (PyStr.is_empty code || negb (PyStr.isdigit code) || negb (PyStr.len code =? 4))
     = false
  /\ int_of_str code = Some r
  /\ (forall r', 0 <= r' <= 9999 -> generate_otp_code r' = code -> r' = r).
Proof.
  intros Hr code.
  destruct (zero_pad_spec 4 r) as [Hlen Hdig]; [lia | change (10 ^ Z.of_nat 4) with 10000; lia |].
  fold (generate_otp_code r) in Hlen, Hdig. fold code in Hlen, Hdig.
  assert (Hne : PyStr.is_empty code = false).
  { destruct code; [discriminate | reflexivity]. }
  assert (Hisd : PyStr.isdigit code = true).
  { unfold PyStr.isdigit. now rewrite Hne, Hdig. }
  assert (Hint : int_of_str code = Some r) by (apply int_of_zero_pad; lia).
  split; [exact Hlen |]. split; [exact Hisd |].
  split; [now apply strip_digits |].
  split.
  { rewrite Hne, Hisd. unfold PyStr.len. rewrite Hlen. reflexivity. }
  split; [exact Hint |].
  intros r' Hr' Hsame.
  assert (Hint' : int_of_str (generate_otp_code r') = Some r')
    by (apply int_of_zero_pad; lia).
  rewrite Hsame, Hint in Hint'. now inversion Hint'.
Qed.

Lemma otp_code_format_witness :
  let code := generate_otp_code 42 in
  code = "0042"
  /\ String.length code = 4%nat
  /\ PyStr.isdigit code = true
  /\ PyStr.strip code = code
  /\ (PyStr.is_empty code || negb (PyStr.isdigit code) || negb (PyStr.len code =? 4))
     = false
  /\ int_of_str code = Some 42
  /\ (forall r', 0 <= r' <= 9999 -> generate_otp_code r' = code -> r' = 42).
Proof.
  intros code. split; [reflexivity |].
  apply (otp_code_format 42). lia.
Defined.

Lemma append_inv_head (p s1 s2 : string) : (p ++ s1 = p ++ s2)%string -> s1 = s2.
Proof.
  induction p as [| c p IH]; simpl; intros H; [exact H |].
  inversion H. now apply IH.
Qed.

Lemma strip_letter_digits (c : ascii) (s : string) :
  PyStr.is_space c = false ->
  PyStr.strip s = s -> s <> EmptyString ->
  PyStr.strip (String c s) = String c s.
Proof.
  intros Hc Hs Hne. unfold PyStr.strip in *. simpl. rewrite Hc. simpl.
  assert (Hr : PyStr.rstrip s = s).
  { destruct s as [| c' s']; [contradiction |].
    simpl in Hs. destruct (PyStr.is_space c') eqn:Hsp.
    - exfalso. clear - Hs Hsp.
      assert (Hlen : forall t, (String.length (PyStr.rstrip t) <= String.length t)%nat).
      { induction t as [| a t IH]; simpl; [lia |].
        destruct (PyStr.rstrip t); [destruct (PyStr.is_space a) |]; simpl in *; lia. }
      assert (Hl : forall t, (String.length (PyStr.lstrip t) <= String.length t)%nat).
      { induction t as [| a t IH]; simpl; [lia |].
        destruct (PyStr.is_space a); simpl; lia. }
      pose proof (Hlen (PyStr.lstrip s')). pose proof (Hl s').
      rewrite Hs in H. simpl in H. lia.
    - exact Hs. }
  rewrite Hr. destruct s; [contradiction | reflexivity].
Qed.

(** The shape of a reference: [KK] and twelve digits, with no white space
    around. *)
Lemma ref_num_shape (today : utc_date) (r : Z) :
  0 <= r <= 999999 -> 0 <= month today < 100 -> 0 <= day today < 100 ->
  let ref := generate_ref_num today r in
  (exists digits,
      ref = "KK" ++ digits
      /\ String.length digits = 12%nat
      /\ PyStr.all PyStr.is_digit digits = true)
  /\ PyStr.strip ref = ref
  /\ PyStr.is_empty (PyStr.strip ref) = false.
Proof.
  intros Hr Hm Hd ref.
  assert (Hy : 0 <= year today mod 100 < 10 ^ Z.of_nat 2).
  { change (10 ^ Z.of_nat 2) with 100. apply Z.mod_pos_bound. lia. }
  destruct (zero_pad_spec 2 (year today mod 100)) as [Hyl Hya]; [lia | exact Hy |].
  destruct (zero_pad_spec 2 (month today)) as [Hml Hma];
    [lia | change (10 ^ Z.of_nat 2) with 100; lia |].
  destruct (zero_pad_spec 2 (day today)) as [Hdl Hda];
    [lia | change (10 ^ Z.of_nat 2) with 100; lia |].
  destruct (zero_pad_spec 6 r) as [Hrl Hra];
    [lia | change (10 ^ Z.of_nat 6) with 1000000; lia |].
  set (digits := (strftime_ymd today ++ zero_pad 6 r)%string).
  assert (Hlen : String.length digits = 12%nat).
  { unfold digits, strftime_ymd. rewrite !length_append, Hyl, Hml, Hdl, Hrl. reflexivity. }
  assert (Hall : PyStr.all PyStr.is_digit digits = true).
  { unfold digits, strftime_ymd. rewrite !all_append, Hya, Hma, Hda, Hra. reflexivity. }
  assert (Href : ref = ("KK" ++ digits)%string) by reflexivity.
  assert (Hstrip : PyStr.strip ref = ref).
  { rewrite Href. change ("KK" ++ digits)%string with (String "K" (String "K" digits)).
    assert (Hne : digits <> EmptyString) by (destruct digits; [discriminate | discriminate]).
    apply strip_letter_digits; [reflexivity | | discriminate].
    apply strip_letter_digits; [reflexivity | now apply strip_digits | exact Hne]. }
  split. { now exists digits. }
  split; [exact Hstrip |].
  rewrite Hstrip, Href. reflexivity.
Qed.

(** X10.  Every reference [generate_ref_num] makes has 14 characters: [KK],
    six digits of the date and six digits of the draw of
    [random.randint(0, 999999)].  It has no white space around it, so a
    tracking read looks it up as it is, and two draws of the same day give
    the same reference only if they are the same draw. *)
Theorem ref_num_format (today : utc_date) (r : Z) :
  0 <= r <= 999999 -> 0 <= month today < 100 -> 0 <= day today < 100 ->
  let ref := generate_ref_num today r in
  String.length ref = 14%nat
  /\ (exists digits,
         ref = "KK" ++ digits
         /\ String.length digits = 12%nat
         /\ PyStr.all PyStr.is_digit digits = true)
  /\ PyStr.strip ref = ref
  /\ PyStr.is_empty (PyStr.strip ref) = false
  /\ (forall r', 0 <= r' <= 999999 -> generate_ref_num today r' = ref -> r' = r).
Proof.
  intros Hr Hm Hd ref.
  destruct (ref_num_shape today r Hr Hm Hd) as ((digits & Href & Hlen & Hall) & Hstrip & Hne).
  fold ref in Href, Hstrip, Hne.
  split. { rewrite Href. simpl. now rewrite Hlen. }
  split. { now exists digits. }
  split; [exact Hstrip |]. split; [exact Hne |].
  intros r' Hr' Hsame. unfold ref, generate_ref_num in Hsame.
  apply append_inv_head in Hsame. apply append_inv_head in Hsame.
  assert (Hint : int_of_str (zero_pad 6 r') = Some r') by (apply int_of_zero_pad; lia).
  rewrite Hsame, int_of_zero_pad in Hint by lia. now inversion Hint.
Qed.

Lemma ref_num_format_witness :
  let ref := generate_ref_num {| year := 2026; month := 3; day := 9 |} 77 in
  ref = "KK260309000077"
  /\ String.length ref = 14%nat
  /\ (exists digits,
         ref = "KK" ++ digits
         /\ String.length digits = 12%nat
         /\ PyStr.all PyStr.is_digit digits = true)
  /\ PyStr.strip ref = ref
  /\ PyStr.is_empty (PyStr.strip ref) = false
  /\ (forall r', 0 <= r' <= 999999 ->
                 generate_ref_num {| year := 2026; month := 3; day := 9 |} r' = ref ->
                 r' = 77).
Proof.
  intros ref. split; [reflexivity |].
  apply (ref_num_format {| year := 2026; month := 3; day := 9 |} 77); simpl; lia.
Defined.

(* ================================================================== *)
(** * From the order to its tracking page *)

(** A line of [order_items] as [json.dumps] writes it and [json.loads]
    reads it back, and the line a tracking read shows for it. *)
Definition item_json (it : order_item) : json :=
  JDict [("id", JInt (item_id it));
         ("name", JStr (item_name it));
         ("qty", JInt (item_qty it));
         ("price", JFloat (item_price it));
         ("line_total", JFloat (item_line_total it));
         ("image_url", option_json (item_image_url it))].

Definition shown (it : order_item) : json :=
  JDict [("name", JStr (item_name it));
         ("qty", JInt (item_qty it));
         ("line_total", JFloat (item_line_total it))].

(** What the resolver guarantees of a line it wrote. *)
Definition priced_line (it : order_item) : Prop :=
  1 <= item_qty it /\ exists t, item_line_total it = Float.of_decimal t.

Lemma build_order_line_priced (menu : menu_map) (raw : json) (total total' : Dec.decimal)
    (it : order_item) :
  build_order_line menu raw total = inl (it, total') -> priced_line it.
Proof.
  unfold build_order_line.
  destruct (as_dict raw) as [line | e]; [| discriminate].
  destruct (py_int (raw_menu_id line)) as [id | | |]; try discriminate.
  destruct (py_int (raw_qty line)) as [qty | | |]; try discriminate.
  destruct (qty <? 1) eqn:Hlt; [discriminate |].
  destruct (map_find id menu) as [row |]; [| discriminate].
  destruct (Dec.mul_int (menu_price row) qty) as [line_total |]; [| discriminate].
  destruct (Dec.add total line_total); [| discriminate].
  intros H. inversion H; subst. split; simpl.
  - apply Z.ltb_ge in Hlt. lia.
  - now exists line_total.
Qed.

Lemma build_order_items_priced (menu : menu_map) (raw_items : list json) :
  forall acc total items total',
    build_order_items_from menu raw_items acc total = inl (items, total') ->
    Forall priced_line acc -> Forall priced_line items.
Proof.
  induction raw_items as [| raw rest IH]; intros acc total items total' H Hacc; simpl in H.
  - inversion H; subst. exact Hacc.
  - destruct (build_order_line menu raw total) as [[it t] | e] eqn:Hline; [| discriminate].
    apply (IH _ _ _ _ H). apply Forall_app. split; [exact Hacc |].
    constructor; [| constructor]. exact (build_order_line_priced _ _ _ _ _ Hline).
Qed.

Lemma Qred_zero (y : Q) : Qnum (Qred y) = 0 -> Qred y = 0%Q.
Proof.
  intros Hq.
  assert (Hzero : (y == 0)%Q).
  { rewrite <- (Qred_correct y). unfold Qeq. rewrite Hq. reflexivity. }
  exact (Qred_complete y 0 Hzero).
Qed.

Lemma FFin_Qred_zero (y q : Q) :
  Float.FFin (Qred y) = Float.FFin q -> Qnum q = 0 -> q = 0%Q.
Proof.
  intros H Hq. assert (E : Qred y = q) by congruence.
  rewrite <- E in Hq |- *. now apply Qred_zero.
Qed.

(** The float of a decimal is zero only as the one value [0.0]. *)
Lemma of_Q_zero (x q : Q) :
  Float.of_Q x = Float.FFin q -> Qnum q = 0 -> q = 0%Q.
Proof.
  unfold Float.of_Q.
  destruct (Z.abs (Qnum x) =? 0); [intros H _; now inversion H |].
  destruct (Float.scale2 _ _ _) as [n' d'].
  destruct (_ || _); [discriminate |].
  exact (FFin_Qred_zero _ q).
Qed.

Lemma track_item_shown (py : pylib) (it : order_item) :
  priced_line it ->
  forall rest shown_rest,
    track_items py rest = inl shown_rest ->
    track_items py (item_json it :: rest) = inl (shown it :: shown_rest).
Proof.
  intros [Hqty (t & Ht)] rest shown_rest Hrest.
  unfold item_json. cbn [track_items as_dict].
  change (dict_get "qty" (JInt 0) _) with (JInt (item_qty it)).
  change (dict_get "line_total" (JInt 0) _) with (JFloat (item_line_total it)).
  change (dict_get "name" (JStr "Item") _) with (JStr (item_name it)).
  unfold py_or. cbn [truthy].
  replace (item_qty it =? 0) with false by (symmetry; apply Z.eqb_neq; lia).
  cbn [negb py_int int_exn].
  destruct (Float.is_zero (item_line_total it)) eqn:Hz; cbn [negb py_float].
  - destruct (item_line_total it) as [| neg | q] eqn:Hf; try discriminate.
    simpl in Hz. apply Z.eqb_eq in Hz.
    unfold Float.of_decimal in Ht. symmetry in Ht.
    rewrite Hrest. unfold shown. rewrite Hf, (of_Q_zero _ _ Ht Hz). reflexivity.
  - rewrite Hrest. reflexivity.
Qed.

Lemma track_items_shown (py : pylib) (items : list order_item) :
  Forall priced_line items ->
  track_items py (map item_json items) = inl (map shown items).
Proof.
  induction 1 as [| it items Hit Hrest IH]; [reflexivity |].
  cbn [map]. now apply track_item_shown.
Qed.

Lemma next_id_above (ids : list Z) (i : Z) : In i ids -> i < next_id ids.
Proof.
  unfold next_id. induction ids as [| j ids IH]; cbn [fold_right In]; [contradiction |].
  intros [-> | Hin]; [lia |]. specialize (IH Hin). lia.
Qed.

Lemma filter_none {A} (p : A -> bool) (l : list A) :
  (forall x, In x l -> p x = false) -> filter p l = [].
Proof.
  induction l as [| y l IH]; simpl; intros H; [reflexivity |].
  rewrite (H y (or_introl eq_refl)). apply IH. intros x Hx. apply H. now right.
Qed.

Lemma customer_by_id (rows : list customer_row) (x : customer_row) :
  NoDup (map cust_id rows) -> In x rows ->
  filter (fun c => cust_id c =? cust_id x) rows = [x].
Proof.
  induction rows as [| y rows IH]; simpl; intros Hnd Hin; [contradiction |].
  inversion Hnd as [| a l Hnotin Hnd']; subst.
  destruct Hin as [-> | Hin].
  - rewrite Z.eqb_refl. f_equal.
    apply filter_none. intros z Hz. apply Z.eqb_neq.
    intros Heq. apply Hnotin. rewrite <- Heq. now apply in_map.
  - destruct (Z.eqb_spec (cust_id y) (cust_id x)) as [Heq | Hne].
    + exfalso. apply Hnotin. rewrite Heq. now apply in_map.
    + now apply IH.
Qed.

(** The customer row the join of a tracking read finds for the order. *)
Lemma customer_email_found (cfg : config) (email name phone : string) (d : db) :
  NoDup (map cust_id (customer d)) ->
  match filter (fun c => cust_id c =? fst (with_customer cfg email name phone d))
               (customer (snd (with_customer cfg email name phone d))) with
  | [] => None
  | c :: _ => Some (cust_email c)
  end = Some email.
Proof.
  intros Hnd. unfold with_customer.
  pose proof (select_customer_spec email d) as Hsel.
  destruct (sql_select_customer email d) as [cid |]; cbn [fst snd].
  - destruct Hsel as [(x & Hx & Hemail & <-) _].
    rewrite (customer_by_id _ x Hnd Hx). now rewrite Hemail.
  - unfold sql_insert_customer. cbn [fst snd customer set_customer].
    rewrite filter_app. rewrite filter_none.
    + simpl. now rewrite Z.eqb_refl.
    + intros y Hy. apply Z.eqb_neq.
      pose proof (next_id_above (map cust_id (customer d)) (cust_id y)
                    (in_map cust_id _ _ Hy)). lia.
Qed.

(** X11.  From the order to its tracking page.  After an answer 200 of
    verify-and-create, a tracking read with the reference of the new order
    row finds that row, provided the reference is not that of an older
    order (the unique key of the table), customer ids are unique, and
    [json.loads] reads back the lines [json.dumps] wrote: the answer is 200, with
    the id and the reference of the row, the status key [pending], the
    amount of the row as a float, the normalised email of the request, and
    for each line of the order its name, quantity and line total. *)
Theorem created_order_is_tracked (cfg : config) (py : pylib) (w w' : world)
    (payload : order_payload) (d : db) :
  let email := normalize_email (p_email payload) in
  let r := verify_and_create_order cfg py w payload d in
  status (resp r) = 200 ->
  (forall k, (k < 8)%nat -> 0 <= rand_ref w k <= 999999) ->
  0 <= month (today w) < 100 -> 0 <= day (today w) < 100 ->
  NoDup (map cust_id (customer d)) ->
  db_fault w' TR_select = None ->
  exists row items total,
    orders (store r) = (orders d ++ [row])%list
    /\ ord_amount row = Some total
    /\ ord_items row = Some (json_dumps py items)
    /\ (json_dumps py items <> EmptyString ->
        json_loads py (json_dumps py items) = Some (JList (map item_json items)) ->
        (forall o, In o (orders d) -> ord_ref_num o <> ord_ref_num row) ->
        let t := get_order_tracking py w' (ord_ref_num row) (store r) in
        status (resp t) = 200
        /\ store t = store r
        /\ exists members order,
            body (resp t) = JDict members
            /\ dict_find "order" members = Some (JDict order)
            /\ dict_find "id" order = Some (JInt (ord_id row))
            /\ dict_find "order_number" order = Some (JStr (ord_ref_num row))
            /\ dict_find "order_status" order = Some (JStr "pending")
            /\ dict_find "amount" order = Some (JFloat (Float.of_decimal total))
            /\ dict_find "email" order = Some (JStr email)
            /\ dict_find "order_items" members = Some (JList (map shown items))
            /\ dict_find "current_index" members = Some (JInt 0)
            /\ dict_find "is_cancelled" members = Some (JBool false)).
Proof.
  intros email r H200 Hdraw Hmonth Hday Hnd Hf.
  destruct (verify_200_store cfg py w payload d H200)
    as (id & p & n & _ & Hn & Hcust & Hstore & raw_items & ids & _ & Hbuild).
  fold email in Hcust, Hstore. fold r in Hstore.
  set (row := order_row_of cfg py w payload p n d) in *.
  exists row, (pr_items p), (pr_total p).
  split; [rewrite Hstore; reflexivity |].
  split; [reflexivity |]. split; [reflexivity |].
  intros Hdumps Hloads Hfresh t.
  assert (Hpriced : Forall priced_line (pr_items p)).
  { exact (build_order_items_priced _ _ _ _ _ _ Hbuild (Forall_nil _)). }
  destruct (ref_num_shape (today w) (rand_ref w n) (Hdraw n Hn) Hmonth Hday)
    as (_ & Hstrip & Hne).
  change (generate_ref_num (today w) (rand_ref w n)) with (ord_ref_num row) in Hstrip, Hne.
  assert (Hselect : sql_select_order (ord_ref_num row) (store r) = Some (row, Some email)).
  { unfold sql_select_order. rewrite Hstore. cbn [orders customer set_orders].
    rewrite filter_app, filter_none.
    2: { intros o Ho. apply String.eqb_neq. now apply Hfresh. }
    cbn [filter app]. rewrite String.eqb_refl.
    change (ord_customer_id row) with (Some (pr_customer_id p)). cbv beta iota.
    rewrite Hcust. unfold consumed. cbn [customer sql_consume_code set_code_verify].
    f_equal. f_equal.
    apply (customer_email_found cfg email (customer_name_of payload) (phone_of payload)
             (sql_supersede_expired (now w) email d)).
    exact Hnd. }
  assert (Hparse : parse_items py (ord_items row) = map item_json (pr_items p)).
  { change (ord_items row) with (Some (json_dumps py (pr_items p))).
    unfold parse_items, PyStr.or_else.
    destruct (json_dumps py (pr_items p)) eqn:Hd; [contradiction |].
    cbn [PyStr.is_empty]. now rewrite Hloads. }
  subst t. unfold get_order_tracking. rewrite Hstrip.
  replace (PyStr.is_empty (ord_ref_num row)) with false by (now rewrite <- Hne, Hstrip).
  unfold query, execute. rewrite Hf. cbn [working connect fst snd log].
  rewrite Hselect, Hparse, (track_items_shown py _ Hpriced).
  cbn [resp store status body committed set_working].
  split; [reflexivity |]. split; [reflexivity |].
  eexists. eexists. split; [reflexivity |].
  repeat (split; [reflexivity |]). reflexivity.
Qed.

(** A stand-in for the library that reads back the one order of the
    examples. *)
Definition two_kopi_line : order_item :=
  {| item_id := 1; item_name := "Kopi O"; item_qty := 2;
     item_price := Float.of_decimal (menu_price Ex.kopi);
     item_line_total := Float.of_decimal {| Dec.coeff := 1000; Dec.expo := -2 |};
     item_image_url := None |}.

Definition py_two_kopi : pylib :=
  {| json_dumps := json_dumps Ex.py;
     json_loads := fun s => if String.eqb s "[Kopi O]"
                            then Some (JList [item_json two_kopi_line])
                            else json_loads Ex.py s;
     float_of_str := float_of_str Ex.py;
     isoformat := isoformat Ex.py |}.

Lemma created_order_is_tracked_witness :
  let r := verify_and_create_order Ex.cfg py_two_kopi Ex.calm
             (Ex.order_of "1234" [Ex.line (JInt 1) (JInt 2)]) Ex.shop in
  let t := get_order_tracking py_two_kopi Ex.calm " KK260309000077 " (store r) in
  status (resp r) = 200
  /\ status (resp t) = 200
  /\ exists row items total,
      orders (store r) = (orders Ex.shop ++ [row])%list
      /\ ord_amount row = Some total
      /\ ord_items row = Some (json_dumps py_two_kopi items)
      /\ (json_dumps py_two_kopi items <> EmptyString ->
          json_loads py_two_kopi (json_dumps py_two_kopi items)
          = Some (JList (map item_json items)) ->
          (forall o, In o (orders Ex.shop) -> ord_ref_num o <> ord_ref_num row) ->
          let t := get_order_tracking py_two_kopi Ex.calm (ord_ref_num row) (store r) in
          status (resp t) = 200
          /\ store t = store r
          /\ exists members order,
              body (resp t) = JDict members
              /\ dict_find "order" members = Some (JDict order)
              /\ dict_find "id" order = Some (JInt (ord_id row))
              /\ dict_find "order_number" order = Some (JStr (ord_ref_num row))
              /\ dict_find "order_status" order = Some (JStr "pending")
              /\ dict_find "amount" order = Some (JFloat (Float.of_decimal total))
              /\ dict_find "email" order = Some (JStr "a@b.com")
              /\ dict_find "order_items" members = Some (JList (map shown items))
              /\ dict_find "current_index" members = Some (JInt 0)
              /\ dict_find "is_cancelled" members = Some (JBool false)).
Proof.
  intros r t. split; [reflexivity |]. split; [vm_compute; reflexivity |].
  apply (created_order_is_tracked Ex.cfg py_two_kopi Ex.calm Ex.calm
           (Ex.order_of "1234" [Ex.line (JInt 1) (JInt 2)]) Ex.shop).
  - reflexivity.
  - intros k Hk. change (rand_ref Ex.calm k) with (77 + Z.of_nat k). lia.
  - simpl. lia.
  - simpl. lia.
  - constructor.
  - reflexivity.
Defined.

(* ================================================================== *)
(** * What no handler rewrites *)

(** What a challenge row is issued with: no handler changes it. *)
Definition issued_as (r : code_verify_row) : Z * string * string * Z * option Z :=
  (cv_id r, cv_identifier r, cv_code r, cv_created_at r, cv_expires_at r).

Lemma issued_as_map (f : code_verify_row -> code_verify_row)
    (rows : list code_verify_row) :
  (forall x, issued_as (f x) = issued_as x) ->
  map issued_as (map f rows) = map issued_as rows.
Proof.
  intros Hf. rewrite map_map. apply map_ext. exact Hf.
Qed.

Lemma issued_as_sweep (now : Z) (email : string) (x : code_verify_row) :
  issued_as (sweep_row now email x) = issued_as x.
Proof.
  unfold sweep_row. now destruct (is_pending_for email x && sql_le (cv_expires_at x) now).
Qed.

Lemma issued_as_consume (now id : Z) (x : code_verify_row) :
  issued_as (consume_row now id x) = issued_as x.
Proof. unfold consume_row. now destruct (cv_id x =? id). Qed.

Lemma issued_as_supersede (email : string) (x : code_verify_row) :
  issued_as (if is_pending_for email x then superseded x else x) = issued_as x.
Proof. now destruct (is_pending_for email x). Qed.

(** The store request-code leaves: the one it found, or that one with the
    new challenge issued. *)
Lemma request_code_store (w : world) (e : string) (d : db) :
  store (request_order_code w e d) = d
  \/ exists n, store (request_order_code w e d)
               = issued w (normalize_email e) (code_at w n) d.
Proof.
  unfold request_order_code.
  destruct (PyStr.is_empty _ || negb (is_valid_email _)); [now left |].
  destruct (request_code_txn w (normalize_email e) (connect d)) as [[code | exc | r] c]
    eqn:Hrun.
  - apply request_code_txn_val in Hrun.
    destruct Hrun as (n & _ & _ & _ & _ & _ & -> & ->).
    right. exists n. unfold request_code_finish.
    destruct (send_html_email w); reflexivity.
  - left. destruct (request_code_txn_unless_val w _ _ _ _ Hrun) as [[a Ha] | Hkeep];
      [discriminate | exact Hkeep].
  - left. destruct (request_code_txn_unless_val w _ _ _ _ Hrun) as [[a Ha] | Hkeep];
      [discriminate | exact Hkeep].
Qed.

(** X12.  No handler rewrites what is stored.  request-code leaves the
    orders, the customers and the menu as they are and adds at most one
    challenge row; verify-and-create leaves the menu as it is, appends at
    most one order row and at most one customer row behind the rows that
    were there, and adds and removes no challenge row; and of a challenge
    row no request ever changes the id, the identifier, the code, the time
    of creation or the expiry: only its status and its time of use. *)
Theorem stored_rows_stay (cfg : config) (py : pylib) (w : world) (d : db) :
  (forall e,
      let r := request_order_code w e d in
      orders (store r) = orders d
      /\ customer (store r) = customer d
      /\ menu (store r) = menu d
      /\ exists new,
          map issued_as (code_verify (store r))
          = (map issued_as (code_verify d) ++ new)%list
          /\ (List.length new <= 1)%nat)
  /\ (forall payload,
        let r := verify_and_create_order cfg py w payload d in
        menu (store r) = menu d
        /\ map issued_as (code_verify (store r)) = map issued_as (code_verify d)
        /\ (exists new,
               orders (store r) = (orders d ++ new)%list /\ (List.length new <= 1)%nat)
        /\ (exists new,
               customer (store r) = (customer d ++ new)%list
               /\ (List.length new <= 1)%nat)).
Proof.
  split.
  - intros e r. subst r.
    destruct (request_code_store w e d) as [-> | (n & ->)].
    + repeat split. exists []. rewrite app_nil_r. split; [reflexivity | simpl; lia].
    + repeat split. rewrite code_verify_issued, map_app.
      rewrite (issued_as_map _ _ (issued_as_supersede (normalize_email e))).
      eexists. split; [reflexivity | simpl; lia].
  - intros payload r.
    destruct (Z.eq_dec (status (resp r)) 200) as [H200 | Hno].
    + destruct (verify_200_store cfg py w payload d H200)
        as (id & p & n & _ & _ & _ & Hstore & _).
      fold r in Hstore. rewrite Hstore. cbn [menu orders customer code_verify set_orders].
      destruct (orders_consumed cfg w (normalize_email (p_email payload))
                  (customer_name_of payload) (phone_of payload) id d) as [_ Hmenu].
      split; [exact Hmenu |]. split.
      { rewrite code_verify_consumed.
        rewrite (issued_as_map _ _ (issued_as_consume (now w) id)).
        apply (issued_as_map _ _ (issued_as_sweep (now w) _)). }
      split; [eexists; split; [reflexivity | simpl; lia] |].
      unfold consumed, with_customer.
      destruct (sql_select_customer _ _).
      * exists []. rewrite app_nil_r. split; [reflexivity | simpl; lia].
      * eexists. split; [reflexivity | simpl; lia].
    + subst r. rewrite (verify_failure_keeps_store cfg py w payload d Hno).
      split; [reflexivity |]. split; [reflexivity |].
      split; exists []; rewrite app_nil_r; (split; [reflexivity | simpl; lia]).
Qed.

(* ================================================================== *)
(** * Emails *)

Lemma lower_char_space (c : ascii) :
  PyStr.is_space (PyStr.lower_char c) = PyStr.is_space c.
Proof. destruct c as [[] [] [] [] [] [] [] []]; reflexivity. Qed.

Lemma lower_char_idem (c : ascii) :
  PyStr.lower_char (PyStr.lower_char c) = PyStr.lower_char c.
Proof. destruct c as [[] [] [] [] [] [] [] []]; reflexivity. Qed.


Lemma lstrip_lower (s : string) :
  PyStr.lstrip (PyStr.lower s) = PyStr.lower (PyStr.lstrip s).
Proof.
  induction s as [| c s IH]; [reflexivity |].
  cbn [PyStr.lower PyStr.map PyStr.lstrip]. rewrite lower_char_space.
  destruct (PyStr.is_space c); [exact IH | reflexivity].
Qed.

Lemma rstrip_lower (s : string) :
  PyStr.rstrip (PyStr.lower s) = PyStr.lower (PyStr.rstrip s).
Proof.
  induction s as [| c s IH]; [reflexivity |].
  cbn [PyStr.lower PyStr.map PyStr.rstrip]. fold (PyStr.lower s). rewrite IH.
  destruct (PyStr.rstrip s) as [| c' r]; cbn [PyStr.lower PyStr.map].
  - rewrite lower_char_space. now destruct (PyStr.is_space c).
  - reflexivity.
Qed.

Lemma strip_lower (s : string) :
  PyStr.strip (PyStr.lower s) = PyStr.lower (PyStr.strip s).
Proof. unfold PyStr.strip. now rewrite lstrip_lower, rstrip_lower. Qed.

Lemma lower_idem (s : string) : PyStr.lower (PyStr.lower s) = PyStr.lower s.
Proof.
  induction s as [| c s IH]; [reflexivity |].
  cbn [PyStr.lower PyStr.map]. fold (PyStr.lower s). fold (PyStr.lower (PyStr.lower s)).
  now rewrite lower_char_idem, IH.
Qed.

(** A string that does not begin with white space. *)
Definition headed (s : string) : Prop :=
  match s with
  | String c _ => PyStr.is_space c = false
  | EmptyString => True
  end.

Lemma lstrip_headed (s : string) : headed (PyStr.lstrip s).
Proof.
  induction s as [| c s IH]; simpl; [exact I |].
  destruct (PyStr.is_space c) eqn:Hc; [exact IH | exact Hc].
Qed.

Lemma headed_lstrip (s : string) : headed s -> PyStr.lstrip s = s.
Proof. destruct s as [| c s]; simpl; [reflexivity | now intros ->]. Qed.

Lemma rstrip_headed (s : string) : headed s -> headed (PyStr.rstrip s).
Proof.
  destruct s as [| c s]; simpl; [exact id |]. intros Hc.
  destruct (PyStr.rstrip s); [rewrite Hc |]; exact Hc.
Qed.

Lemma rstrip_cons (c : ascii) (s : string) :
  PyStr.rstrip (String c s)
  = match PyStr.rstrip s with
    | EmptyString => if PyStr.is_space c then EmptyString else String c EmptyString
    | r => String c r
    end.
Proof. reflexivity. Qed.

Lemma rstrip_idem (s : string) : PyStr.rstrip (PyStr.rstrip s) = PyStr.rstrip s.
Proof.
  induction s as [| c s IH]; [reflexivity |]. rewrite rstrip_cons.
  destruct (PyStr.rstrip s) as [| c' r] eqn:Hr.
  - destruct (PyStr.is_space c) eqn:Hc; [reflexivity |].
    rewrite rstrip_cons. cbn [PyStr.rstrip]. now rewrite Hc.
  - rewrite rstrip_cons, IH. reflexivity.
Qed.

Lemma strip_idem (s : string) : PyStr.strip (PyStr.strip s) = PyStr.strip s.
Proof.
  unfold PyStr.strip.
  rewrite (headed_lstrip (PyStr.rstrip (PyStr.lstrip s))).
  - apply rstrip_idem.
  - apply rstrip_headed, lstrip_headed.
Qed.

Lemma normalize_email_idem (e : string) :
  normalize_email (normalize_email e) = normalize_email e.
Proof.
  unfold normalize_email. now rewrite strip_lower, lower_idem, strip_idem.
Qed.
















(* ================================================================== *)
(** * The lines of a priced cart *)

(** A line the resolver wrote for an element of the cart: id and quantity
    are the integers the element's [id] (or [menu_id]) and [qty] coerce
    to, the quantity is at least 1, and name, price and image are those of
    the menu row with that id. *)
Definition line_of (menu : menu_map) (raw : json) (it : order_item) : Prop :=
  exists line row,
    raw = JDict line
    /\ py_int (raw_menu_id line) = IntOk (item_id it)
    /\ py_int (raw_qty line) = IntOk (item_qty it)
    /\ 1 <= item_qty it
    /\ map_find (item_id it) menu = Some row
    /\ item_name it = menu_name row
    /\ item_price it = Float.of_decimal (menu_price row)
    /\ item_image_url it = menu_image_url row
    /\ exists line_total,
        Dec.mul_int (menu_price row) (item_qty it) = Some line_total
        /\ item_line_total it = Float.of_decimal line_total.

Lemma build_order_line_of (menu : menu_map) (raw : json) (total total' : Dec.decimal)
    (it : order_item) :
  build_order_line menu raw total = inl (it, total') -> line_of menu raw it.
Proof.
  unfold build_order_line.
  destruct raw as [| | | | | | line]; try discriminate. cbn [as_dict].
  destruct (py_int (raw_menu_id line)) as [id | | |] eqn:Hid; try discriminate.
  destruct (py_int (raw_qty line)) as [qty | | |] eqn:Hqty; try discriminate.
  destruct (qty <? 1) eqn:Hlt; [discriminate |].
  destruct (map_find id menu) as [row |] eqn:Hrow; [| discriminate].
  destruct (Dec.mul_int (menu_price row) qty) as [line_total |] eqn:Hmul; [| discriminate].
  destruct (Dec.add total line_total); [| discriminate].
  intros H. inversion H; subst. exists line, row. cbn.
  apply Z.ltb_ge in Hlt.
  repeat split; try assumption; try reflexivity; try lia.
  now exists line_total.
Qed.

Lemma build_order_items_lines (menu : menu_map) (raw_items : list json) :
  forall acc total items total',
    build_order_items_from menu raw_items acc total = inl (items, total') ->
    exists new, items = (acc ++ new)%list /\ Forall2 (line_of menu) raw_items new.
Proof.
  induction raw_items as [| raw rest IH]; intros acc total items total' H; simpl in H.
  - inversion H; subst. exists []. rewrite app_nil_r. split; [reflexivity | constructor].
  - destruct (build_order_line menu raw total) as [[it t] | e] eqn:Hline; [| discriminate].
    destruct (IH _ _ _ _ H) as (new & -> & Hnew).
    exists (it :: new). rewrite <- app_assoc. split; [reflexivity |].
    constructor; [exact (build_order_line_of _ _ _ _ _ Hline) | exact Hnew].
Qed.

(** X15.  What [build_order_items] returns for a cart it prices: one line
    for each element of the cart, in the order of the cart (two elements
    with the same id give two lines); each line has the id and the quantity
    the element's fields coerce to, a quantity of at least 1, and the name,
    the unit price and the image of the menu row with that id, whatever
    else the element carries; its line total is the product the decimal
    context gives for price and quantity. *)
Theorem priced_cart_lines (menu : menu_map) (raw_items : list json)
    (items : list order_item) (total : Dec.decimal) :
  build_order_items menu raw_items = inl (items, total) ->
  Forall2 (line_of menu) raw_items items
  /\ List.length items = List.length raw_items
  /\ (raw_items <> [] -> items <> []).
Proof.
  intros H. unfold build_order_items in H.
  destruct (build_order_items_lines _ _ _ _ _ _ H) as (new & -> & Hlines).
  simpl. split; [exact Hlines |].
  pose proof (Forall2_length Hlines) as Hlen.
  split; [now symmetry |].
  intros Hne Hnil. rewrite Hnil in Hlen. destruct raw_items; [contradiction | discriminate].
Qed.

Lemma priced_cart_lines_witness :
  let cart := [JDict [("id", JStr " 1 "); ("qty", JFloat (Float.FFin 2.5));
                      ("name", JStr "Free coffee"); ("price", JInt 0)];
               JDict [("menu_id", JInt 1)]] in
  exists items total,
    build_order_items [(1, Ex.kopi)] cart = inl (items, total)
    /\ map item_qty items = [2; 1]
    /\ map item_name items = ["Kopi O"; "Kopi O"]
    /\ total = {| Dec.coeff := 1500; Dec.expo := -2 |}
    /\ Forall2 (line_of [(1, Ex.kopi)]) cart items
    /\ List.length items = List.length cart
    /\ (cart <> [] -> items <> []).
Proof.
  intros cart. eexists. eexists.
  split; [vm_compute; reflexivity |].
  split; [reflexivity |]. split; [reflexivity |]. split; [reflexivity |].
  eapply (priced_cart_lines [(1, Ex.kopi)] cart). vm_compute. reflexivity.
Defined.

(* ================================================================== *)
(** * Names and phone numbers that fit their columns *)

Lemma take_length (n : nat) (s : string) : (String.length (PyStr.take n s) <= n)%nat.
Proof.
  unfold PyStr.take. revert s. induction n as [| n IH]; intros s.
  - destruct s; simpl; lia.
  - destruct s as [| c s]; simpl; [lia |]. specialize (IH s). lia.
Qed.

Lemma take_nonempty (n : nat) (s : string) :
  s <> EmptyString -> PyStr.take (S n) s <> EmptyString.
Proof. destruct s; [contradiction | discriminate]. Qed.

Lemma or_else_nonempty (s d : string) : d <> EmptyString -> PyStr.or_else s d <> EmptyString.
Proof.
  intros Hd. unfold PyStr.or_else. destruct s; simpl; [exact Hd | discriminate].
Qed.

Lemma customer_name_nonempty (payload : order_payload) :
  customer_name_of payload <> EmptyString.
Proof.
  unfold customer_name_of.
  destruct (PyStr.strip (p_customerName payload)) eqn:Hs; simpl.
  - unfold default_customer_name. apply or_else_nonempty. discriminate.
  - discriminate.
Qed.

Lemma phone_nonempty (payload : order_payload) : phone_of payload <> EmptyString.
Proof. unfold phone_of. apply or_else_nonempty. discriminate. Qed.

Lemma nonempty_length (s : string) : s <> EmptyString -> (1 <= String.length s)%nat.
Proof. destruct s; [contradiction | simpl; lia]. Qed.

(** X16.  Names and phone numbers fit their columns.  The customer name of
    every order row verify-and-create writes has between 1 and 100
    characters, and every customer row it adds has a dealer name of 1 to
    100 characters, a business name of 1 to 150 and a phone number of 1 to
    25: a missing name is made from the email and a missing phone number is
    [N/A], and each is cut before it is stored. *)
Theorem stored_names_fit (cfg : config) (py : pylib) (w : world) (payload : order_payload)
    (d : db) :
  let r := verify_and_create_order cfg py w payload d in
  status (resp r) = 200 ->
  exists row new_customers,
    orders (store r) = (orders d ++ [row])%list
    /\ customer (store r) = (customer d ++ new_customers)%list
    /\ (1 <= String.length (ord_customer_name row) <= 100)%nat
    /\ Forall (fun c =>
                 (1 <= String.length (cust_dealer_name c) <= 100)%nat
                 /\ (1 <= String.length (cust_business_name c) <= 150)%nat
                 /\ (1 <= String.length (cust_phone_number c) <= 25)%nat)
              new_customers.
Proof.
  intros r H200.
  destruct (verify_200_store cfg py w payload d H200)
    as (id & p & n & _ & _ & _ & Hstore & _).
  fold r in Hstore.
  pose proof (customer_name_nonempty payload) as Hname.
  pose proof (phone_nonempty payload) as Hphone.
  assert (Hbound : forall k s, s <> EmptyString ->
                     (1 <= String.length (PyStr.take (S k) s) <= S k)%nat).
  { intros k s Hs. split; [apply nonempty_length; now apply take_nonempty |].
    apply take_length. }
  exists (order_row_of cfg py w payload p n d).
  rewrite Hstore. cbn [orders customer set_orders order_row_of ord_customer_name].
  unfold consumed, with_customer. cbn [customer sql_consume_code set_code_verify].
  destruct (sql_select_customer _ _).
  - exists []. rewrite app_nil_r.
    split; [reflexivity |]. split; [reflexivity |].
    split; [now apply (Hbound 99%nat) | constructor].
  - eexists. split; [reflexivity |]. split; [reflexivity |].
    split; [now apply (Hbound 99%nat) |].
    constructor; [| constructor]. cbn.
    split; [now apply (Hbound 99%nat) |].
    split; [now apply (Hbound 149%nat) | now apply (Hbound 24%nat)].
Qed.

Lemma stored_names_fit_witness :
  let r := verify_and_create_order Ex.cfg Ex.py Ex.calm kopi_order Ex.shop in
  map ord_customer_name (orders (store r)) = ["A"]
  /\ map cust_phone_number (customer (store r)) = ["N/A"]
  /\ exists row new_customers,
      orders (store r) = (orders Ex.shop ++ [row])%list
      /\ customer (store r) = (customer Ex.shop ++ new_customers)%list
      /\ (1 <= String.length (ord_customer_name row) <= 100)%nat
      /\ Forall (fun c =>
                   (1 <= String.length (cust_dealer_name c) <= 100)%nat
                   /\ (1 <= String.length (cust_business_name c) <= 150)%nat
                   /\ (1 <= String.length (cust_phone_number c) <= 25)%nat)
                new_customers.
Proof.
  intros r. split; [reflexivity |]. split; [reflexivity |].
  apply (stored_names_fit Ex.cfg Ex.py Ex.calm kopi_order Ex.shop). reflexivity.
Defined.

(* ================================================================== *)
(** * Configuration and start-up *)

(** [_to_bool] *)
Definition _to_bool (value : option string) (default : bool) : bool :=
  match value with
  | None => default
  | Some v => str_in (PyStr.lower (PyStr.strip v)) ["1"; "true"; "yes"; "on"]
  end.

(** The process environment: [os.getenv(k)] is [env k]. *)
Definition environ := string -> option string.

(** [os.getenv(k, default)] *)
Definition getenv_default (env : environ) (k default : string) : string :=
  match env k with
  | Some v => v
  | None => default
  end.

(** [a or b] where [a] is [None] or a string and [b] a string. *)
Definition str_or (a : option string) (b : string) : string :=
  match a with
  | Some v => PyStr.or_else v b
  | None => b
  end.

(** [s.rstrip("/")] *)
Fixpoint rstrip_slash (s : string) : string :=
  match s with
  | String c s' =>
      match rstrip_slash s' with
      | EmptyString => if Ascii.eqb c "/" then EmptyString else String c EmptyString
      | r => String c r
      end
  | EmptyString => EmptyString
  end.

(** [AppConfig] *)
Record AppConfig := {
  app_env : string;
  app_port : Z;
  app_debug : bool;
  db_host : string;
  db_port : Z;
  db_user : string;
  db_password : string;
  db_name : string;
  db_ssl_required : bool;
  db_ssl_ca : option string;
  db_ssl_verify_cert : bool;
  db_pool_size : Z;
  sender_email : string;
  app_password : string;
  smtp_host : string;
  smtp_port : Z;
  smtp_user : string;
  smtp_password : string;
  smtp_from : string;
  smtp_use_tls : bool;
  smtp_use_ssl : bool;
  cfg_frontend_base_url : string;
  cfg_shop_address : string;
  shop_google_maps_url : string;
  return_dev_otp : bool;
}.

(** What start-up reads from the machine and the model does not define:
    the paths of [pathlib] ([Path(p).expanduser()], [is_absolute()],
    [(BASE_DIR / p).resolve()], [exists()]), all on the text of the path,
    and [mysql.connector.__version__] (["0"] when it has none). *)
Record machine := {
  expanduser : string -> string;
  is_absolute : string -> bool;
  resolve_in_base : string -> string;
  path_exists : string -> bool;
  connector_version : string;
}.

(** [int(os.getenv(k, default))]: a [ValueError] when the text is no
    integer. *)
Definition getenv_int (env : environ) (k default : string) : Z + exn :=
  match int_of_str (getenv_default env k default) with
  | Some n => inl n
  | None => inr (ValueError "invalid literal for int() with base 10")
  end.

Definition load_db_ssl_ca (env : environ) (m : machine) : option string :=
  let db_ssl_ca_raw := PyStr.strip (str_or (env "DB_SSL_CA") EmptyString) in
  if PyStr.is_empty db_ssl_ca_raw then None
  else
    let db_ssl_ca_path := expanduser m db_ssl_ca_raw in
    Some (if is_absolute m db_ssl_ca_path then db_ssl_ca_path
          else resolve_in_base m db_ssl_ca_path).

(** [load_config] *)
Definition load_config (env : environ) (m : machine) : AppConfig + exn :=
  let db_ssl_ca := load_db_ssl_ca env m in
  let sender_email :=
    PyStr.lower (PyStr.strip (str_or (env "SENDER_EMAIL")
                                (str_or (env "SMTP_FROM") EmptyString))) in
  let app_password :=
    PyStr.strip (str_or (env "APP_PASSWORD") (str_or (env "SMTP_PASSWORD") EmptyString)) in
  match getenv_int env "APP_PORT" "5003" with
  | inr e => inr e
  | inl app_port =>
  match getenv_int env "DB_PORT" "25060" with
  | inr e => inr e
  | inl db_port =>
  match getenv_int env "DB_POOL_SIZE" "5" with
  | inr e => inr e
  | inl db_pool_size =>
  match getenv_int env "SMTP_PORT" "587" with
  | inr e => inr e
  | inl smtp_port =>
      inl {| app_env := getenv_default env "APP_ENV" "development";
             app_port := app_port;
             app_debug := _to_bool (env "APP_DEBUG") true;
             db_host := getenv_default env "DB_HOST"
                          "db-mysql-syd1-81835-do-user-27361007-0.f.db.ondigitalocean.com";
             db_port := db_port;
             db_user := getenv_default env "DB_USER" "doadmin";
             db_password := getenv_default env "DB_PASSWORD" EmptyString;
             db_name := getenv_default env "DB_NAME" "kopikopi";
             db_ssl_required := _to_bool (env "DB_SSL_REQUIRED") true;
             db_ssl_ca := db_ssl_ca;
             db_ssl_verify_cert := _to_bool (env "DB_SSL_VERIFY_CERT") false;
             db_pool_size := db_pool_size;
             sender_email := sender_email;
             app_password := app_password;
             smtp_host := getenv_default env "SMTP_HOST" "smtp.gmail.com";
             smtp_port := smtp_port;
             smtp_user := PyStr.strip (str_or (env "SMTP_USER") sender_email);
             smtp_password := PyStr.strip (str_or (env "SMTP_PASSWORD") app_password);
             smtp_from := PyStr.strip (str_or (env "SMTP_FROM") sender_email);
             smtp_use_tls := _to_bool (env "SMTP_USE_TLS") true;
             smtp_use_ssl := _to_bool (env "SMTP_USE_SSL") false;
             cfg_frontend_base_url :=
               rstrip_slash (getenv_default env "FRONTEND_BASE_URL" "http://localhost:5173");
             cfg_shop_address :=
               getenv_default env "SHOP_ADDRESS"
                 "2/36 Rossmore Ave, Punchbowl NSW 2196, Australia";
             shop_google_maps_url :=
               getenv_default env "SHOP_GOOGLE_MAPS_URL"
                 "https://maps.google.com/?q=Kopi+Kopi+Malaysian+Cafe+Punchbowl";
             return_dev_otp := _to_bool (env "RETURN_DEV_OTP") true |}
  end end end end.

(** [int(str(connector_version).split(".")[0])], 0 when that is no
    integer. *)
Definition major_version (m : machine) : Z :=
  match int_of_str (PyStr.before "." (connector_version m)) with
  | Some n => n
  | None => 0
  end.

(** [validate_config]: the [RuntimeError] of the first check that fails. *)
Definition validate_config (m : machine) (config : AppConfig) : unit + exn :=
  if major_version m <? 8 then
    inr (RuntimeError
           ("Unsupported mysql connector detected. Uninstall `mysql-connector` and install "
            ++ "`mysql-connector-python>=8` in the backend venv."))
  else if PyStr.is_empty (db_password config) then
    inr (RuntimeError
           "DB_PASSWORD is empty. Create kopikopi-be/.env and set DB_PASSWORD before starting the backend.")
  else if match db_ssl_ca config with
          | Some p => negb (PyStr.is_empty p) && negb (path_exists m p)
          | None => false
          end then
    inr (RuntimeError
           ("DB_SSL_CA file not found: "
            ++ match db_ssl_ca config with Some p => p | None => EmptyString end))
  else if PyStr.is_empty (sender_email config) then
    inr (RuntimeError
           "SENDER_EMAIL is required in kopikopi-be/.env for OTP and order emails.")
  else if negb (is_valid_email (sender_email config)) then
    inr (RuntimeError "SENDER_EMAIL must be a valid email address.")
  else if PyStr.is_empty (app_password config) then
    inr (RuntimeError "APP_PASSWORD is required in kopikopi-be/.env for SMTP login.")
  else if PyStr.is_empty (smtp_host config) then
    inr (RuntimeError "SMTP_HOST is required in kopikopi-be/.env.")
  else inl tt.

(** The start of [create_app]: [config = load_config()] and
    [validate_config(config)]. *)
Definition start_up (env : environ) (m : machine) : AppConfig + exn :=
  match load_config env m with
  | inr e => inr e
  | inl config =>
      match validate_config m config with
      | inr e => inr e
      | inl _ => inl config
      end
  end.

(** The part of the configuration the order handlers read. *)
Definition handler_config (app_config : AppConfig) : config :=
  {| frontend_base_url := cfg_frontend_base_url app_config;
     shop_address := cfg_shop_address app_config |}.

Lemma rstrip_slash_cons (c : ascii) (s : string) :
  rstrip_slash (String c s)
  = match rstrip_slash s with
    | EmptyString => if Ascii.eqb c "/" then EmptyString else String c EmptyString
    | r => String c r
    end.
Proof. reflexivity. Qed.

Lemma rstrip_slash_no_trailing (s : string) :
  forall t, rstrip_slash s <> (t ++ String "/" EmptyString)%string.
Proof.
  induction s as [| c s IH]; intros t H.
  - destruct t; discriminate.
  - rewrite rstrip_slash_cons in H.
    destruct (rstrip_slash s) as [| c' r] eqn:Hr.
    + destruct (Ascii.eqb c "/") eqn:Hc.
      * destruct t; discriminate.
      * destruct t as [| x t]; simpl in H; inversion H; subst.
        -- rewrite Ascii.eqb_refl in Hc. discriminate.
        -- destruct t; discriminate.
    + destruct t as [| x t]; simpl in H; [inversion H |].
      injection H as _ H2. exact (IH t H2).
Qed.

Lemma strip_strip_lower (s : string) :
  PyStr.strip (PyStr.lower (PyStr.strip s)) = PyStr.lower (PyStr.strip s).
Proof. now rewrite strip_lower, strip_idem. Qed.

Lemma load_config_fields (env : environ) (m : machine) (config : AppConfig) :
  load_config env m = inl config ->
  sender_email config
  = PyStr.lower (PyStr.strip (str_or (env "SENDER_EMAIL")
                                (str_or (env "SMTP_FROM") EmptyString)))
  /\ app_password config
     = PyStr.strip (str_or (env "APP_PASSWORD") (str_or (env "SMTP_PASSWORD") EmptyString))
  /\ smtp_user config = PyStr.strip (str_or (env "SMTP_USER") (sender_email config))
  /\ smtp_password config
     = PyStr.strip (str_or (env "SMTP_PASSWORD") (app_password config))
  /\ cfg_frontend_base_url config
     = rstrip_slash (getenv_default env "FRONTEND_BASE_URL" "http://localhost:5173")
  /\ smtp_host config = getenv_default env "SMTP_HOST" "smtp.gmail.com".
Proof.
  unfold load_config.
  destruct (getenv_int env "APP_PORT" "5003"); [| discriminate].
  destruct (getenv_int env "DB_PORT" "25060"); [| discriminate].
  destruct (getenv_int env "DB_POOL_SIZE" "5"); [| discriminate].
  destruct (getenv_int env "SMTP_PORT" "587"); [| discriminate].
  intros H. inversion H; subst. cbn. repeat split.
Qed.

Lemma validate_config_ok (m : machine) (config : AppConfig) :
  validate_config m config = inl tt ->
  8 <= major_version m
  /\ db_password config <> EmptyString
  /\ (forall p, db_ssl_ca config = Some p -> p <> EmptyString -> path_exists m p = true)
  /\ is_valid_email (sender_email config) = true
  /\ app_password config <> EmptyString
  /\ smtp_host config <> EmptyString.
Proof.
  unfold validate_config.
  destruct (major_version m <? 8) eqn:Hv; [discriminate |].
  destruct (db_password config) as [| c1 s1] eqn:Hdb; [discriminate |]. cbn [PyStr.is_empty].
  destruct (match db_ssl_ca config with
            | Some p => negb (PyStr.is_empty p) && negb (path_exists m p)
            | None => false
            end) eqn:Hca; [discriminate |].
  destruct (sender_email config) as [| c2 s2] eqn:Hse; [discriminate |]. cbn [PyStr.is_empty].
  destruct (is_valid_email (String c2 s2)) eqn:Hvalid; [| discriminate]. cbn [negb].
  destruct (app_password config) as [| c3 s3] eqn:Hap; [discriminate |]. cbn [PyStr.is_empty].
  destruct (smtp_host config) as [| c4 s4] eqn:Hsh; [discriminate |].
  intros _. apply Z.ltb_ge in Hv.
  split; [exact Hv |]. split; [discriminate |]. split.
  { intros p Hp Hne. rewrite Hp in Hca. destruct p; [contradiction |].
    simpl in Hca. now apply negb_false_iff in Hca. }
  split; [reflexivity |]. split; discriminate.
Qed.

(** X17.  What a started application can count on.  When [load_config] and
    [validate_config] both pass: the connector is of version 8 or later;
    the database password, the application password and the SMTP host are
    not empty; a configured CA file exists; the sender address is a valid
    email in normal form (trimmed, lower case), taken from [SENDER_EMAIL]
    or else [SMTP_FROM]; where [SMTP_USER] is unset or empty the SMTP user
    is the sender address, and where [SMTP_PASSWORD] is unset or empty the
    SMTP password is the application password; and the front-end URL the
    tracking links are built on ends with no slash. *)
Theorem started_app_can_mail (env : environ) (m : machine) (config : AppConfig) :
  start_up env m = inl config ->
  8 <= major_version m
  /\ db_password config <> EmptyString
  /\ app_password config <> EmptyString
  /\ smtp_host config <> EmptyString
  /\ (forall p, db_ssl_ca config = Some p -> p <> EmptyString -> path_exists m p = true)
  /\ is_valid_email (sender_email config) = true
  /\ normalize_email (sender_email config) = sender_email config
  /\ sender_email config
     = normalize_email (str_or (env "SENDER_EMAIL") (str_or (env "SMTP_FROM") EmptyString))
  /\ (env "SMTP_USER" = None \/ env "SMTP_USER" = Some EmptyString ->
      smtp_user config = sender_email config)
  /\ (env "SMTP_PASSWORD" = None \/ env "SMTP_PASSWORD" = Some EmptyString ->
      smtp_password config = app_password config
      /\ smtp_password config <> EmptyString)
  /\ (forall t, frontend_base_url (handler_config config)
                <> (t ++ String "/" EmptyString)%string).
Proof.
  unfold start_up.
  destruct (load_config env m) as [loaded | e] eqn:Hload; [| discriminate].
  destruct (validate_config m loaded) as [[] | e] eqn:Hvalid; [| discriminate].
  intros H. inversion H; subst loaded. clear H.
  destruct (load_config_fields env m config Hload)
    as (Hsender & Happ & Huser & Hpass & Hurl & _).
  destruct (validate_config_ok m config Hvalid)
    as (Hv & Hdb & Hca & Hemail & Happ_ne & Hhost).
  split; [exact Hv |]. split; [exact Hdb |]. split; [exact Happ_ne |].
  split; [exact Hhost |]. split; [exact Hca |]. split; [exact Hemail |].
  split. { rewrite Hsender. apply normalize_email_idem. }
  split; [exact Hsender |].
  split.
  { intros Hunset. rewrite Huser.
    assert (Hor : str_or (env "SMTP_USER") (sender_email config) = sender_email config).
    { destruct Hunset as [-> | ->]; reflexivity. }
    rewrite Hor, Hsender. apply strip_strip_lower. }
  split.
  { intros Hunset.
    assert (Heq : smtp_password config = app_password config).
    { rewrite Hpass.
      assert (Hor : str_or (env "SMTP_PASSWORD") (app_password config)
                    = app_password config).
      { destruct Hunset as [-> | ->]; reflexivity. }
      rewrite Hor, Happ. apply strip_idem. }
    split; [exact Heq | now rewrite Heq]. }
  intros t. cbn [frontend_base_url handler_config]. rewrite Hurl.
  apply rstrip_slash_no_trailing.
Qed.

(** An environment with a database password, a sender and an application
    password, on a machine with connector 8.0.33. *)
Definition shop_env : environ :=
  fun k =>
    if String.eqb k "DB_PASSWORD" then Some "secret"
    else if String.eqb k "SENDER_EMAIL" then Some " Orders@Kopi.com "
    else if String.eqb k "APP_PASSWORD" then Some "app-pass "
    else if String.eqb k "FRONTEND_BASE_URL" then Some "https://kopi.example//"
    else None.

Definition shop_machine : machine :=
  {| expanduser := fun p => p;
     is_absolute := fun _ => true;
     resolve_in_base := fun p => p;
     path_exists := fun _ => false;
     connector_version := "8.0.33" |}.

Lemma started_app_can_mail_witness :
  exists config,
    start_up shop_env shop_machine = inl config
    /\ sender_email config = "orders@kopi.com"
    /\ smtp_user config = sender_email config
    /\ smtp_password config = "app-pass"
    /\ frontend_base_url (handler_config config) = "https://kopi.example"
    /\ is_valid_email (sender_email config) = true
    /\ forall t, frontend_base_url (handler_config config)
                 <> (t ++ String "/" EmptyString)%string.
Proof.
  eexists. split; [vm_compute; reflexivity |].
  split; [reflexivity |]. split; [reflexivity |].
  split; [reflexivity |]. split; [reflexivity |].
  match goal with
  | |- is_valid_email (sender_email ?c) = true /\ _ =>
      destruct (started_app_can_mail shop_env shop_machine c)
        as (_ & _ & _ & _ & _ & Hvalid & _ & _ & _ & _ & Hurl)
  end.
  - vm_compute. reflexivity.
  - split; [exact Hvalid | exact Hurl].
Defined.

(* ================================================================== *)
(** * The transaction of verify-and-create, as events *)

(** What a computation of the [try] block adds to the events when it ends:
    [tail] behind its statements when it ends with a value, nothing when it
    raises, and the rollback of an early [return]. *)
Definition closing {A} (o : outcome A) (tail : list event) : list event :=
  match o with
  | Val _ => tail
  | Raise _ => []
  | Return _ => [EvRollback]
  end.

(** A computation that adds statements to the events, and then the events
    of [closing]. *)
Definition runs {A} (tail : list event) (m : M A) : Prop :=
  forall c o c',
    m c = (o, c') ->
    exists stmts, trace c' = (trace c ++ map EvExecute stmts ++ closing o tail)%list.

Lemma runs_ret {A} (a : A) : runs [] (ret a).
Proof.
  intros c o c' H. inversion H; subst. exists []. simpl. now rewrite app_nil_r.
Qed.

Lemma runs_raise {A} (e : exn) : runs [] (@raise A e).
Proof.
  intros c o c' H. inversion H; subst. exists []. simpl. now rewrite app_nil_r.
Qed.

Lemma runs_lift {A} (x : A + exn) : runs [] (lift x).
Proof. destruct x; [apply runs_ret | apply runs_raise]. Qed.

Lemma runs_rollback_return {A} (r : response) :
  runs [] (bind rollback (fun _ => @return_ A r)).
Proof. intros c o c' H. inversion H; subst. exists []. reflexivity. Qed.

Lemma runs_execute (w : world) {A} (s : stmt) (run : db -> A * db) :
  runs [] (execute w s run).
Proof.
  intros c o c'. unfold execute. destruct (db_fault w s) as [err |].
  - intros H. inversion H; subst. exists [s]. reflexivity.
  - cbn. destruct (run (working c)) as [a d]. intros H. inversion H; subst.
    exists [s]. reflexivity.
Qed.

Lemma runs_commit_ret (w : world) {A} (a : A) :
  runs [EvCommit] (bind (commit w) (fun _ => ret a)).
Proof.
  intros c o c'. unfold bind, commit. destruct (commit_fault w) as [err |].
  - intros H. inversion H; subst. exists []. simpl. now rewrite app_nil_r.
  - intros H. inversion H; subst. exists []. reflexivity.
Qed.

Lemma runs_bind {A B} (tail : list event) (m : M A) (k : A -> M B) :
  runs [] m -> (forall a, runs tail (k a)) -> runs tail (bind m k).
Proof.
  intros Hm Hk c o c' H. unfold bind in H.
  destruct (m c) as [[a | e | r] c1] eqn:Hmc.
  - destruct (Hm _ _ _ Hmc) as (s1 & H1). destruct (Hk a _ _ _ H) as (s2 & H2).
    exists (s1 ++ s2)%list. rewrite H2, H1. simpl. rewrite app_nil_r, map_app.
    now rewrite <- !app_assoc.
  - inversion H; subst. exact (Hm _ _ _ Hmc).
  - inversion H; subst. exact (Hm _ _ _ Hmc).
Qed.

Lemma runs_except_duplicate {A} (m retry : M A) :
  runs [] m -> runs [] retry -> runs [] (except_duplicate m retry).
Proof.
  intros Hm Hr c o c' H. unfold except_duplicate in H.
  destruct (m c) as [[a | e | r] c1] eqn:Hmc.
  - inversion H; subst. exact (Hm _ _ _ Hmc).
  - destruct e; try (inversion H; subst; exact (Hm _ _ _ Hmc)).
    destruct (errno =? 1062).
    + destruct (Hm _ _ _ Hmc) as (s1 & H1). destruct (Hr _ _ _ H) as (s2 & H2).
      exists (s1 ++ s2)%list. rewrite H2, H1. simpl. rewrite app_nil_r, map_app.
      now rewrite <- !app_assoc.
    + inversion H; subst. exact (Hm _ _ _ Hmc).
  - inversion H; subst. exact (Hm _ _ _ Hmc).
Qed.

Lemma runs_retry {B} (round : nat -> M B) (exhausted : M B) :
  (forall k, runs [] (round k)) -> runs [] exhausted ->
  forall left k, runs [] (retry_on_duplicate round exhausted left k).
Proof.
  intros Hround Hex. induction left as [| left IH]; intros k; simpl.
  - exact Hex.
  - apply runs_except_duplicate; [apply Hround | apply IH].
Qed.

Section EventFacts.

Variable cfg : config.
Variable py : pylib.
Variable w : world.

Lemma runs_collect_menu_ids (raw_items : list json) :
  forall menu_ids, runs [] (collect_menu_ids raw_items menu_ids).
Proof.
  induction raw_items as [| raw rest IH]; intros menu_ids; simpl.
  - apply runs_ret.
  - apply runs_bind; [apply runs_lift |]. intros line.
    destruct (py_int (raw_menu_id line)).
    + apply IH.
    + apply runs_rollback_return.
    + apply runs_rollback_return.
    + apply runs_raise.
Qed.

Lemma runs_verify_prepare (email code : string) (raw_items : list json)
    (customer_name phone_number : string) :
  runs [] (verify_prepare cfg w email code raw_items customer_name phone_number).
Proof.
  unfold verify_prepare, update, query.
  apply runs_bind; [apply runs_execute |]. intros _.
  apply runs_bind; [apply runs_execute |]. intros [code_row_id |].
  2: apply runs_rollback_return.
  apply runs_bind; [apply runs_collect_menu_ids |]. intros menu_ids.
  apply runs_bind; [apply runs_execute |]. intros menu_rows.
  apply runs_bind; [apply runs_lift |]. intros [order_items order_total].
  destruct order_items as [| item items]; [apply runs_rollback_return |].
  apply runs_bind; [apply runs_execute |]. intros customer.
  apply runs_bind.
  { destruct customer; [apply runs_ret | apply runs_execute]. }
  intros customer_id.
  apply runs_bind; [apply runs_execute |]. intros _. apply runs_ret.
Qed.

Lemma runs_verify_place (customer_name : string) (p : prepared) :
  runs [EvCommit] (verify_place py w customer_name p).
Proof.
  unfold verify_place, insert_order_loop.
  apply runs_bind.
  { apply runs_retry; [| apply runs_ret]. intros k. unfold attempt.
    apply runs_bind; [apply runs_execute |]. intros a. apply runs_ret. }
  intros [[order_id ref_num] |].
  2: { intros c o c' H. inversion H; subst. exists []. simpl. now rewrite app_nil_r. }
  destruct (order_id =? 0).
  - intros c o c' H. inversion H; subst. exists []. simpl. now rewrite app_nil_r.
  - apply runs_commit_ret.
Qed.

Lemma runs_verify_txn (email code : string) (raw_items : list json)
    (customer_name phone_number : string) :
  runs [EvCommit]
       (verify_txn cfg py w email code raw_items customer_name phone_number).
Proof.
  unfold verify_txn. apply runs_bind.
  - apply runs_verify_prepare.
  - intros p. apply runs_verify_place.
Qed.

End EventFacts.

(** The elements of [items], when it is a list. *)
Definition json_items (payload : order_payload) : list json :=
  match p_items payload with
  | JList raw_items => raw_items
  | _ => []
  end.

(** The events of a request of verify-and-create: nothing, for a request
    that fails the format checks; or the statements of the transaction and
    then its end, which is one rollback, or the commit with the
    confirmation mail behind it. *)
Lemma verify_events (cfg : config) (py : pylib) (w : world) (payload : order_payload)
    (d : db) :
  let email := normalize_email (p_email payload) in
  let r := verify_and_create_order cfg py w payload d in
  (status (resp r) <> 200 /\ events r = [])
  \/ (status (resp r) <> 200
      /\ exists stmts, events r = (map EvExecute stmts ++ [EvRollback])%list)
  \/ (status (resp r) = 200
      /\ exists stmts p c n,
          verify_prepare cfg w email (PyStr.strip (p_code payload)) (json_items payload)
            (customer_name_of payload) (phone_of payload) (connect d) = (Val p, c)
          /\ r = verify_finish cfg w email
                (Val (created_at py w (customer_name_of payload) p n c),
                 placed py w (customer_name_of payload) p n c)
          /\ events r
             = (map EvExecute stmts
                  ++ [EvCommit; order_mail cfg email (ref_at w n)])%list).
Proof.
  intros email r. subst r. unfold verify_and_create_order. cbv zeta. fold email.
  destruct (PyStr.is_empty email || negb (is_valid_email email));
    [left; split; [simpl; discriminate | reflexivity] |].
  destruct (PyStr.is_empty _ || negb (PyStr.isdigit _) || negb (_ =? 4));
    [left; split; [simpl; discriminate | reflexivity] |].
  unfold json_items.
  destruct (p_items payload) as [| | | | | [| first others] |];
    try (left; split; [simpl; discriminate | reflexivity]).
  right.
  change (if PyStr.is_empty (PyStr.strip (p_customerName payload))
          then default_customer_name email
          else PyStr.strip (p_customerName payload))
    with (customer_name_of payload).
  change (PyStr.or_else (PyStr.strip (p_phoneNumber payload)) "N/A")
    with (phone_of payload).
  destruct (verify_txn cfg py w email (PyStr.strip (p_code payload)) (first :: others)
              (customer_name_of payload) (phone_of payload) (connect d))
    as [o c1] eqn:Htxn.
  destruct (runs_verify_txn cfg py w _ _ _ _ _ _ _ _ Htxn) as (stmts & Htrace).
  cbn [connect trace app] in Htrace.
  destruct o as [o | exc | r0].
  - right. unfold verify_txn in Htxn. apply bind_val in Htxn.
    destruct Htxn as (p & c & Hprep & Hplace).
    apply verify_place_val in Hplace.
    destruct Hplace as (n & _ & _ & _ & _ & -> & ->).
    split; [unfold verify_finish; destruct (send_html_email w); reflexivity |].
    exists stmts, p, c, n. split; [exact Hprep |]. split; [reflexivity |].
    unfold verify_finish.
    destruct (send_html_email w); cbn [events]; rewrite Htrace;
      cbn [closing created_at new_ref_num]; rewrite <- app_assoc; reflexivity.
  - left. split.
    + unfold verify_finish. cbn [resp]. destruct (is_ValueError exc); simpl; discriminate.
    + exists stmts. unfold verify_finish. cbn [events rollback snd log trace set_working].
      rewrite Htrace. cbn [closing]. now rewrite app_nil_r.
  - left. split.
    + exact (returns_verify_txn cfg py w _ _ _ _ _ _ _ _ Htxn).
    + exists stmts. exact Htrace.
Qed.

(** X18.  The transaction of verify-and-create is closed once, and the
    confirmation mail follows the commit.  The events of an answer 200 are
    statements, then the commit, then one mail to the normalised email with
    the reference of the new order row in its subject and its tracking link
    in its text, and nothing else; the answer carries the same link as
    [track_url], and [email_sent] and [email_error] tell whether the mail
    went out (a mail that fails leaves the answer 200 and the order
    committed).  Every other answer leaves the store as it was, sends no
    mail and commits nothing: its events are none at all, or statements and
    then one rollback. *)
Theorem order_mail_follows_commit (cfg : config) (py : pylib) (w : world)
    (payload : order_payload) (d : db) :
  let email := normalize_email (p_email payload) in
  let r := verify_and_create_order cfg py w payload d in
  (status (resp r) = 200 ->
   exists stmts row members order,
     orders (store r) = (orders d ++ [row])%list
     /\ events r
        = (map EvExecute stmts ++ [EvCommit; order_mail cfg email (ord_ref_num row)])%list
     /\ body (resp r) = JDict members
     /\ dict_find "order" members = Some (JDict order)
     /\ dict_find "track_url" order
        = Some (JStr (frontend_base_url cfg ++ "/track-order?ref=" ++ ord_ref_num row))
     /\ (smtp_fault w = None ->
         dict_find "email_sent" members = Some (JBool true)
         /\ dict_find "email_error" members = Some JNull)
     /\ (forall msg,
            smtp_fault w = Some msg ->
            dict_find "email_sent" members = Some (JBool false)
            /\ dict_find "email_error" members = Some (JStr msg)))
  /\ (status (resp r) <> 200 ->
      store r = d
      /\ (events r = []
          \/ exists stmts, events r = (map EvExecute stmts ++ [EvRollback])%list)).
Proof.
  intros email r.
  pose proof (verify_events cfg py w payload d) as Hev. cbv zeta in Hev.
  fold email in Hev. fold r in Hev.
  destruct Hev
    as [[Hno Hevs] | [[Hno Hevs] | (H200 & stmts & p & c & n & Hprep & Hr & Hevs)]].
  - split; [intros H200; contradiction |]. intros _.
    split; [now apply verify_failure_keeps_store | now left].
  - split; [intros H200; contradiction |]. intros _.
    split; [now apply verify_failure_keeps_store | now right].
  - split; [| intros Hno; contradiction]. intros _.
    destruct (verify_prepare_store _ _ _ _ _ _ _ _ _ _ Hprep) as (id & _ & _ & Hwork & _).
    destruct (orders_consumed cfg w email (customer_name_of payload) (phone_of payload) id d)
      as [Horders _].
    exists stmts, (order_row_of cfg py w payload p n d).
    rewrite Hevs. rewrite Hr. unfold verify_finish, send_html_email.
    destruct (smtp_fault w) as [msg |]; (eexists; eexists);
      cbn [resp store body committed placed created_at new_ref_num];
      unfold order_insert, sql_insert_order, order_row_of, ref_at;
      cbn [fst snd orders set_orders ord_ref_num]; rewrite Hwork, Horders;
      (split; [reflexivity |]); (split; [reflexivity |]); (split; [reflexivity |]);
      (split; [reflexivity |]); (split; [reflexivity |]);
      (split; [intros H | intros msg' H]); try discriminate;
      try (inversion H; subst); split; reflexivity.
Qed.

Lemma order_mail_follows_commit_witness :
  let bounced := Ex.with_smtp_fault "Mailbox unavailable" Ex.calm in
  let r := verify_and_create_order Ex.cfg Ex.py bounced kopi_order Ex.shop in
  status (resp r) = 200
  /\ exists stmts row members order,
      orders (store r) = (orders Ex.shop ++ [row])%list
      /\ events r
         = (map EvExecute stmts
              ++ [EvCommit; order_mail Ex.cfg "a@b.com" (ord_ref_num row)])%list
      /\ body (resp r) = JDict members
      /\ dict_find "order" members = Some (JDict order)
      /\ dict_find "track_url" order
         = Some (JStr (frontend_base_url Ex.cfg ++ "/track-order?ref=" ++ ord_ref_num row))
      /\ (smtp_fault bounced = None ->
          dict_find "email_sent" members = Some (JBool true)
          /\ dict_find "email_error" members = Some JNull)
      /\ (forall msg,
             smtp_fault bounced = Some msg ->
             dict_find "email_sent" members = Some (JBool false)
             /\ dict_find "email_error" members = Some (JStr msg)).
Proof.
  intros bounced r. split; [reflexivity |].
  destruct (order_mail_follows_commit Ex.cfg Ex.py bounced kopi_order Ex.shop) as [H _].
  apply H. reflexivity.
Defined.

(* ================================================================== *)
(** * The ids of the menu lookup *)

(** [sorted(set(menu_ids))], the ids verify-and-create hands to
    [WHERE id IN (...)]: each id once, in increasing order. *)
Fixpoint insert_id (n : Z) (ids : list Z) : list Z :=
  match ids with
  | [] => [n]
  | x :: rest =>
      if n <? x then n :: ids
      else if n =? x then ids
      else x :: insert_id n rest
  end.

Definition unique_menu_ids (menu_ids : list Z) : list Z :=
  fold_right insert_id [] menu_ids.

(** Each element is less than the next. *)
Fixpoint increasing (ids : list Z) : bool :=
  match ids with
  | x :: ((y :: _) as rest) => (x <? y) && increasing rest
  | _ => true
  end.

Lemma insert_id_In (n : Z) (ids : list Z) (i : Z) :
  In i (insert_id n ids) <-> i = n \/ In i ids.
Proof.
  induction ids as [| x rest IH]; simpl.
  - intuition.
  - destruct (n <? x); [simpl; intuition |].
    destruct (n =? x) eqn:Heq.
    + apply Z.eqb_eq in Heq. subst x. simpl. intuition.
    + simpl. rewrite IH. intuition.
Qed.

Lemma insert_id_nonempty (n : Z) (ids : list Z) : insert_id n ids <> [].
Proof.
  destruct ids as [| x rest]; simpl; [discriminate |].
  destruct (n <? x); [discriminate |]. destruct (n =? x); discriminate.
Qed.

Lemma insert_id_length (n : Z) (ids : list Z) :
  (List.length (insert_id n ids) <= S (List.length ids))%nat.
Proof.
  induction ids as [| x rest IH]; simpl; [lia |].
  destruct (n <? x); [simpl; lia |]. destruct (n =? x); simpl; lia.
Qed.

Lemma increasing_cons (x : Z) (ids : list Z) :
  increasing (x :: ids) = true <->
  increasing ids = true /\ match ids with y :: _ => x < y | [] => True end.
Proof.
  destruct ids as [| y rest]; cbn [increasing].
  - tauto.
  - rewrite andb_true_iff, Z.ltb_lt. tauto.
Qed.

Lemma insert_id_increasing (n : Z) (ids : list Z) :
  increasing ids = true -> increasing (insert_id n ids) = true.
Proof.
  induction ids as [| x rest IH]; intros H.
  - reflexivity.
  - cbn [insert_id]. destruct (n <? x) eqn:Hlt.
    + apply increasing_cons. split; [exact H | now apply Z.ltb_lt].
    + destruct (n =? x) eqn:Heq; [exact H |].
      apply increasing_cons in H. destruct H as [Hrest Hhead].
      apply increasing_cons. split; [now apply IH |].
      apply Z.ltb_ge in Hlt. apply Z.eqb_neq in Heq.
      destruct rest as [| y rest']; cbn [insert_id]; [lia |].
      destruct (n <? y); [lia |]. destruct (n =? y); [exact Hhead | exact Hhead].
Qed.

Lemma increasing_above (x : Z) (ids : list Z) :
  increasing (x :: ids) = true -> forall y, In y ids -> x < y.
Proof.
  revert x. induction ids as [| z rest IH]; intros x H y Hy; [contradiction |].
  apply increasing_cons in H. destruct H as [Hrest Hxz].
  destruct Hy as [<- | Hy]; [exact Hxz |].
  specialize (IH z Hrest y Hy). lia.
Qed.

Lemma increasing_NoDup (ids : list Z) : increasing ids = true -> NoDup ids.
Proof.
  induction ids as [| x rest IH]; intros H; constructor.
  - intros Hin. pose proof (increasing_above x rest H x Hin). lia.
  - apply IH. now apply increasing_cons in H.
Qed.

Lemma unique_menu_ids_In (menu_ids : list Z) (i : Z) :
  In i (unique_menu_ids menu_ids) <-> In i menu_ids.
Proof.
  induction menu_ids as [| n rest IH]; simpl; [tauto |].
  rewrite insert_id_In, IH. intuition.
Qed.

Lemma unique_menu_ids_increasing (menu_ids : list Z) :
  increasing (unique_menu_ids menu_ids) = true.
Proof.
  induction menu_ids as [| n rest IH]; [reflexivity |].
  simpl. now apply insert_id_increasing.
Qed.

Lemma unique_menu_ids_length (menu_ids : list Z) :
  (List.length (unique_menu_ids menu_ids) <= List.length menu_ids)%nat.
Proof.
  induction menu_ids as [| n rest IH]; simpl; [lia |].
  pose proof (insert_id_length n (unique_menu_ids rest)). lia.
Qed.

(** [WHERE id IN (...)] looks at the ids as a set. *)
Lemma sql_select_menu_ids (ids ids' : list Z) (d : db) :
  (forall i, In i ids <-> In i ids') ->
  sql_select_menu ids d = sql_select_menu ids' d.
Proof.
  intros Hsame. unfold sql_select_menu. f_equal. apply filter_ext. intros r.
  f_equal. apply eq_true_iff_eq. rewrite !existsb_exists.
  split; intros (i & Hi & Heq); exists i; (split; [now apply Hsame | exact Heq]).
Qed.

(** Rows with distinct keys keep distinct keys when some are filtered
    out. *)
Lemma NoDup_map_filter {A B} (f : A -> B) (keep : A -> bool) (l : list A) :
  NoDup (map f l) -> NoDup (map f (filter keep l)).
Proof.
  induction l as [| a l IH]; intros H; simpl; [constructor |].
  inversion H as [| ? ? Hnotin Hrest]; subst.
  destruct (keep a); [| now apply IH]. simpl. constructor; [| now apply IH].
  intros Hin. apply Hnotin. apply in_map_iff in Hin. destruct Hin as (x & Hx & Hin).
  apply filter_In in Hin. apply in_map_iff. exists x. tauto.
Qed.

(** X19.  The ids of the menu lookup.  When the first loop of
    verify-and-create has read the ids of a cart that is not empty, the ids
    [sorted(set(menu_ids))] of the [IN (...)] list are not empty, so the
    statement has at least one placeholder; they are the ids of the cart,
    each once, in increasing order, and not more than the cart has lines.
    The statement gives the available menu rows whose id is in the cart,
    each row once however many lines of the cart name it (menu ids being
    unique), and any row it gives is of a line of the cart; it gives the
    same rows for the ids as the cart has them. *)
Theorem menu_lookup_ids (raw_items : list json) (c c' : conn) (menu_ids : list Z) :
  raw_items <> [] ->
  collect_menu_ids raw_items [] c = (Val menu_ids, c') ->
  let ids := unique_menu_ids menu_ids in
  List.length menu_ids = List.length raw_items
  /\ ids <> []
  /\ increasing ids = true
  /\ NoDup ids
  /\ (forall i, In i ids <-> In i menu_ids)
  /\ (List.length ids <= List.length raw_items)%nat
  /\ forall d,
       sql_select_menu ids d = sql_select_menu menu_ids d
       /\ (forall row,
              In row (sql_select_menu ids d) <->
              exists r, In r (menu d) /\ m_row r = row /\ m_is_available r = 1
                        /\ In (menu_id row) menu_ids)
       /\ (NoDup (map (fun r => menu_id (m_row r)) (menu d)) ->
           NoDup (map menu_id (sql_select_menu ids d))).
Proof.
  intros Hne Hrun ids.
  apply collect_menu_ids_val in Hrun. destruct Hrun as (_ & new & Hids & Hlines).
  simpl in Hids. subst menu_ids.
  pose proof (Forall2_length Hlines) as Hlen.
  split; [now symmetry |].
  split.
  { subst ids. destruct new as [| n rest].
    - destruct raw_items; [contradiction | discriminate].
    - apply insert_id_nonempty. }
  split; [apply unique_menu_ids_increasing |].
  split; [apply increasing_NoDup, unique_menu_ids_increasing |].
  split; [intros i; apply unique_menu_ids_In |].
  split; [rewrite Hlen; apply unique_menu_ids_length |].
  intros d.
  assert (Hsame : sql_select_menu ids d = sql_select_menu new d).
  { apply sql_select_menu_ids. intros i. apply unique_menu_ids_In. }
  split; [exact Hsame |]. split.
  - intros row. rewrite Hsame. unfold sql_select_menu. rewrite in_map_iff. split.
    + intros (r & Hrow & Hin). apply filter_In in Hin. destruct Hin as [Hin Hkeep].
      apply andb_true_iff in Hkeep. destruct Hkeep as [Hid Hav].
      apply existsb_exists in Hid. destruct Hid as (i & Hi & Heq).
      apply Z.eqb_eq in Heq. apply Z.eqb_eq in Hav.
      exists r. rewrite <- Hrow, Heq. tauto.
    + intros (r & Hin & Hrow & Hav & Hid). exists r. split; [exact Hrow |].
      apply filter_In. split; [exact Hin |]. apply andb_true_iff. split.
      * apply existsb_exists. exists (menu_id row). split; [exact Hid |].
        rewrite Hrow. apply Z.eqb_refl.
      * now apply Z.eqb_eq.
  - intros Hnd. unfold sql_select_menu. rewrite map_map.
    now apply NoDup_map_filter.
Qed.

Lemma menu_lookup_ids_witness :
  let cart := [Ex.line (JInt 3) (JInt 1); Ex.line (JInt 1) (JInt 2);
               Ex.line (JStr "3") (JInt 4)] in
  unique_menu_ids [3; 1; 3] = [1; 3]
  /\ let ids := unique_menu_ids [3; 1; 3] in
     List.length [3; 1; 3] = List.length cart
     /\ ids <> []
     /\ increasing ids = true
     /\ NoDup ids
     /\ (forall i, In i ids <-> In i [3; 1; 3])
     /\ (List.length ids <= List.length cart)%nat
     /\ forall d,
          sql_select_menu ids d = sql_select_menu [3; 1; 3] d
          /\ (forall row,
                 In row (sql_select_menu ids d) <->
                 exists r, In r (menu d) /\ m_row r = row /\ m_is_available r = 1
                           /\ In (menu_id row) [3; 1; 3])
          /\ (NoDup (map (fun r => menu_id (m_row r)) (menu d)) ->
              NoDup (map menu_id (sql_select_menu ids d))).
Proof.
  intros cart. split; [reflexivity |].
  apply (menu_lookup_ids cart (connect Ex.shop) (connect Ex.shop) [3; 1; 3]).
  - discriminate.
  - reflexivity.
Defined.

(* ================================================================== *)
(** * The options of the connection pool *)

(** What [create_db_pool] hands to [MySQLConnectionPool]: [pool_name],
    [pool_size] and the keyword arguments of [db_config], in the order
    they are set. *)
Record pool_args := {
  pool_name : string;
  pool_size : Z;
  db_config : pydict;
}.

(** [create_db_pool]; [valid_keys k] tells whether [k] is a key of
    [mysql.connector.abstracts.DEFAULT_CONFIGURATION]. *)
Definition create_db_pool (valid_keys : string -> bool) (config : AppConfig)
    : pool_args :=
  let db_config :=
    [("host", JStr (db_host config));
     ("port", JInt (db_port config));
     ("user", JStr (db_user config));
     ("password", JStr (db_password config));
     ("database", JStr (db_name config));
     ("autocommit", JBool false);
     ("charset", JStr "utf8mb4")] in
  let db_config :=
    if db_ssl_required config then
      match db_ssl_ca config with
      | Some ca =>
          if negb (PyStr.is_empty ca) && valid_keys "ssl_ca" then
            let db_config := (db_config ++ [("ssl_ca", JStr ca)])%list in
            if valid_keys "ssl_verify_cert" then
              (db_config
                 ++ [("ssl_verify_cert", JBool (db_ssl_verify_cert config))])%list
            else db_config
          else db_config
      | None => db_config
      end
    else db_config in
  {| pool_name := "kopikopi_pool";
     pool_size := db_pool_size config;
     db_config := db_config |}.

(** The options every pool gets. *)
Definition base_options (config : AppConfig) : pydict :=
  [("host", JStr (db_host config));
   ("port", JInt (db_port config));
   ("user", JStr (db_user config));
   ("password", JStr (db_password config));
   ("database", JStr (db_name config));
   ("autocommit", JBool false);
   ("charset", JStr "utf8mb4")].

Lemma load_config_tls (env : environ) (m : machine) (config : AppConfig) :
  load_config env m = inl config ->
  db_ssl_required config = _to_bool (env "DB_SSL_REQUIRED") true
  /\ db_ssl_ca config = load_db_ssl_ca env m
  /\ db_ssl_verify_cert config = _to_bool (env "DB_SSL_VERIFY_CERT") false.
Proof.
  unfold load_config.
  destruct (getenv_int env "APP_PORT" "5003"); [| discriminate].
  destruct (getenv_int env "DB_PORT" "25060"); [| discriminate].
  destruct (getenv_int env "DB_POOL_SIZE" "5"); [| discriminate].
  destruct (getenv_int env "SMTP_PORT" "587"); [| discriminate].
  intros H. inversion H; subst. cbn. repeat split.
Qed.

Lemma load_db_ssl_ca_unset (env : environ) (m : machine) :
  env "DB_SSL_CA" = None
  \/ (exists s, env "DB_SSL_CA" = Some s /\ PyStr.strip s = EmptyString) ->
  load_db_ssl_ca env m = None.
Proof.
  unfold load_db_ssl_ca, str_or. intros [-> | (s & -> & Hs)].
  - reflexivity.
  - unfold PyStr.or_else. destruct (PyStr.is_empty s) eqn:He.
    + reflexivity.
    + rewrite Hs. reflexivity.
Qed.

(** X20.  The database connection gets TLS options only with a CA file.  In
    a started application the pool is opened with [autocommit] off and the
    configured password, which is not empty.  With [DB_SSL_CA] unset or
    blank, the options are the seven base options and nothing else,
    whatever [DB_SSL_REQUIRED] says; so they are with [DB_SSL_REQUIRED]
    off.  An [ssl_ca] that is handed over is the configured path of a file
    that exists, and [ssl_verify_cert] is handed over only together with
    [ssl_ca], with the value of [DB_SSL_VERIFY_CERT], which is false when
    unset. *)
Theorem pool_tls_needs_ca (env : environ) (m : machine) (valid_keys : string -> bool)
    (config : AppConfig) :
  start_up env m = inl config ->
  let options := db_config (create_db_pool valid_keys config) in
  (exists tls, options = (base_options config ++ tls)%list)
  /\ dict_find "autocommit" options = Some (JBool false)
  /\ dict_find "password" options = Some (JStr (db_password config))
  /\ db_password config <> EmptyString
  /\ (env "DB_SSL_CA" = None
      \/ (exists s, env "DB_SSL_CA" = Some s /\ PyStr.strip s = EmptyString) ->
      options = base_options config)
  /\ (_to_bool (env "DB_SSL_REQUIRED") true = false -> options = base_options config)
  /\ (forall v,
         dict_find "ssl_ca" options = Some v ->
         exists p, v = JStr p /\ db_ssl_ca config = Some p /\ path_exists m p = true
                   /\ _to_bool (env "DB_SSL_REQUIRED") true = true)
  /\ (forall v,
         dict_find "ssl_verify_cert" options = Some v ->
         v = JBool (_to_bool (env "DB_SSL_VERIFY_CERT") false)
         /\ (env "DB_SSL_VERIFY_CERT" = None -> v = JBool false)
         /\ exists p, dict_find "ssl_ca" options = Some (JStr p)).
Proof.
  unfold start_up.
  destruct (load_config env m) as [loaded | e] eqn:Hload; [| discriminate].
  destruct (validate_config m loaded) as [[] | e] eqn:Hvalid; [| discriminate].
  intros H. inversion H; subst loaded. clear H.
  destruct (load_config_tls env m config Hload) as (Hreq & Hca & Hverify).
  destruct (validate_config_ok m config Hvalid) as (_ & Hdb & Hexists & _).
  cbv zeta. unfold create_db_pool. cbn [db_config].
  fold (base_options config).
  rewrite <- Hreq, <- Hverify.
  assert (Hnone : env "DB_SSL_CA" = None
                  \/ (exists s, env "DB_SSL_CA" = Some s /\ PyStr.strip s = EmptyString) ->
                  db_ssl_ca config = None).
  { intros Hunset. rewrite Hca. now apply load_db_ssl_ca_unset. }
  assert (Hfalse : env "DB_SSL_VERIFY_CERT" = None -> db_ssl_verify_cert config = false).
  { intros Hunset. rewrite Hverify, Hunset. reflexivity. }
  destruct (db_ssl_required config).
  2: { split; [exists []; now rewrite app_nil_r |].
       repeat (split; [first [reflexivity | exact Hdb | intros; reflexivity] |]).
       split; intros v Hv; discriminate. }
  destruct (db_ssl_ca config) as [p |] eqn:Hp.
  2: { split; [exists []; now rewrite app_nil_r |].
       repeat (split; [first [reflexivity | exact Hdb | intros; reflexivity] |]).
       split; intros v Hv; discriminate. }
  destruct (PyStr.is_empty p) eqn:Hempty; cbn [negb andb].
  { split; [exists []; now rewrite app_nil_r |].
    repeat (split; [first [reflexivity | exact Hdb | intros; reflexivity] |]).
    split; intros v Hv; discriminate. }
  assert (Hfile : path_exists m p = true).
  { apply (Hexists p eq_refl). intros ->. discriminate. }
  destruct (valid_keys "ssl_ca").
  2: { split; [exists []; now rewrite app_nil_r |].
       repeat (split; [first [reflexivity | exact Hdb | intros; reflexivity] |]).
       split; intros v Hv; discriminate. }
  destruct (valid_keys "ssl_verify_cert").
  - rewrite <- app_assoc. split; [eexists; reflexivity |].
    split; [reflexivity |]. split; [reflexivity |]. split; [exact Hdb |].
    split; [intros Hunset; discriminate (Hnone Hunset) |].
    split; [discriminate |].
    split.
    + intros v Hv. inversion Hv; subst. exists p. repeat split; assumption.
    + intros v Hv. inversion Hv; subst. split; [reflexivity |].
      split; [intros Hunset; now rewrite (Hfalse Hunset) |].
      exists p. reflexivity.
  - split; [eexists; reflexivity |].
    split; [reflexivity |]. split; [reflexivity |]. split; [exact Hdb |].
    split; [intros Hunset; discriminate (Hnone Hunset) |].
    split; [discriminate |].
    split.
    + intros v Hv. inversion Hv; subst. exists p. repeat split; assumption.
    + intros v Hv. discriminate.
Qed.

(** A shop that is given a CA file and asks for the certificate check. *)
Definition tls_env : environ :=
  fun k =>
    if String.eqb k "DB_PASSWORD" then Some "secret"
    else if String.eqb k "SENDER_EMAIL" then Some "orders@kopi.com"
    else if String.eqb k "APP_PASSWORD" then Some "app-pass"
    else if String.eqb k "DB_SSL_CA" then Some " /etc/ssl/db-ca.pem "
    else if String.eqb k "DB_SSL_VERIFY_CERT" then Some "Yes"
    else None.

Definition tls_machine : machine :=
  {| expanduser := fun p => p;
     is_absolute := fun _ => true;
     resolve_in_base := fun p => p;
     path_exists := fun p => String.eqb p "/etc/ssl/db-ca.pem";
     connector_version := "9.1.0" |}.

Lemma pool_tls_needs_ca_witness :
  exists config,
    start_up tls_env tls_machine = inl config
    /\ let options := db_config (create_db_pool (fun _ => true) config) in
       options = (base_options config
                    ++ [("ssl_ca", JStr "/etc/ssl/db-ca.pem");
                        ("ssl_verify_cert", JBool true)])%list
       /\ dict_find "autocommit" options = Some (JBool false)
       /\ forall v,
            dict_find "ssl_ca" options = Some v ->
            exists p, v = JStr p /\ db_ssl_ca config = Some p
                      /\ path_exists tls_machine p = true
                      /\ _to_bool (tls_env "DB_SSL_REQUIRED") true = true.
Proof.
  eexists. split; [vm_compute; reflexivity |].
  intros options. split; [reflexivity |].
  match goal with
  | |- context [db_ssl_ca ?c] =>
      destruct (pool_tls_needs_ca tls_env tls_machine (fun _ => true) c)
        as (_ & Hauto & _ & _ & _ & _ & Hca & _)
  end.
  - vm_compute. reflexivity.
  - split; [exact Hauto | exact Hca].
Defined.
